(** * MovieCP: a shallow embedding of the ingestion and transfer core

    The development follows the Python package [moviecp]:
    - [Py]              the string and path primitives of the Python
                        standard library that the package calls;
    - [Re]              the regular expressions the version detector builds
                        from its configured suffix format;
    - [VersionDetector] [core/version_detector.py];
    - [FileValidator]   [watcher/validator.py] and [utils/helpers.py];
    - [FileCopier]      [core/file_copier.py];
    - [Status], [Action], [PendingMovie], [ProcessedMovie], [Store]
                        [models.py] and the tables behind it;
    - [FileProcessor]   [watcher/processor.py];
    - [MovieRenamer]    [core/renamer.py];
    - [MovieManager]    [core/movie_manager.py].

    Python [str] is [string] (one [ascii] per code point below 256),
    Python [int] is [Z], and an operation that can raise returns a
    [result]. What the operating system, the clock and the external
    renamer do is an input of the functions that call them. The
    properties follow the definitions. *)

From Stdlib Require Import ZArith QArith Bool Lia Ascii DecimalString.
From stdpp Require Import gmap strings list.

Local Open Scope Z_scope.

(** The Standard Library's strings ([String] alone is stdpp's module) *)
Module Str := Stdlib.Strings.String.

(** ** Exceptions and results *)

Inductive exn : Type :=
| NetworkShareError (msg : string)
| FileCopyError (msg : string)
| MnamerError (msg : string)
| FileValidationError (msg : string)
| DatabaseError (msg : string)
| VersionDetectionError (msg : string)
| IntegrityError (msg : string)
| OSError (msg : string)
| TypeError (msg : string)
| ValueError (msg : string)
| OverflowError (msg : string).

(** [str(e)] *)
Definition exn_str (e : exn) : string :=
  match e with
  | NetworkShareError m | FileCopyError m | MnamerError m
  | FileValidationError m | DatabaseError m | VersionDetectionError m
  | IntegrityError m | OSError m | TypeError m | ValueError m
  | OverflowError m => m
  end.

(** [FileNotFoundError], with the text Python gives it *)
Definition FileNotFoundError (path : string) : exn :=
  OSError ("[Errno 2] No such file or directory: '" +:+ path +:+ "'").

Inductive result (A : Type) : Type :=
| Ok (a : A)
| Raise (e : exn).
Arguments Ok {A} a.
Arguments Raise {A} e.

(** ** Python string and path primitives *)

Module Py.

Definition chars (s : string) : list ascii := Str.list_ascii_of_string s.
Definition str (l : list ascii) : string := Str.string_of_list_ascii l.

Definition len (s : string) : Z := Z.of_nat (length (chars s)).

(** [s[i:j]] for [0 <= i] and [0 <= j] *)
Definition slice (s : string) (i j : Z) : string :=
  str (take (Z.to_nat (j - i)) (drop (Z.to_nat i) (chars s))).

(** [s[i:]] for [0 <= i] *)
Definition slice_from (s : string) (i : Z) : string :=
  str (drop (Z.to_nat i) (chars s)).

(** [s[:-1]] *)
Definition drop_last (s : string) : string :=
  str (removelast (chars s)).

Fixpoint startswith (s p : string) : bool :=
  match p, s with
  | EmptyString, _ => true
  | String a p', String b s' => Ascii.eqb a b && startswith s' p'
  | String _ _, EmptyString => false
  end.

(** [s.endswith(p)]: some tail of [s] is [p] *)
Fixpoint endswith (s p : string) : bool :=
  if Str.eqb s p then true
  else match s with
       | EmptyString => false
       | String _ s' => endswith s' p
       end.

Fixpoint rfind_from (c : ascii) (s : string) (i : Z) : Z :=
  match s with
  | EmptyString => -1
  | String a s' =>
      let r := rfind_from c s' (i + 1) in
      if 0 <=? r then r else if Ascii.eqb a c then i else -1
  end.

(** [s.rfind(c)]: the highest index of [c], or [-1] *)
Definition rfind (c : ascii) (s : string) : Z := rfind_from c s 0.

Definition code (c : ascii) : N := N_of_ascii c.

Definition isdigit (c : ascii) : bool :=
  (48 <=? code c)%N && (code c <=? 57)%N.

Definition digit_value (c : ascii) : Z := Z.of_N (code c) - 48.

(** [int(s)] for a string of decimal digits *)
Definition int_of_digits (s : string) : Z :=
  fold_left (fun acc c => 10 * acc + digit_value c) (chars s) 0.

(** [str(n)] for an integer *)
Definition str_of_int (n : Z) : string := NilZero.string_of_int (Z.to_int n).

Definition isspace (c : ascii) : bool :=
  let n := code c in
  ((9 <=? n) && (n <=? 13) || (28 <=? n) && (n <=? 32)
   || (n =? 133) || (n =? 160))%N.

Fixpoint lstrip (s : string) : string :=
  match s with
  | EmptyString => EmptyString
  | String a s' => if isspace a then lstrip s' else s
  end.

(** [s.strip()] *)
Definition strip (s : string) : string :=
  String.rev (lstrip (String.rev (lstrip s))).

Definition lower_char (c : ascii) : ascii :=
  let n := code c in
  if ((65 <=? n) && (n <=? 90)
      || (192 <=? n) && (n <=? 222) && negb (n =? 215))%N
  then ascii_of_N (n + 32) else c.

(** [s.lower()] *)
Fixpoint lower (s : string) : string :=
  match s with
  | EmptyString => EmptyString
  | String a s' => String (lower_char a) (lower s')
  end.

(** [s.split(sep)] for a one-character separator *)
Fixpoint split (sep : ascii) (s : string) : list string :=
  match s with
  | EmptyString => [EmptyString]
  | String a s' =>
      if Ascii.eqb a sep then EmptyString :: split sep s'
      else match split sep s' with
           | [] => [String a EmptyString]
           | w :: ws => String a w :: ws
           end
  end.

(** [c not in s] *)
Definition lacks (c : ascii) (s : string) : bool :=
  forallb (fun a => negb (Ascii.eqb a c)) (chars s).

(** [os.path.basename(p)]: [p[p.rfind('/') + 1:]] *)
Definition basename (p : string) : string :=
  slice_from p (rfind "/" p + 1).

(** [os.path.join(a, b)] *)
Definition join (a b : string) : string :=
  if startswith b "/" then b
  else if Str.eqb a "" || endswith a "/" then a +:+ b
  else a +:+ "/" +:+ b.

(** [os.path.splitext(p)], as [genericpath._splitext] computes it: the
    extension starts at the last dot of the last component, unless
    that component has only dots before it. *)
Definition splitext (p : string) : string * string :=
  let sepIndex := rfind "/" p in
  let dotIndex := rfind "." p in
  if sepIndex <? dotIndex then
    if forallb (fun c => Ascii.eqb c ".")
               (chars (slice p (sepIndex + 1) dotIndex))
    then (p, EmptyString)
    else (slice p 0 dotIndex, slice_from p dotIndex)
  else (p, EmptyString).

(** [PurePosixPath(p).name]: the last component that is neither empty
    nor a single dot *)
Definition path_name (p : string) : string :=
  List.last
    (List.filter (fun w => negb (Str.eqb w "" || Str.eqb w "."))
                 (split "/" p))
    EmptyString.

(** [PurePosixPath(p).stem] (Python 3.10 to 3.12) *)
Definition path_stem (p : string) : string :=
  let name := path_name p in
  let i := rfind "." name in
  if (0 <? i) && (i <? len name - 1) then slice name 0 i else name.

(** [PurePosixPath(p).suffix] *)
Definition path_suffix (p : string) : string :=
  let name := path_name p in
  let i := rfind "." name in
  if (0 <? i) && (i <? len name - 1) then slice_from name i
  else EmptyString.

(** [sub in s] *)
Fixpoint contains (s sub : string) : bool :=
  if startswith s sub then true
  else match s with
       | EmptyString => false
       | String _ s' => contains s' sub
       end.

(** [s.split(sep)] for a non-empty separator: the occurrences are taken
    from left to right without overlap; [skip] counts the characters of a
    separator still to pass over. *)
Fixpoint split_str_from (skip : nat) (sep s : string) : list string :=
  match s with
  | EmptyString => [EmptyString]
  | String c s' =>
      match skip with
      | S k => split_str_from k sep s'
      | O =>
          if startswith s sep
          then EmptyString :: split_str_from (pred (length (chars sep))) sep s'
          else match split_str_from 0 sep s' with
               | [] => [String c EmptyString]
               | w :: ws => String c w :: ws
               end
      end
  end.

Definition split_str (sep s : string) : list string :=
  split_str_from 0 sep s.

(** [s.lstrip(set)] *)
Fixpoint lstrip_chars (set s : string) : string :=
  match s with
  | EmptyString => EmptyString
  | String a s' =>
      if existsb (Ascii.eqb a) (chars set) then lstrip_chars set s' else s
  end.

(** [s.rstrip(set)] *)
Definition rstrip_chars (set s : string) : string :=
  String.rev (lstrip_chars set (String.rev s)).

(** [s.strip(set)] *)
Definition strip_chars (set s : string) : string :=
  rstrip_chars set (lstrip_chars set s).

(** [s.replace(c, r)] for single characters *)
Fixpoint replace_char (c r : ascii) (s : string) : string :=
  match s with
  | EmptyString => EmptyString
  | String a s' =>
      String (if Ascii.eqb a c then r else a) (replace_char c r s')
  end.

(** The double quote *)
Definition double_quote : ascii := ascii_of_nat 34.

(** [os.path.dirname(p)] *)
Definition dirname (p : string) : string :=
  let i := rfind "/" p + 1 in
  let head := slice p 0 i in
  if negb (Str.eqb head "")
     && negb (forallb (fun c => Ascii.eqb c "/") (chars head))
  then rstrip_chars "/" head
  else head.

End Py.

(** ** Regular expressions of the version detector

    [VersionDetector] builds its patterns from the configured suffix
    format by textual replacement: the placeholder [{number}] becomes
    [\d+] (or the group [(\d+)]), every dot is escaped, and
    [_get_base_name] appends [$]. For a format whose text outside the
    placeholder contains no regular-expression operator other than the dot,
    the resulting pattern is a sequence of the atoms below. *)

Module Re.

Inductive atom : Type :=
| Lit (c : ascii)   (** a literal character *)
| Digits            (** [\d+], greedy, capturing when written [(\d+)] *)
| End.              (** [$] *)

(** [fmt.replace("{number}", r"(\d+)").replace(".", r"\.")]; [skip]
    counts the characters of a placeholder still to pass over. *)
Fixpoint compile_from (skip : nat) (fmt : string) : list atom :=
  match fmt with
  | EmptyString => []
  | String c fmt' =>
      match skip with
      | S k => compile_from k fmt'
      | O =>
          if Py.startswith fmt "{number}"
          then Digits :: compile_from 7 fmt'
          else Lit c :: compile_from 0 fmt'
      end
  end.

Definition compile (fmt : string) : list atom := compile_from 0 fmt.

(** [$] matches at the end of the string and before a final newline. *)
Definition at_end (s : string) : bool :=
  match s with
  | EmptyString => true
  | String c EmptyString => Ascii.eqb c "010"
  | _ => false
  end.

(** Match [p] at the start of [s], backtracking as Python does: the
    longest run of digits is tried first. The result is the list of
    captured groups and the text after the match. *)
Fixpoint match_here (p : list atom) (s : string)
  : option (list string * string) :=
  match p with
  | [] => Some ([], s)
  | Lit c :: p' =>
      match s with
      | String a s' => if Ascii.eqb a c then match_here p' s' else None
      | EmptyString => None
      end
  | End :: p' => if at_end s then match_here p' s else None
  | Digits :: p' =>
      (fix digits (acc s : string) {struct s}
         : option (list string * string) :=
         match s with
         | String d s' =>
             if Py.isdigit d then
               let acc' := acc +:+ String d EmptyString in
               match digits acc' s' with
               | Some r => Some r
               | None =>
                   match match_here p' s' with
                   | Some (groups, rest) => Some (acc' :: groups, rest)
                   | None => None
                   end
               end
             else None
         | EmptyString => None
         end) EmptyString s
  end.

(** [re.search(p, s)]: the match at the leftmost position that has
    one, with the text before it. *)
Fixpoint search (p : list atom) (s : string)
  : option (string * list string * string) :=
  match match_here p s with
  | Some (groups, rest) => Some (EmptyString, groups, rest)
  | None =>
      match s with
      | EmptyString => None
      | String a s' =>
          match search p s' with
          | Some (before, groups, rest) => Some (String a before, groups, rest)
          | None => None
          end
      end
  end.

(** [re.sub(p + "$", "", s)]: every match is removed. A match of an
    end-anchored pattern leaves at most a final newline behind, which is
    scanned once more. *)
Definition sub_at_end (p : list atom) (s : string) : string :=
  match search (p ++ [End]) s with
  | None => s
  | Some (before, _, rest) =>
      match search (p ++ [End]) rest with
      | None => before +:+ rest
      | Some (before', _, rest') => before +:+ before' +:+ rest'
      end
  end.

End Re.

(** ** [core/version_detector.py] *)

Module VersionDetector.

(** [VersionDetectionConfig]; the threshold is a rational. *)
Record Config : Type := {
  enabled : bool;
  format : string;
  check_similar : bool;
  similarity_threshold : Q
}.

(** The defaults of [config.py] *)
Definition default_config : Config := {|
  enabled := true;
  format := ".v{number}";
  check_similar := true;
  similarity_threshold := 9 # 10
|}.

Section Detector.

(** [difflib.SequenceMatcher(None, a, b).ratio()], a function of the
    Python standard library *)
Variable ratio : string -> string -> Q.

Variable config : Config.

(** [format.replace("{number}", text)] *)
Fixpoint render_from (skip : nat) (fmt text : string) : string :=
  match fmt with
  | EmptyString => EmptyString
  | String c fmt' =>
      match skip with
      | S k => render_from k fmt' text
      | O =>
          if Py.startswith fmt "{number}"
          then text +:+ render_from 7 fmt' text
          else String c (render_from 0 fmt' text)
      end
  end.

Definition _get_base_name (filename : string) : string :=
  (* Remove extension *)
  let name := Py.path_stem filename in
  (* Remove version suffix if present *)
  let version_pattern := Re.compile (format config) in
  let name := Re.sub_at_end version_pattern name in
  Py.strip name.

Definition _calculate_similarity (str1 str2 : string) : Q :=
  ratio (Py.lower str1) (Py.lower str2).

Fixpoint _find_matches_loop (base_name : string)
         (existing_files : list string) : list string :=
  match existing_files with
  | [] => []
  | existing_file :: rest =>
      let existing_base_name := _get_base_name existing_file in
      (* Check for exact match (ignoring version suffix) *)
      if Str.eqb (Py.lower base_name) (Py.lower existing_base_name)
      then existing_file :: _find_matches_loop base_name rest
      (* Check for similar match if enabled *)
      else if check_similar config
              && Qle_bool (similarity_threshold config)
                   (_calculate_similarity base_name existing_base_name)
      then existing_file :: _find_matches_loop base_name rest
      else _find_matches_loop base_name rest
  end.

Definition _find_matches (filename : string)
           (existing_files : list string) : list string :=
  _find_matches_loop (_get_base_name filename) existing_files.

Definition _extract_version_number (filename : string) : Z :=
  let pattern := Re.compile (format config) in
  match Re.search pattern filename with
  | Some (_, group1 :: _, _) => Py.int_of_digits group1
  | Some (_, [], _) => 1   (* IndexError, passed over *)
  | None => 1              (* no version suffix found, assume version 1 *)
  end.

Definition _get_highest_version (filename : string)
           (matches : list string) : Z :=
  fold_left
    (fun highest m =>
       let version := _extract_version_number m in
       if highest <? version then version else highest)
    matches 0.

Definition _add_version_suffix (filename : string) (version : Z)
  : string :=
  let '(name, ext) := Py.splitext filename in
  let version_suffix :=
    render_from 0 (format config) (Py.str_of_int version) in
  name +:+ version_suffix +:+ ext.

(** [detect_version]; [existing_files] is what [_list_directory]
    returned for the target directory (the empty list when the
    directory is missing or cannot be read). *)
Definition detect_version (filename : string)
           (existing_files : list string) : string * Z :=
  if negb (enabled config) then (filename, 1)
  else
    let matches := _find_matches filename existing_files in
    match matches with
    | [] => (filename, 1)
    | _ =>
        let highest_version := _get_highest_version filename matches in
        let next_version := highest_version + 1 in
        let versioned_filename :=
          _add_version_suffix filename next_version in
        (versioned_filename, next_version)
    end.

End Detector.

(** The call of [detect_version] as its caller sees it. Inside its [try]
    the libraries can refuse what they are handed - [re] a pattern built
    from a format that is no regular expression, for one - and the handler
    turns whatever is raised into [VersionDetectionError];
    [library_error] is the text of such an exception, if one is raised.
    With detection disabled the function returns before the [try]. *)
Definition detect_version_call (library_error : option string)
           (ratio : string -> string -> Q) (config : Config)
           (filename : string) (existing_files : list string)
  : result (string * Z) :=
  if negb (enabled config) then Ok (filename, 1)
  else
    match library_error with
    | Some msg =>
        Raise (VersionDetectionError
                 ("Error detecting version for " +:+ filename +:+ ": "
                    +:+ msg))
    | None => Ok (detect_version ratio config filename existing_files)
    end.

End VersionDetector.

(** ** The file system

    A path is absent, a directory, or a regular file of some size. *)

Inductive file_state : Type :=
| Absent
| Directory (size : Z)
| Regular (size : Z).

(** [os.path.exists] *)
Definition os_path_exists (st : file_state) : bool :=
  match st with Absent => false | _ => true end.

(** [os.path.isfile] *)
Definition os_path_isfile (st : file_state) : bool :=
  match st with Regular _ => true | _ => false end.

(** [os.path.getsize], which raises on a missing path *)
Definition os_path_getsize (path : string) (st : file_state) : result Z :=
  match st with
  | Absent => Raise (FileNotFoundError path)
  | Directory n | Regular n => Ok n
  end.

(** [time.sleep] for a whole number of seconds. The interval is first
    converted to nanoseconds in 64 bits, which raises [OverflowError]
    when it does not fit; a negative interval then raises
    [ValueError]. *)
Definition time_sleep (seconds : Z) : result unit :=
  if (seconds <? - 9223372036) || (9223372036 <? seconds)
  then Raise (OverflowError "timestamp too large to convert to C _PyTime_t")
  else if seconds <? 0
  then Raise (ValueError "sleep length must be non-negative")
  else Ok tt.

(** ** [watcher/validator.py] and [utils/helpers.py] *)

Module FileValidator.

(** [WatcherConfig] *)
Record Config : Type := {
  min_file_size_mb : Z;
  stable_time_seconds : Z;
  supported_extensions : list string;
  exclude_patterns : list string
}.

Definition default_config : Config := {|
  min_file_size_mb := 500;
  stable_time_seconds := 30;
  supported_extensions :=
    [".mkv"; ".mp4"; ".avi"; ".m4v"; ".mov"; ".wmv"; ".flv"];
  exclude_patterns := ["*.part"; "*.tmp"; "*.downloading"]
|}.

(** [helpers.is_video_file] *)
Definition is_video_file (file_path : string)
           (supported_extensions : list string) : bool :=
  let ext := Py.lower (Py.path_suffix file_path) in
  existsb (Str.eqb ext) (map Py.lower supported_extensions).

Section Validator.

Variable config : Config.

(** The watched path changes while it is validated: [world k] is the
    state each path has at the [k]-th system call of
    [validate_file] (0: [exists], 1: [isfile], 2: [getsize],
    3 and 4: the two samples of [_is_file_stable], the wait lying
    between them). *)
Variable world : nat -> string -> file_state.

Definition min_file_size_bytes : Z :=
  min_file_size_mb config * 1024 * 1024.

Fixpoint _matches_exclude_loop (filename : string)
         (patterns : list string) : bool :=
  match patterns with
  | [] => false
  | pattern :: rest =>
      (* Simple wildcard matching *)
      if Py.startswith pattern "*"
         && Py.endswith filename (Py.slice_from pattern 1)
      then true
      else if Py.endswith pattern "*"
              && Py.startswith filename (Py.drop_last pattern)
      then true
      else if Str.eqb pattern filename then true
      else _matches_exclude_loop filename rest
  end.

Definition _matches_exclude_pattern (file_path : string) : bool :=
  let filename := Py.basename file_path in
  _matches_exclude_loop filename (exclude_patterns config).

(** [_is_file_stable]: its handler catches [FileNotFoundError] and
    [OSError] only, so what [time.sleep] raises leaves the function. *)
Definition _is_file_stable (file_path : string) : result bool :=
  (* Get initial size *)
  match os_path_getsize file_path (world 3%nat file_path) with
  | Raise _ => Ok false
  | Ok initial_size =>
      (* Wait for configured duration *)
      match time_sleep (stable_time_seconds config) with
      | Raise e => Raise e
      | Ok _ =>
          (* Check size again *)
          match os_path_getsize file_path (world 4%nat file_path) with
          | Raise _ => Ok false
          | Ok final_size => Ok (initial_size =? final_size)
          end
      end
  end.

Definition validate_file (file_path : string) : result bool :=
  (* Check if file exists *)
  if negb (os_path_exists (world 0%nat file_path)) then Ok false
  (* Check if it's a file (not directory) *)
  else if negb (os_path_isfile (world 1%nat file_path)) then Ok false
  (* Check if file matches exclude patterns *)
  else if _matches_exclude_pattern file_path then Ok false
  (* Check if supported video format *)
  else if negb (is_video_file file_path (supported_extensions config))
  then Ok false
  else
    (* Check file size *)
    match os_path_getsize file_path (world 2%nat file_path) with
    | Raise e =>
        Raise (FileValidationError
                 ("Failed to validate file: " +:+ exn_str e))
    | Ok file_size =>
        if file_size <? min_file_size_bytes then Ok false
        else
          (* Check if file is stable (not being written) *)
          match _is_file_stable file_path with
          | Raise e =>
              Raise (FileValidationError
                       ("Failed to validate file: " +:+ exn_str e))
          | Ok stable => if negb stable then Ok false else Ok true
          end
    end.

(** The checks that precede the size sampling *)
Definition first_checks (file_path : string) : bool :=
  os_path_exists (world 0%nat file_path)
  && os_path_isfile (world 1%nat file_path)
  && negb (_matches_exclude_pattern file_path)
  && is_video_file file_path (supported_extensions config).

(** The size seen at system call [k], if the path is there *)
Definition size_at (k : nat) (file_path : string) : option Z :=
  match world k file_path with
  | Absent => None
  | Directory n | Regular n => Some n
  end.


(** Some check of [validate_file] fails, or the file is missing at one
    of its system calls. *)
Definition some_check_fails (file_path : string) : Prop :=
  (exists k, (k <= 4)%nat /\ world k file_path = Absent)
  \/ os_path_isfile (world 1%nat file_path) = false
  \/ _matches_exclude_pattern file_path = true
  \/ is_video_file file_path (supported_extensions config) = false
  \/ (exists n, size_at 2 file_path = Some n
                /\ n < min_file_size_bytes)
  \/ (exists n m, size_at 3 file_path = Some n
                  /\ size_at 4 file_path = Some m /\ n <> m).

End Validator.

End FileValidator.

(** ** [core/file_copier.py] *)

Module FileCopier.

(** [NetworkShareConfig] *)
Record Config : Type := {
  mount_path : string;
  target_folder : string;
  verify_mount : bool
}.

(** What the operating system does with one [_stream_copy]. *)
Inductive stream_outcome : Type :=
| OpenFails (error : string)
    (** an [open] raised [error]: nothing is written *)
| WriteFails (written : Z) (error : string)
    (** the temp file holds [written] bytes, then [error] is raised *)
| Completes (written : Z).  (** the stream ended with [written] bytes copied *)

(** The faults of one attempt of the retry loop. *)
Record attempt_env : Type := {
  stream : stream_outcome;
  rename_error : option string;   (** the error of [os.rename], if any *)
  remove_fails : bool
}.

(** The faults of one call of [copy_file]. *)
Record Env : Type := {
  mount_accessible : bool;   (** [helpers.is_mount_accessible] *)
  mkdir_error : option string;
    (** the error of [helpers.ensure_directory], if any *)
  attempt_faults : Z -> attempt_env
}.

(** What the engine did, in order: [Attempt n files] records the files
    present when attempt [n] starts, [Verify passed] the answer of
    [_verify_copy], [Sleep seconds] a wait before the next attempt. *)
Inductive event : Type :=
| Attempt (n : Z) (files : gmap string Z)
| Verify (passed : bool)
| Sleep (seconds : Z).

Definition max_retries : Z := 3.

Definition attempts_of (trace : list event) : list Z :=
  omap (fun ev => match ev with Attempt n _ => Some n | _ => None end) trace.

Definition verifications_of (trace : list event) : list bool :=
  omap (fun ev => match ev with Verify b => Some b | _ => None end) trace.

Definition sleeps_of (trace : list event) : list Z :=
  omap (fun ev => match ev with Sleep n => Some n | _ => None end) trace.

Section Copier.

Variable config : Config.
Variable env : Env.

(** The regular files, by path, with their sizes. *)
Implicit Type files : gmap string Z.

Definition _stream_copy (faults : attempt_env) files
           (source_path dest_path : string)
  : gmap string Z * result unit :=
  match files !! source_path with
  | None =>
      (files,
       Raise (FileCopyError
                ("Stream copy failed: "
                   +:+ exn_str (FileNotFoundError source_path))))
  | Some _ =>
      match stream faults with
      | OpenFails error =>
          (files, Raise (FileCopyError ("Stream copy failed: " +:+ error)))
      | WriteFails written error =>
          (<[dest_path := written]> files,
           Raise (FileCopyError ("Stream copy failed: " +:+ error)))
      | Completes written => (<[dest_path := written]> files, Ok tt)
      end
  end.

Definition _verify_copy files (source_path dest_path : string) : bool :=
  match files !! source_path, files !! dest_path with
  | Some source_size, Some dest_size => source_size =? dest_size
  | _, _ => false
  end.

(** [os.rename(src, dst)] *)
Definition os_rename (faults : attempt_env) files (src dst : string)
  : gmap string Z * result unit :=
  match files !! src with
  | Some size =>
      match rename_error faults with
      | Some error => (files, Raise (OSError error))
      | None => (<[dst := size]> (delete src files), Ok tt)
      end
  | None => (files, Raise (FileNotFoundError src))
  end.

(** The body of the inner [try] *)
Definition try_copy (faults : attempt_env) files
           (source_path temp_path dest_path : string)
  : gmap string Z * result string * list event :=
  (* Copy to temp file *)
  match _stream_copy faults files source_path temp_path with
  | (files1, Raise e) => (files1, Raise e, [])
  | (files1, Ok _) =>
      (* Verify copy *)
      if negb (_verify_copy files1 source_path temp_path)
      then (files1, Raise (FileCopyError "File verification failed"),
            [Verify false])
      else
        (* Rename temp to final *)
        match os_rename faults files1 temp_path dest_path with
        | (files2, Raise e) => (files2, Raise e, [Verify true])
        | (files2, Ok _) => (files2, Ok dest_path, [Verify true])
        end
  end.

(** The clean-up of the inner [except]: a failing [os.remove] is
    passed over. *)
Definition clean_up (faults : attempt_env) files (temp_path : string)
  : gmap string Z :=
  match files !! temp_path with
  | Some _ => if remove_fails faults then files else delete temp_path files
  | None => files
  end.

(** [for attempt in range(max_retries)], over the attempts left *)
Fixpoint retry_loop (attempts : list Z) files
         (source_path temp_path dest_path : string)
  : gmap string Z * result string * list event :=
  match attempts with
  | [] => (files, Raise (FileCopyError "All copy attempts failed"), [])
  | attempt :: rest =>
      let faults := attempt_faults env attempt in
      match try_copy faults files source_path temp_path dest_path with
      | (files1, Ok path, events) =>
          (files1, Ok path, Attempt attempt files :: events)
      | (files1, Raise e, events) =>
          (* Clean up temp file *)
          let files2 := clean_up faults files1 temp_path in
          if attempt =? max_retries - 1
          then (files2, Raise e, Attempt attempt files :: events)
          else
            (* Wait before retry: exponential backoff *)
            let '(files3, r, trace) :=
              retry_loop rest files2 source_path temp_path dest_path in
            (files3, r,
             Attempt attempt files :: events
               ++ Sleep (2 ^ attempt) :: trace)
      end
  end.

Definition dest_dir : string :=
  Py.join (mount_path config) (target_folder config).

Definition dest_path_of (filename : string) : string :=
  Py.join dest_dir filename.

Definition temp_path_of (filename : string) : string :=
  dest_path_of filename +:+ ".tmp".

Definition range (n : Z) : list Z :=
  map Z.of_nat (seq 0 (Z.to_nat n)).

Definition copy_file files (source_path filename : string)
  : gmap string Z * result string * list event :=
  let wrap (e : exn) :=
    FileCopyError
      ("Error copying file " +:+ source_path +:+ ": " +:+ exn_str e) in
  (* Verify network share is accessible *)
  if verify_mount config && negb (mount_accessible env)
  then (files,
        Raise (NetworkShareError
                 ("Network share not accessible: " +:+ mount_path config)),
        [])
  else
    (* Construct destination path *)
    match mkdir_error env with
    | Some error => (files, Raise (wrap (OSError error)), [])
    | None =>
        let dest_path := dest_path_of filename in
        let temp_path := temp_path_of filename in
        (* Get source file size *)
        match files !! source_path with
        | None => (files, Raise (wrap (FileNotFoundError source_path)), [])
        | Some source_size =>
            (* Copy with retries *)
            match retry_loop (range max_retries) files
                             source_path temp_path dest_path with
            | (files', Ok path, trace) => (files', Ok path, trace)
            | (files', Raise e, trace) => (files', Raise (wrap e), trace)
            end
        end
    end.

(** [delete_source] *)
Definition delete_source (remove_fails : bool) files (source_path : string)
  : gmap string Z * bool :=
  match files !! source_path with
  | Some _ =>
      if remove_fails then (files, false)
      else (delete source_path files, true)
  | None => (files, false)
  end.

End Copier.

(** *** The loop of [_stream_copy] on the bytes

    The bytes of the source as they are when it is read, and
    [source_size] as [os.path.getsize] reported it before the files were
    opened. No call of the system fails here; what remains is the
    arithmetic of the loop. *)

(** [source_file.read(n)]: the next [n] bytes, or what is left; a
    negative [n] reads to the end. The second component is what remains
    to be read. *)
Definition read (n : Z) (data : list Byte.byte)
  : list Byte.byte * list Byte.byte :=
  if n <? 0 then (data, [])
  else (take (Z.to_nat n) data, drop (Z.to_nat n) data).

(** The [while True] loop, with [fuel] bounding the iterations. The
    result holds what was written to the destination, and the number of
    bytes copied or the exception that left the loop. The progress, a
    quotient by [source_size], is computed at every chunk. *)
Fixpoint stream_loop (fuel : nat) (chunk_size source_size : Z)
         (source_file dest_file : list Byte.byte) (bytes_copied : Z)
  : option (list Byte.byte * result Z) :=
  match fuel with
  | O => None
  | S fuel' =>
      let '(chunk, rest) := read chunk_size source_file in
      match chunk with
      | [] => Some (dest_file, Ok bytes_copied)
      | _ :: _ =>
          let dest_file := dest_file ++ chunk in
          let bytes_copied := bytes_copied + Z.of_nat (length chunk) in
          (* Log progress *)
          if source_size =? 0
          then Some (dest_file,
                     Raise (FileCopyError
                              "Stream copy failed: division by zero"))
          else stream_loop fuel' chunk_size source_size rest dest_file
                           bytes_copied
      end
  end.

(** [_stream_copy] on the bytes: the destination is opened empty. *)
Definition _stream_copy_bytes (fuel : nat) (chunk_size source_size : Z)
           (source : list Byte.byte)
  : option (list Byte.byte * result Z) :=
  stream_loop fuel chunk_size source_size source [] 0.

(** [self.chunk_size], one megabyte *)
Definition chunk_size : Z := 1024 * 1024.

End FileCopier.

(** ** [models.py] and the record store *)

Module Status.
(** The values the check constraint of [pending_movies.status] admits *)
Inductive t : Type :=
| pending | approved | rejected | processing | completed | failed.

Definition str (s : t) : string :=
  match s with
  | pending => "pending" | approved => "approved" | rejected => "rejected"
  | processing => "processing" | completed => "completed"
  | failed => "failed"
  end.

Definition eqb (a b : t) : bool := Str.eqb (str a) (str b).
(** The status a text names, if the check constraint admits it *)
Definition of_str (s : string) : option t :=
  List.find (fun v => Str.eqb (str v) s)
            [pending; approved; rejected; processing; completed; failed].

End Status.

Module Action.
(** The values the check constraint of [processed_movies.action] admits *)
Inductive t : Type := approved | rejected.
End Action.

Module PendingMovie.
Record t : Type := {
  id : Z;
  original_path : string;
  original_filename : string;
  file_size : Z;
  detected_at : Z;
  status : Status.t;
  error_message : option string;
  (** the JSON object [{"extension": .., "modified_time": ..}] *)
  metadata : option (string * Z)
}.

Definition with_status (s : Status.t) (m : t) : t :=
  {| id := id m; original_path := original_path m;
     original_filename := original_filename m; file_size := file_size m;
     detected_at := detected_at m; status := s;
     error_message := error_message m; metadata := metadata m |}.

Definition with_error (msg : string) (m : t) : t :=
  {| id := id m; original_path := original_path m;
     original_filename := original_filename m; file_size := file_size m;
     detected_at := detected_at m; status := status m;
     error_message := Some msg; metadata := metadata m |}.

(** The names the body of the class [PendingMovie] gives to its
    attributes; the names it inherits hold no [file_metadata] either. *)
Definition attributes : list string :=
  ["__tablename__"; "id"; "original_path"; "original_filename";
   "file_size"; "detected_at"; "status"; "error_message"; "metadata";
   "__table_args__"; "__repr__"; "to_dict"].

(** The constructor of a declarative class takes keywords that name
    attributes of the class; for the first one that does not it raises
    [TypeError]. *)
Definition check_keywords (keywords : list string) : result unit :=
  match List.find (fun k => negb (existsb (Str.eqb k) attributes))
                  keywords with
  | Some k =>
      Raise (TypeError
               ("'" +:+ k
                    +:+ "' is an invalid keyword argument for PendingMovie"))
  | None => Ok tt
  end.
End PendingMovie.

Module ProcessedMovie.
Record t : Type := {
  id : Z;
  original_path : string;
  original_filename : string;
  final_path : option string;
  final_filename : option string;
  file_size : Z;
  detected_at : option Z;
  processed_at : Z;
  action : Action.t;
  version_number : option Z;
  mnamer_output : option string;
  notes : option string
}.
End ProcessedMovie.

Module Store.

(** The two tables, rows in insertion order *)
Record t : Type := {
  pending_movies : list PendingMovie.t;
  processed_movies : list ProcessedMovie.t
}.

Definition empty : t := {| pending_movies := []; processed_movies := [] |}.

(** The next integer primary key: one more than the largest in use *)
Definition next_id (ids : list Z) : Z := fold_right Z.max 0 ids + 1.

(** [session.query(PendingMovie).filter_by(id=movie_id).first()] *)
Definition pending_by_id (st : t) (movie_id : Z) : option PendingMovie.t :=
  List.find (fun m => PendingMovie.id m =? movie_id) (pending_movies st).

(** [session.query(PendingMovie).filter_by(original_path=path).first()] *)
Definition pending_by_path (st : t) (path : string)
  : option PendingMovie.t :=
  List.find (fun m => Str.eqb (PendingMovie.original_path m) path)
            (pending_movies st).

(** [session.add(pending_movie); session.commit(); session.refresh(..)]:
    the store assigns the key and enforces the uniqueness of
    [original_path]. *)
Definition add_pending (st : t) (row : PendingMovie.t)
  : result (t * PendingMovie.t) :=
  match pending_by_path st (PendingMovie.original_path row) with
  | Some _ =>
      Raise (IntegrityError
               "UNIQUE constraint failed: pending_movies.original_path")
  | None =>
      let row' :=
        {| PendingMovie.id :=
             next_id (map PendingMovie.id (pending_movies st));
           PendingMovie.original_path := PendingMovie.original_path row;
           PendingMovie.original_filename :=
             PendingMovie.original_filename row;
           PendingMovie.file_size := PendingMovie.file_size row;
           PendingMovie.detected_at := PendingMovie.detected_at row;
           PendingMovie.status := PendingMovie.status row;
           PendingMovie.error_message := PendingMovie.error_message row;
           PendingMovie.metadata := PendingMovie.metadata row |} in
      Ok ({| pending_movies := pending_movies st ++ [row'];
             processed_movies := processed_movies st |}, row')
  end.

(** An attribute assignment on the row with key [movie_id], committed *)
Definition update_pending (st : t) (movie_id : Z)
           (f : PendingMovie.t -> PendingMovie.t) : t :=
  {| pending_movies :=
       map (fun m => if PendingMovie.id m =? movie_id then f m else m)
           (pending_movies st);
     processed_movies := processed_movies st |}.

(** [session.delete(movie)] *)
Definition delete_pending (st : t) (movie_id : Z) : t :=
  {| pending_movies :=
       List.filter (fun m => negb (PendingMovie.id m =? movie_id))
                   (pending_movies st);
     processed_movies := processed_movies st |}.

(** [session.add(processed)]: the store assigns the key and the column
    default of [version_number]. *)
Definition add_processed (st : t) (row : ProcessedMovie.t) : t :=
  let row' :=
    {| ProcessedMovie.id :=
         next_id (map ProcessedMovie.id (processed_movies st));
       ProcessedMovie.original_path := ProcessedMovie.original_path row;
       ProcessedMovie.original_filename :=
         ProcessedMovie.original_filename row;
       ProcessedMovie.final_path := ProcessedMovie.final_path row;
       ProcessedMovie.final_filename := ProcessedMovie.final_filename row;
       ProcessedMovie.file_size := ProcessedMovie.file_size row;
       ProcessedMovie.detected_at := ProcessedMovie.detected_at row;
       ProcessedMovie.processed_at := ProcessedMovie.processed_at row;
       ProcessedMovie.action := ProcessedMovie.action row;
       ProcessedMovie.version_number :=
         match ProcessedMovie.version_number row with
         | Some v => Some v
         | None => Some 1
         end;
       ProcessedMovie.mnamer_output := ProcessedMovie.mnamer_output row;
       ProcessedMovie.notes := ProcessedMovie.notes row |} in
  {| pending_movies := pending_movies st;
     processed_movies := processed_movies st ++ [row'] |}.

(** The uniqueness constraint on [pending_movies.original_path] *)
Definition unique_paths (st : t) : Prop :=
  NoDup (map PendingMovie.original_path (pending_movies st)).

(** The rows of [pending_movies] that track [path] *)
Definition tracking (st : t) (path : string) : list PendingMovie.t :=
  List.filter (fun m => Str.eqb (PendingMovie.original_path m) path)
              (pending_movies st).

(** [.order_by(column.desc())]: the rows with the largest key first; rows
    with equal keys are left in the order of the table, which SQL does
    not fix. *)
Fixpoint insert_desc {A : Type} (key : A -> Z) (x : A) (l : list A)
  : list A :=
  match l with
  | [] => [x]
  | y :: l' =>
      if key y <? key x then x :: l else y :: insert_desc key x l'
  end.

Definition order_by_desc {A : Type} (key : A -> Z) (l : list A) : list A :=
  fold_right (insert_desc key) [] l.

(** The filter [filter_by(status="pending")] *)
Definition is_pending (m : PendingMovie.t) : bool :=
  Status.eqb (PendingMovie.status m) Status.pending.

(** An SQLite INTEGER has 64 bits. *)
Definition fits_integer (n : Z) : bool :=
  (- 2 ^ 63 <=? n) && (n <? 2 ^ 63).

(** Binding a Python integer as a parameter of a statement: the driver
    raises [OverflowError] for one that does not fit, before the statement
    reaches the tables. *)
Definition bind_integer (n : Z) : result Z :=
  if fits_integer n then Ok n
  else Raise (OverflowError
                "Python int too large to convert to SQLite INTEGER").

(** How [str(e)] begins for the exception in which SQLAlchemy wraps an
    integrity error of the driver; the lines that follow, with the
    statement, its parameters and a link, are left out. *)
Definition integrity_error_str (msg : string) : string :=
  "(sqlite3.IntegrityError) " +:+ msg.

(** The primary key of [pending_movies]: the ids are distinct *)
Definition unique_ids (st : t) : Prop :=
  NoDup (map PendingMovie.id (pending_movies st)).

(** The primary key of [processed_movies] *)
Definition unique_history_ids (st : t) : Prop :=
  NoDup (map ProcessedMovie.id (processed_movies st)).

(** What the constraints of the two tables and the way keys are assigned
    guarantee: distinct positive ids in each table, and distinct source
    paths among the pending rows *)
Definition well_formed (st : t) : Prop :=
  unique_ids st
  /\ unique_paths st
  /\ Forall (fun m => 1 <= PendingMovie.id m) (pending_movies st)
  /\ unique_history_ids st
  /\ Forall (fun r => 1 <= ProcessedMovie.id r) (processed_movies st).

End Store.

(** ** [watcher/processor.py] *)

Module FileProcessor.

(** The dictionary [FileValidator.get_file_info] builds *)
Record file_info : Type := {
  path : string;
  filename : string;
  size : Z;
  extension : string;
  modified_time : Z
}.

(** The keywords [process_file] gives to the constructor of
    [PendingMovie]; the last one is not the name of the column, which is
    [metadata]. *)
Definition constructor_keywords : list string :=
  ["original_path"; "original_filename"; "file_size"; "status";
   "file_metadata"].

(** [process_file]; [now] is the clock behind the column default of
    [detected_at]. What the constructor raises is no [IntegrityError] and
    goes to the last handler. *)
Definition process_file (now : Z) (st : Store.t) (info : file_info)
  : Store.t * result (option PendingMovie.t) :=
  (* Check if file already exists in pending movies *)
  match Store.pending_by_path st (path info) with
  | Some existing => (st, Ok None)
  | None =>
      (* Create metadata JSON *)
      let metadata := (extension info, modified_time info) in
      (* Create new pending movie record *)
      match PendingMovie.check_keywords constructor_keywords with
      | Raise e =>
          (st, Raise (DatabaseError
                        ("Failed to add file to database: " +:+ exn_str e)))
      | Ok _ =>
          let pending_movie :=
            {| PendingMovie.id := 0;
               PendingMovie.original_path := path info;
               PendingMovie.original_filename := filename info;
               PendingMovie.file_size := size info;
               PendingMovie.detected_at := now;
               PendingMovie.status := Status.pending;
               PendingMovie.error_message := None;
               PendingMovie.metadata := Some metadata |} in
          match Store.add_pending st pending_movie with
          | Ok (st', row) => (st', Ok (Some row))
          | Raise (IntegrityError _) => (st, Ok None)
          | Raise e =>
              (st, Raise (DatabaseError
                            ("Failed to add file to database: "
                               +:+ exn_str e)))
          end
      end
  end.

(** [update_status]. The query binds [movie_id], which raises when the
    integer does not fit; a status text that the check constraint of the
    table refuses makes the commit fail. Both go to the handler, which
    raises [DatabaseError]; the session is rolled back. *)
Definition update_status (st : Store.t) (movie_id : Z) (status : string)
           (error_message : option string) : Store.t * result bool :=
  let failed (e : exn) :=
    Raise (DatabaseError
             ("Failed to update movie status: " +:+ exn_str e)) in
  match Store.bind_integer movie_id with
  | Raise e => (st, failed e)
  | Ok _ =>
      match Store.pending_by_id st movie_id with
      | None => (st, Ok false)
      | Some movie =>
          match Status.of_str status with
          | None =>
              (st, failed
                     (IntegrityError
                        (Store.integrity_error_str
                           "CHECK constraint failed: pending_movies_status_check")))
          | Some status' =>
              let set_error (m : PendingMovie.t) :=
                match error_message with
                | Some msg =>
                    if Str.eqb msg "" then m
                    else PendingMovie.with_error msg m
                | None => m
                end in
              (Store.update_pending st movie_id
                 (fun m => set_error (PendingMovie.with_status status' m)),
               Ok true)
          end
      end
  end.

(** [get_pending_movies]: the rows with status 'pending', the most
    recently detected first *)
Definition get_pending_movies (st : Store.t) : list PendingMovie.t :=
  Store.order_by_desc PendingMovie.detected_at
    (List.filter
       (fun m => Status.eqb (PendingMovie.status m) Status.pending)
       (Store.pending_movies st)).

End FileProcessor.

(** ** [core/renamer.py] *)

Module MovieRenamer.

(** What [subprocess.run] does with the mnamer command line *)
Inductive subprocess_outcome : Type :=
| TimeoutExpired
| ExecutableNotFound
| OtherFailure (msg : string)
| Completed (returncode : Z) (stdout stderr : string).

(** [MnamerConfig], the part that shows in the results *)
Record Config : Type := {
  executable_path : string
}.

Section Renamer.

Variable config : Config.

Variable run : string -> subprocess_outcome.

(** [_parse_mnamer_output], a function of the output and the path *)
Variable _parse_mnamer_output : string -> string -> option string.

Definition rename_movie (files : gmap string Z) (file_path : string)
  : result (option string * string) :=
  (* Validate file path exists and is a file *)
  match files !! file_path with
  | None =>
      Raise (MnamerError
               ("Error running mnamer: File does not exist: "
                  +:+ file_path))
  | Some _ =>
      match run file_path with
      | TimeoutExpired =>
          Raise (MnamerError ("mnamer timed out for file: " +:+ file_path))
      | ExecutableNotFound =>
          Raise (MnamerError
                   ("mnamer executable not found: "
                      +:+ executable_path config))
      | OtherFailure msg =>
          Raise (MnamerError ("Error running mnamer: " +:+ msg))
      | Completed returncode stdout stderr =>
          let output := stdout +:+ stderr in
          (* Check if mnamer was successful *)
          if returncode =? 0 then
            (* Parse output to get new filename *)
            match _parse_mnamer_output output file_path with
            | Some new_filename =>
                if Str.eqb new_filename "" then Ok (None, output)
                else Ok (Some new_filename, output)
            | None => Ok (None, output)
            end
          else Ok (None, output)
      end
  end.

End Renamer.

(** The file name a part of a line holds: the part is stripped of white
    space, then of double quotes, then of single quotes, and
    [os.path.basename] is taken. *)
Definition new_name_of (part : string) : string :=
  Py.basename
    (Py.strip_chars "'"
       (Py.strip_chars (String Py.double_quote EmptyString)
          (Py.strip part))).

(** The first loop of [_parse_mnamer_output]: the first line with an
    arrow. The arrow of one character, U+2192, lies outside the strings of
    this development. *)
Fixpoint first_arrow_line (lines : list string) : option string :=
  match lines with
  | [] => None
  | line :: rest =>
      if Py.contains line "->" then
        let parts := Py.split_str "->" line in
        if (2 <=? length parts)%nat
        then Some (new_name_of (List.last parts EmptyString))
        else first_arrow_line rest
      else first_arrow_line rest
  end.

(** The second loop: the first line that says "renamed to" *)
Fixpoint first_renamed_to_line (lines : list string) : option string :=
  match lines with
  | [] => None
  | line :: rest =>
      if Py.contains (Py.lower line) "renamed to" then
        let parts := Py.split_str "renamed to" (Py.lower line) in
        if (2 <=? length parts)%nat
        then Some (new_name_of (List.last parts EmptyString))
        else first_renamed_to_line rest
      else first_renamed_to_line rest
  end.

Definition _parse_mnamer_output (output original_path : string)
  : option string :=
  let lines := Py.split "010" output in
  match first_arrow_line lines with
  | Some new_name => Some new_name
  | None => first_renamed_to_line lines
  end.

(** [get_renamed_path] *)
Definition get_renamed_path (original_path new_filename : string)
  : string :=
  let directory := Py.dirname original_path in
  Py.join directory new_filename.

End MovieRenamer.

(** ** [core/movie_manager.py] *)

Module MovieManager.

(** [Config], the parts the manager reads *)
Record Config : Type := {
  network_share : FileCopier.Config;
  mnamer : MovieRenamer.Config;
  version_detection : VersionDetector.Config
}.

(** The collaborators of one call: the external renamer, the similarity
    ratio, what the libraries raise inside [detect_version], the faults
    of the transfer, the clock. *)
Record Env : Type := {
  run : string -> MovieRenamer.subprocess_outcome;
  _parse_mnamer_output : string -> string -> option string;
  ratio : string -> string -> Q;
  detection_error : option string;
  listdir_fails : bool;
  copier : FileCopier.Env;
  source_remove_fails : bool;
  utcnow : Z
}.

(** The dictionary a transition returns *)
Inductive outcome : Type :=
| Approved (original_filename final_filename final_path : string)
           (version_number : Z)
| Rejected (original_filename : string)
| Failure (error : string).

(** The [success] entry of the dictionary *)
Definition success (o : outcome) : bool :=
  match o with Failure _ => false | _ => true end.

Definition not_found (movie_id : Z) : string :=
  "Movie with ID " +:+ Py.str_of_int movie_id +:+ " not found".

Definition not_pending (s : Status.t) : string :=
  "Movie is not pending (status: " +:+ Status.str s +:+ ")".

(** The row with the marks of a failed approval *)
Definition failed_with (msg : string) (m : PendingMovie.t)
  : PendingMovie.t :=
  PendingMovie.with_error msg (PendingMovie.with_status Status.failed m).

(** The history record of an approval, before the store assigns its key *)
Definition approved_row (env : Env) (pending_movie : PendingMovie.t)
           (final_filename final_path : string) (version_number : Z)
           (mnamer_output : string) : ProcessedMovie.t :=
  {| ProcessedMovie.id := 0;
     ProcessedMovie.original_path :=
       PendingMovie.original_path pending_movie;
     ProcessedMovie.original_filename :=
       PendingMovie.original_filename pending_movie;
     ProcessedMovie.final_path := Some final_path;
     ProcessedMovie.final_filename := Some final_filename;
     ProcessedMovie.file_size := PendingMovie.file_size pending_movie;
     ProcessedMovie.detected_at :=
       Some (PendingMovie.detected_at pending_movie);
     ProcessedMovie.processed_at := utcnow env;
     ProcessedMovie.action := Action.approved;
     ProcessedMovie.version_number := Some version_number;
     ProcessedMovie.mnamer_output := Some mnamer_output;
     ProcessedMovie.notes := None |}.

(** The history record of a rejection, before the store assigns its key *)
Definition rejected_row (env : Env) (movie : PendingMovie.t)
  : ProcessedMovie.t :=
  {| ProcessedMovie.id := 0;
     ProcessedMovie.original_path := PendingMovie.original_path movie;
     ProcessedMovie.original_filename :=
       PendingMovie.original_filename movie;
     ProcessedMovie.final_path := None;
     ProcessedMovie.final_filename := None;
     ProcessedMovie.file_size := PendingMovie.file_size movie;
     ProcessedMovie.detected_at := Some (PendingMovie.detected_at movie);
     ProcessedMovie.processed_at := utcnow env;
     ProcessedMovie.action := Action.rejected;
     ProcessedMovie.version_number := None;
     ProcessedMovie.mnamer_output := None;
     ProcessedMovie.notes := Some "Rejected by user" |}.

Section Manager.

Variable config : Config.

Definition target_dir : string :=
  FileCopier.dest_dir (network_share config).

(** [VersionDetector._list_directory]: the names of the regular files
    directly inside [directory]; the empty list when the directory
    cannot be read. *)
Definition _list_directory (fails : bool) (files : gmap string Z)
           (directory : string) : list string :=
  if fails then []
  else
    let prefix := Py.join directory "" in
    omap (fun entry : string * Z =>
            let full_path := fst entry in
            let item := Py.slice_from full_path (Py.len prefix) in
            if Py.startswith full_path prefix
               && negb (Str.eqb item "")
               && (Py.rfind "/" item <? 0)
            then Some item else None)
         (map_to_list files).

(** The first transaction of [approve_movie]: the guard and the move
    to [processing], for a [movie_id] that the driver can bind into the
    query; [approve_movie_call] below adds the case of one that it
    cannot. *)
Definition approve_begin (st : Store.t) (movie_id : Z)
  : Store.t * (outcome + PendingMovie.t) :=
  (* Get pending movie *)
  match Store.pending_by_id st movie_id with
  | None => (st, inl (Failure (not_found movie_id)))
  | Some movie =>
      if negb (Status.eqb (PendingMovie.status movie) Status.pending)
      then (st, inl (Failure (not_pending (PendingMovie.status movie))))
      else
        (* Update status to processing *)
        (Store.update_pending st movie_id
           (PendingMovie.with_status Status.processing),
         inr (PendingMovie.with_status Status.processing movie))
  end.

(** The handlers of [approve_movie]: the record is marked failed. *)
Definition mark_failed (st : Store.t) (movie_id : Z) (e : exn)
  : Store.t * outcome :=
  let st' :=
    Store.update_pending st movie_id
      (fun m => PendingMovie.with_error (exn_str e)
                  (PendingMovie.with_status Status.failed m)) in
  match e with
  | MnamerError _ | FileCopyError _ | NetworkShareError _ =>
      (st', Failure (exn_str e))
  | _ => (st', Failure ("Unexpected error: " +:+ exn_str e))
  end.

(** Step 4 of [approve_movie]: in one transaction the history record
    replaces the pending row, if that row is still there. The insert
    binds the version number, which raises when it does not fit; the
    session is then rolled back. *)
Definition record_approval (env : Env) (st : Store.t) (movie_id : Z)
           (versioned_filename final_path : string) (version_number : Z)
           (mnamer_output : string) : result Store.t :=
  match Store.pending_by_id st movie_id with
  | Some pending_movie =>
      (* Create processed record, remove from pending *)
      match Store.bind_integer version_number with
      | Raise e => Raise e
      | Ok _ =>
          Ok (Store.delete_pending
                (Store.add_processed st
                   (approved_row env pending_movie versioned_filename
                      final_path version_number mnamer_output))
                movie_id)
      end
  | None => Ok st
  end.

(** The rest of [approve_movie], after the first transaction. The last
    component counts the calls of [copy_file]. *)
Definition approve_finish (env : Env) (st : Store.t)
           (files : gmap string Z) (movie : PendingMovie.t)
           (movie_id : Z) (delete_source : bool)
  : Store.t * gmap string Z * outcome * nat :=
  (* Step 1: Run mnamer to get new filename *)
  match MovieRenamer.rename_movie (mnamer config) (run env)
          (_parse_mnamer_output env) files
          (PendingMovie.original_path movie) with
  | Raise e =>
      let '(st', o) := mark_failed st movie_id e in (st', files, o, 0%nat)
  | Ok (None, _) =>
      let '(st', o) :=
        mark_failed st movie_id
          (MnamerError "mnamer failed to generate new filename") in
      (st', files, o, 0%nat)
  | Ok (Some new_filename, mnamer_output) =>
      (* Step 2: Check for existing versions *)
      match VersionDetector.detect_version_call (detection_error env)
              (ratio env) (version_detection config) new_filename
              (_list_directory (listdir_fails env) files target_dir) with
      | Raise e =>
          let '(st', o) := mark_failed st movie_id e in
          (st', files, o, 0%nat)
      | Ok (versioned_filename, version_number) =>
          (* Step 3: Copy file to network share *)
          match FileCopier.copy_file (network_share config) (copier env)
                  files (PendingMovie.original_path movie)
                  versioned_filename with
          | (files1, Raise e, _) =>
              let '(st', o) := mark_failed st movie_id e in
              (st', files1, o, 1%nat)
          | (files1, Ok final_path, _) =>
              (* Step 4: Update database *)
              match record_approval env st movie_id versioned_filename
                      final_path version_number mnamer_output with
              | Raise e =>
                  let '(st', o) := mark_failed st movie_id e in
                  (st', files1, o, 1%nat)
              | Ok st1 =>
                  (* Step 5: Optionally delete source *)
                  let files2 :=
                    if delete_source
                    then fst (FileCopier.delete_source
                                (source_remove_fails env) files1
                                (PendingMovie.original_path movie))
                    else files1 in
                  (st1, files2,
                   Approved (PendingMovie.original_filename movie)
                            versioned_filename final_path version_number,
                   1%nat)
              end
          end
      end
  end.

Definition approve_movie (env : Env) (st : Store.t)
           (files : gmap string Z) (movie_id : Z) (delete_source : bool)
  : Store.t * gmap string Z * outcome * nat :=
  match approve_begin st movie_id with
  | (st', inl o) => (st', files, o, 0%nat)
  | (st', inr movie) =>
      approve_finish env st' files movie movie_id delete_source
  end.

(** A call of [approve_movie] with any Python integer. The query of the
    guard binds [movie_id] outside every [try]: an integer that does not
    fit makes the call raise before anything is read or written;
    [approve_begin] is the guard for an integer that fits. *)
Definition approve_movie_call (env : Env) (st : Store.t)
           (files : gmap string Z) (movie_id : Z) (delete_source : bool)
  : Store.t * gmap string Z * result (outcome * nat) :=
  match Store.bind_integer movie_id with
  | Raise e => (st, files, Raise e)
  | Ok _ =>
      let '(st', files', o, n) :=
        approve_movie env st files movie_id delete_source in
      (st', files', Ok (o, n))
  end.

Definition reject_movie (env : Env) (st : Store.t)
           (files : gmap string Z) (movie_id : Z) (delete_source : bool)
  : Store.t * gmap string Z * outcome :=
  (* Get pending movie *)
  match Store.pending_by_id st movie_id with
  | None => (st, files, Failure (not_found movie_id))
  | Some movie =>
      (* Create processed record *)
      let processed :=
        {| ProcessedMovie.id := 0;
           ProcessedMovie.original_path :=
             PendingMovie.original_path movie;
           ProcessedMovie.original_filename :=
             PendingMovie.original_filename movie;
           ProcessedMovie.final_path := None;
           ProcessedMovie.final_filename := None;
           ProcessedMovie.file_size := PendingMovie.file_size movie;
           ProcessedMovie.detected_at :=
             Some (PendingMovie.detected_at movie);
           ProcessedMovie.processed_at := utcnow env;
           ProcessedMovie.action := Action.rejected;
           ProcessedMovie.version_number := None;
           ProcessedMovie.mnamer_output := None;
           ProcessedMovie.notes := Some "Rejected by user" |} in
      let st1 :=
        Store.delete_pending (Store.add_processed st processed)
                             movie_id in
      (* Optionally delete source *)
      let files1 :=
        if delete_source
        then fst (FileCopier.delete_source (source_remove_fails env)
                    files (PendingMovie.original_path movie))
        else files in
      (st1, files1, Rejected (PendingMovie.original_filename movie))
  end.

(** Two approvals of the same id, one after the other. The result
    holds the final store and files, both dictionaries and the number
    of calls of [copy_file]. *)
Definition approve_twice (env1 env2 : Env) (st : Store.t)
           (files : gmap string Z) (movie_id : Z)
           (delete_source1 delete_source2 : bool)
  : Store.t * gmap string Z * outcome * outcome * nat :=
  let '(st1, files1, o1, n1) :=
    approve_movie env1 st files movie_id delete_source1 in
  let '(st2, files2, o2, n2) :=
    approve_movie env2 st1 files1 movie_id delete_source2 in
  (st2, files2, o1, o2, (n1 + n2)%nat).

(** Two approvals of the same id, the first transaction of the second
    falling between the first transaction of the first and its
    external calls. *)
Definition approve_twice_overlapping (env1 env2 : Env) (st : Store.t)
           (files : gmap string Z) (movie_id : Z)
           (delete_source1 delete_source2 : bool)
  : Store.t * gmap string Z * outcome * outcome * nat :=
  match approve_begin st movie_id with
  | (st1, inl o1) =>
      let '(st2, files2, o2, n2) :=
        approve_movie env2 st1 files movie_id delete_source2 in
      (st2, files2, o1, o2, n2)
  | (st1, inr movie1) =>
      match approve_begin st1 movie_id with
      | (st2, inl o2) =>
          let '(st3, files3, o1, n1) :=
            approve_finish env1 st2 files movie1 movie_id
                           delete_source1 in
          (st3, files3, o1, o2, n1)
      | (st2, inr movie2) =>
          let '(st3, files3, o1, n1) :=
            approve_finish env1 st2 files movie1 movie_id
                           delete_source1 in
          let '(st4, files4, o2, n2) :=
            approve_finish env2 st3 files3 movie2 movie_id
                           delete_source2 in
          (st4, files4, o1, o2, (n1 + n2)%nat)
      end
  end.

(** An approval whose record is rejected while it is [processing]: the
    rejection runs between the first transaction of the approval and its
    external calls. The result holds the final store and files, the
    dictionary of the approval, the dictionary of the rejection and the
    number of calls of [copy_file]. *)
Definition approve_rejected_meanwhile (env_approve env_reject : Env)
           (st : Store.t) (files : gmap string Z) (movie_id : Z)
           (delete_source : bool)
  : Store.t * gmap string Z * outcome * outcome * nat :=
  match approve_begin st movie_id with
  | (st1, inl o) =>
      let '(st2, files2, rejected) :=
        reject_movie env_reject st1 files movie_id false in
      (st2, files2, o, rejected, 0%nat)
  | (st1, inr movie) =>
      let '(st2, files2, rejected) :=
        reject_movie env_reject st1 files movie_id false in
      let '(st3, files3, approved, n) :=
        approve_finish env_approve st2 files2 movie movie_id
                       delete_source in
      (st3, files3, approved, rejected, n)
  end.

End Manager.

(** [get_pending_movies], before the rows are turned into dictionaries *)
Definition get_pending_movies (st : Store.t) : list PendingMovie.t :=
  Store.order_by_desc PendingMovie.detected_at
    (List.filter
       (fun m => Status.eqb (PendingMovie.status m) Status.pending)
       (Store.pending_movies st)).

(** The dictionary of [get_stats] *)
Record stats : Type := {
  stats_pending : nat;
  stats_approved : nat;
  stats_rejected : nat;
  stats_total_processed : nat
}.

Definition is_approved (r : ProcessedMovie.t) : bool :=
  match ProcessedMovie.action r with
  | Action.approved => true
  | Action.rejected => false
  end.

Definition get_stats (st : Store.t) : stats :=
  let pending_count :=
    length (List.filter
              (fun m => Status.eqb (PendingMovie.status m) Status.pending)
              (Store.pending_movies st)) in
  let approved_count :=
    length (List.filter is_approved (Store.processed_movies st)) in
  let rejected_count :=
    length (List.filter (fun r => negb (is_approved r))
                        (Store.processed_movies st)) in
  {| stats_pending := pending_count;
     stats_approved := approved_count;
     stats_rejected := rejected_count;
     stats_total_processed := approved_count + rejected_count |}.

(** The answers of the guard of [approve_movie] *)
Definition guard_failure (movie_id : Z) (o : outcome) : Prop :=
  o = Failure (not_found movie_id)
  \/ exists s, s <> Status.pending /\ o = Failure (not_pending s).

(** No approval of [movie_id] can start: the record is missing or not
    pending. *)
Definition blocked (st : Store.t) (movie_id : Z) : Prop :=
  Store.pending_by_id st movie_id = None
  \/ exists m, Store.pending_by_id st movie_id = Some m
               /\ PendingMovie.status m <> Status.pending.

(** The invariant of the history table *)
Definition terminal_ok (r : ProcessedMovie.t) : Prop :=
  match ProcessedMovie.action r with
  | Action.approved =>
      is_Some (ProcessedMovie.final_path r)
      /\ is_Some (ProcessedMovie.final_filename r)
      /\ exists v, ProcessedMovie.version_number r = Some v /\ 1 <= v
  | Action.rejected =>
      ProcessedMovie.final_path r = None
      /\ ProcessedMovie.final_filename r = None
  end.

End MovieManager.

(** ** [utils/helpers.py]: file names *)

Module Helpers.

(** The characters [sanitize_filename] replaces *)
Definition invalid_chars : string :=
  "<>:" +:+ String Py.double_quote "/\|?*".

Definition sanitize_filename (filename : string) : string :=
  (* Remove any path components to prevent directory traversal *)
  let filename := Py.basename filename in
  (* Replace invalid characters *)
  let filename :=
    fold_left (fun name char => Py.replace_char char "_" name)
              (Py.chars invalid_chars) filename in
  (* Remove leading/trailing spaces and dots *)
  let filename := Py.strip_chars "." (Py.strip filename) in
  (* Prevent empty filename or dangerous names *)
  if Str.eqb filename ""
     || existsb (Str.eqb filename) ["."; ".."; ""]
  then "sanitized_file"
  else filename.

End Helpers.

(** ** [watcher/file_watcher.py], with [FileValidator.get_file_info] *)

Module MovieFileHandler.

(** A file system event *)
Record event : Type := {
  is_directory : bool;
  src_path : string
}.

(** What [_process_file] did with a path *)
Inductive handled : Type :=
| Ignored                        (** a directory event *)
| Invalid                        (** validation failed *)
| NoInfo                         (** [get_file_info] returned [{}] *)
| Added (row : PendingMovie.t)   (** a new pending record *)
| AlreadyTracked                 (** [process_file] returned [None] *)
| Errored (e : exn).             (** an exception, logged *)

Section Handler.

Variable config : FileValidator.Config.

(** The states of the paths at the system calls of one handling: calls 0
    to 4 are those of [validate_file], call 5 is the [os.stat] of
    [get_file_info]. *)
Variable world : nat -> string -> file_state.

(** The modification times [os.stat] reports *)
Variable mtime : string -> Z.

(** The clock *)
Variable now : Z.

(** [FileValidator.get_file_info]: [None] stands for the empty
    dictionary. *)
Definition get_file_info (file_path : string)
  : option FileProcessor.file_info :=
  match world 5%nat file_path with
  | Absent => None
  | Directory size | Regular size =>
      Some {| FileProcessor.path := file_path;
              FileProcessor.filename := Py.basename file_path;
              FileProcessor.size := size;
              FileProcessor.extension := Py.path_suffix file_path;
              FileProcessor.modified_time := mtime file_path |}
  end.

Definition _process_file (st : Store.t) (file_path : string)
  : Store.t * handled :=
  (* Validate file *)
  match FileValidator.validate_file config world file_path with
  | Raise e => (st, Errored e)
  | Ok false => (st, Invalid)
  | Ok true =>
      (* Get file info *)
      match get_file_info file_path with
      | None => (st, NoInfo)
      | Some file_info =>
          (* Process file (add to database) *)
          match FileProcessor.process_file now st file_info with
          | (st', Ok (Some row)) => (st', Added row)
          | (st', Ok None) => (st', AlreadyTracked)
          | (st', Raise e) => (st', Errored e)
          end
      end
  end.

Definition on_created (st : Store.t) (ev : event) : Store.t * handled :=
  if is_directory ev then (st, Ignored)
  else _process_file st (src_path ev).

Definition on_modified (st : Store.t) (ev : event) : Store.t * handled :=
  if is_directory ev then (st, Ignored)
  else _process_file st (src_path ev).

End Handler.

End MovieFileHandler.

(** ** [web/routes/api.py]: the two actions *)

Module Api.

(** [schemas.ActionResponse] *)
Record ActionResponse : Type := {
  success : bool;
  message : option string;
  error : option string;
  data : option MovieManager.outcome
}.

Definition refused (text : string) : ActionResponse :=
  {| success := false; message := None; error := Some text; data := None |}.

(** The response of the approve endpoint to the dictionary of the
    manager; a dictionary without the key [final_filename] would raise
    [KeyError], which the endpoint answers with a fixed text. *)
Definition approve_response (result : MovieManager.outcome)
  : ActionResponse :=
  match result with
  | MovieManager.Approved _ final_filename _ _ =>
      {| success := true;
         message := Some ("Movie approved: " +:+ final_filename);
         error := None;
         data := Some result |}
  | MovieManager.Rejected _ => refused "Failed to approve movie"
  | MovieManager.Failure e => refused e
  end.

Definition reject_response (result : MovieManager.outcome)
  : ActionResponse :=
  match result with
  | MovieManager.Approved original_filename _ _ _
  | MovieManager.Rejected original_filename =>
      {| success := true;
         message := Some ("Movie rejected: " +:+ original_filename);
         error := None;
         data := Some result |}
  | MovieManager.Failure e => refused e
  end.

Definition approve_movie (config : MovieManager.Config)
           (env : MovieManager.Env) (st : Store.t)
           (files : gmap string Z) (movie_id : Z) (delete_source : bool)
  : Store.t * gmap string Z * ActionResponse :=
  (* Validate movie_id is positive *)
  if movie_id <=? 0 then (st, files, refused "Invalid movie ID")
  else
    let '(st', files', result, _) :=
      MovieManager.approve_movie config env st files movie_id
        delete_source in
    (st', files', approve_response result).

Definition reject_movie (env : MovieManager.Env) (st : Store.t)
           (files : gmap string Z) (movie_id : Z) (delete_source : bool)
  : Store.t * gmap string Z * ActionResponse :=
  (* Validate movie_id is positive *)
  if movie_id <=? 0 then (st, files, refused "Invalid movie ID")
  else
    let '(st', files', result) :=
      MovieManager.reject_movie env st files movie_id delete_source in
    (st', files', reject_response result).

End Api.

(** ** Scenarios

    Concrete configurations, environments and file systems on which the
    properties below are exercised. *)

Module Scenario.

Definition share : FileCopier.Config :=
  {| FileCopier.mount_path := "/mnt/share";
     FileCopier.target_folder := "Movies";
     FileCopier.verify_mount := true |}.

(** Every stream ends short of the source, so verification fails. *)
Definition short_copies (removals_fail : bool) : FileCopier.Env :=
  {| FileCopier.mount_accessible := true;
     FileCopier.mkdir_error := None;
     FileCopier.attempt_faults := fun _ =>
       {| FileCopier.stream := FileCopier.Completes 5;
          FileCopier.rename_error := None;
          FileCopier.remove_fails := removals_fail |} |}.

(** Nothing goes wrong. *)
Definition faultless (size : Z) : FileCopier.Env :=
  {| FileCopier.mount_accessible := true;
     FileCopier.mkdir_error := None;
     FileCopier.attempt_faults := fun _ =>
       {| FileCopier.stream := FileCopier.Completes size;
          FileCopier.rename_error := None;
          FileCopier.remove_fails := false |} |}.

(** A download of 10 bytes, and the same with the final name taken. *)
Definition download : gmap string Z := {[ "/dl/a.mkv" := 10 ]}.

Definition download_and_old_copy : gmap string Z :=
  <[ "/mnt/share/Movies/A.mkv" := 7 ]> download.

(** The download, and on the share a copy whose version number is the
    greatest that a 64-bit column can hold *)
Definition download_and_last_version : gmap string Z :=
  <[ "/mnt/share/Movies/A (2020).v9223372036854775807.mkv" := 7 ]> download.

(** A temp file left by an earlier run, the source being gone *)
Definition stale_temp : gmap string Z :=
  {[ "/mnt/share/Movies/A.mkv.tmp" := 3 ]}.

(** The first two attempts cannot open the files, the third goes well. *)
Definition third_time_lucky (size : Z) : FileCopier.Env :=
  {| FileCopier.mount_accessible := true;
     FileCopier.mkdir_error := None;
     FileCopier.attempt_faults := fun n =>
       {| FileCopier.stream :=
            if n <? 2 then FileCopier.OpenFails "[Errno 5] Input/output error"
            else FileCopier.Completes size;
          FileCopier.rename_error := None;
          FileCopier.remove_fails := false |} |}.

(** The share is not mounted. *)
Definition share_down : FileCopier.Env :=
  {| FileCopier.mount_accessible := false;
     FileCopier.mkdir_error := None;
     FileCopier.attempt_faults := fun _ =>
       {| FileCopier.stream := FileCopier.Completes 10;
          FileCopier.rename_error := None;
          FileCopier.remove_fails := false |} |}.

(** A file that is there for the first two checks and gone afterwards *)
Definition vanishing_world (k : nat) (path : string) : file_state :=
  if (k <? 2)%nat then Regular 1000000000 else Absent.

(** A store tracking one pending download *)
Definition one_pending : Store.t :=
  {| Store.pending_movies :=
       [ {| PendingMovie.id := 1;
            PendingMovie.original_path := "/dl/a.mkv";
            PendingMovie.original_filename := "a.mkv";
            PendingMovie.file_size := 10;
            PendingMovie.detected_at := 0;
            PendingMovie.status := Status.pending;
            PendingMovie.error_message := None;
            PendingMovie.metadata := Some (".mkv", 0) |} ];
     Store.processed_movies := [] |}.

Definition manager_config : MovieManager.Config :=
  {| MovieManager.network_share := share;
     MovieManager.mnamer := {| MovieRenamer.executable_path := "mnamer" |};
     MovieManager.version_detection := VersionDetector.default_config |}.

(** The renamer answers, or runs out of time. *)
Definition manager_env (renamer_times_out : bool) : MovieManager.Env :=
  {| MovieManager.run := fun _ =>
       if renamer_times_out then MovieRenamer.TimeoutExpired
       else MovieRenamer.Completed 0 "a.mkv -> A (2020).mkv" "";
     MovieManager._parse_mnamer_output := fun _ _ => Some "A (2020).mkv";
     MovieManager.ratio := fun _ _ => 0%Q;
     MovieManager.detection_error := None;
     MovieManager.listdir_fails := false;
     MovieManager.copier := faultless 10;
     MovieManager.source_remove_fails := false;
     MovieManager.utcnow := 100 |}.

Definition a_file : FileProcessor.file_info :=
  {| FileProcessor.path := "/dl/a.mkv";
     FileProcessor.filename := "a.mkv";
     FileProcessor.size := 10;
     FileProcessor.extension := ".mkv";
     FileProcessor.modified_time := 0 |}.


(** A file that disappears during the stability wait *)
Definition vanishing_late (k : nat) (path : string) : file_state :=
  if (k <? 4)%nat then Regular 1000000000 else Absent.

(** A finished download of about one gigabyte, and the event for it *)
Definition steady_world (k : nat) (path : string) : file_state :=
  Regular 1000000000.

Definition created : MovieFileHandler.event :=
  {| MovieFileHandler.is_directory := false;
     MovieFileHandler.src_path := "/dl/a.mkv" |}.

(** The renamer answers with a line that names a path, and the output is
    read by [_parse_mnamer_output]. *)
Definition mnamer_env : MovieManager.Env :=
  {| MovieManager.run := fun _ =>
       MovieRenamer.Completed 0 "a.mkv -> '/media/A (2020).mkv'" "";
     MovieManager._parse_mnamer_output :=
       MovieRenamer._parse_mnamer_output;
     MovieManager.ratio := fun _ _ => 0%Q;
     MovieManager.detection_error := None;
     MovieManager.listdir_fails := false;
     MovieManager.copier := faultless 10;
     MovieManager.source_remove_fails := false;
     MovieManager.utcnow := 100 |}.

(** Two lines of output: the first says "renamed to", the second has an
    arrow and a quoted path. *)
Definition mnamer_report : string :=
  "it was renamed to x.mkv"
    +:+ String "010" "a.mkv -> '/media/A (2020).mkv'".

End Scenario.

(** * Properties *)

(** ** Strings *)

Lemma str_eqb_refl (s : string) : Str.eqb s s = true.
Proof. apply Str.eqb_refl. Qed.

Lemma endswith_unfold (s p : string) :
  Py.endswith s p =
  if Str.eqb s p then true
  else match s with
       | EmptyString => false
       | String _ s' => Py.endswith s' p
       end.
Proof. destruct s; reflexivity. Qed.

Lemma endswith_empty (s : string) : Py.endswith s "" = true.
Proof.
  induction s as [|a s IH]; [reflexivity|].
  rewrite endswith_unfold. exact IH.
Qed.

Lemma endswith_app (a p : string) : Py.endswith (a +:+ p) p = true.
Proof.
  induction a as [|c a IH]; rewrite endswith_unfold.
  - change ("" +:+ p) with p. now rewrite str_eqb_refl.
  - change (String c a +:+ p) with (String c (a +:+ p)).
    destruct (Str.eqb _ p); [reflexivity|exact IH].
Qed.

Lemma str_chars (s : string) : Py.str (Py.chars s) = s.
Proof. apply Str.string_of_list_ascii_of_string. Qed.

Lemma str_app (l k : list ascii) : Py.str (l ++ k) = Py.str l +:+ Py.str k.
Proof.
  induction l as [|a l IH]; simpl; [reflexivity|].
  unfold Py.str in *. simpl. now rewrite IH.
Qed.

Lemma slice_split (p : string) (i : Z) :
  Py.slice p 0 i +:+ Py.slice_from p i = p.
Proof.
  unfold Py.slice, Py.slice_from.
  rewrite <- str_app, Z.sub_0_r. simpl drop at 1.
  now rewrite take_drop, str_chars.
Qed.

Lemma append_empty_r (s : string) : s +:+ "" = s.
Proof.
  induction s as [|a s IH]; [reflexivity|].
  change (String a s +:+ "") with (String a (s +:+ "")). now rewrite IH.
Qed.

Lemma splitext_app (p : string) :
  fst (Py.splitext p) +:+ snd (Py.splitext p) = p.
Proof.
  unfold Py.splitext.
  destruct (_ <? _); [|apply append_empty_r].
  destruct (forallb _ _); [apply append_empty_r|apply slice_split].
Qed.

Lemma append_assoc (a b c : string) : (a +:+ b) +:+ c = a +:+ b +:+ c.
Proof.
  induction a as [|x a IH]; [reflexivity|].
  change (String x a +:+ b) with (String x (a +:+ b)).
  change (String x (a +:+ b) +:+ c) with (String x ((a +:+ b) +:+ c)).
  now rewrite IH.
Qed.

Lemma chars_app (a b : string) : Py.chars (a +:+ b) = Py.chars a ++ Py.chars b.
Proof.
  induction a as [|x a IH]; [reflexivity|].
  change (String x a +:+ b) with (String x (a +:+ b)).
  unfold Py.chars in *. simpl. now rewrite IH.
Qed.

Lemma chars_str (l : list ascii) : Py.chars (Py.str l) = l.
Proof. apply Str.list_ascii_of_string_of_list_ascii. Qed.

Lemma len_cons (a : ascii) (s : string) : Py.len (String a s) = Py.len s + 1.
Proof. unfold Py.len, Py.chars. simpl. lia. Qed.

Lemma len_nonneg (s : string) : 0 <= Py.len s.
Proof. unfold Py.len. lia. Qed.

Lemma len_app (a b : string) : Py.len (a +:+ b) = Py.len a + Py.len b.
Proof. unfold Py.len. rewrite chars_app, length_app. lia. Qed.

Lemma rfind_from_range (c : ascii) (s : string) (i : Z) :
  0 <= i ->
  Py.rfind_from c s i = -1
  \/ (i <= Py.rfind_from c s i < i + Py.len s).
Proof.
  revert i. induction s as [|a s IH]; intros i Hi; simpl; [now left|].
  rewrite len_cons.
  destruct (IH (i + 1) ltac:(lia)) as [->|H].
  - simpl. destruct (Ascii.eqb a c); [right; pose proof (len_nonneg s); lia|now left].
  - destruct (Z.leb_spec 0 (Py.rfind_from c s (i + 1))); [right; lia|lia].
Qed.

Lemma rfind_from_shift (c : ascii) (s : string) (i j : Z) :
  0 <= i -> 0 <= j ->
  Py.rfind_from c s j =
  if Py.rfind_from c s i <? 0 then -1 else Py.rfind_from c s i - i + j.
Proof.
  revert i j. induction s as [|a s IH]; intros i j Hi Hj; simpl; [reflexivity|].
  rewrite (IH (i + 1) (j + 1)) by lia.
  destruct (rfind_from_range c s (i + 1) ltac:(lia)) as [->|H].
  - simpl. destruct (Ascii.eqb a c).
    + destruct (Z.ltb_spec i 0); lia.
    + reflexivity.
  - destruct (Z.ltb_spec (Py.rfind_from c s (i + 1)) 0); [lia|].
    destruct (Z.leb_spec 0 (Py.rfind_from c s (i + 1) - (i + 1) + (j + 1))); [|lia].
    destruct (Z.leb_spec 0 (Py.rfind_from c s (i + 1))); [|lia].
    destruct (Z.ltb_spec (Py.rfind_from c s (i + 1)) 0); lia.
Qed.

Lemma rfind_from_app (c : ascii) (a b : string) (i : Z) :
  0 <= i ->
  Py.rfind_from c (a +:+ b) i =
  if 0 <=? Py.rfind_from c b (i + Py.len a)
  then Py.rfind_from c b (i + Py.len a)
  else Py.rfind_from c a i.
Proof.
  revert i. induction a as [|x a IH]; intros i Hi.
  - change ("" +:+ b) with b. change (Py.len "") with 0. rewrite Z.add_0_r.
    destruct (rfind_from_range c b i Hi) as [->|H]; [reflexivity|].
    destruct (Z.leb_spec 0 (Py.rfind_from c b i)); [reflexivity|lia].
  - change (String x a +:+ b) with (String x (a +:+ b)). simpl.
    rewrite IH by lia. rewrite len_cons.
    replace (i + (Py.len a + 1)) with (i + 1 + Py.len a) by lia.
    destruct (Z.leb_spec 0 (Py.rfind_from c b (i + 1 + Py.len a))) as [H|H].
    + destruct (Z.leb_spec 0 (Py.rfind_from c b (i + 1 + Py.len a))); [reflexivity|lia].
    + reflexivity.
Qed.

Lemma forallb_take_app_false {A : Type} (f : A -> bool) (l k : list A) (n : nat) :
  forallb f l = false -> (length l <= n)%nat -> forallb f (take n (l ++ k)) = false.
Proof.
  intros Hf Hn. rewrite take_app_ge by exact Hn.
  rewrite forallb_app, Hf. reflexivity.
Qed.

Lemma splitext_insert_aux (name ext s : string) (sep dot : Z) :
  Py.rfind "/" (name +:+ ext) = sep ->
  Py.rfind "." (name +:+ ext) = dot ->
  sep < dot ->
  Py.len name = dot ->
  forallb (fun c => Ascii.eqb c ".")
          (drop (Z.to_nat (sep + 1)) (Py.chars name)) = false ->
  Py.rfind "/" s = -1 ->
  Py.splitext (name +:+ s +:+ ext) = (name +:+ s, ext).
Proof.
  intros Hsep Hdot Hlt Hlen Hdots Hs.
  unfold Py.rfind in *.
  rewrite rfind_from_app, Z.add_0_l, Hlen in Hsep, Hdot by lia.
  pose proof (len_nonneg name) as Hn0.
  assert (Py.rfind_from "." ext dot = dot) as Edot.
  { destruct (Z.leb_spec 0 (Py.rfind_from "." ext dot)); [exact Hdot|].
    destruct (rfind_from_range "." name 0 ltac:(lia)) as [E|E]; lia. }
  assert (Py.rfind_from "/" ext dot = -1 /\ Py.rfind_from "/" name 0 = sep)
    as [Eext Ename].
  { destruct (rfind_from_range "/" ext dot ltac:(lia)) as [E|E].
    - rewrite E in Hsep. simpl in Hsep. now split.
    - destruct (Z.leb_spec 0 (Py.rfind_from "/" ext dot)); lia. }
  assert (-1 <= sep) as Hsep1.
  { destruct (rfind_from_range "/" name 0 ltac:(lia)) as [E|E]; lia. }
  pose proof (len_nonneg s) as Hs0.
  assert (Py.rfind_from "/" (name +:+ s +:+ ext) 0 = sep) as Rsep.
  { rewrite rfind_from_app, Z.add_0_l by lia.
    rewrite rfind_from_app by lia.
    rewrite (rfind_from_shift "/" ext dot (Py.len name + Py.len s)) by lia.
    rewrite Eext. simpl.
    rewrite (rfind_from_shift "/" s 0 (Py.len name)) by lia.
    rewrite Hs. simpl. exact Ename. }
  assert (Py.rfind_from "." (name +:+ s +:+ ext) 0 = dot + Py.len s) as Rdot.
  { rewrite rfind_from_app, Z.add_0_l by lia.
    rewrite rfind_from_app by lia.
    rewrite (rfind_from_shift "." ext dot (Py.len name + Py.len s)) by lia.
    rewrite Edot.
    destruct (Z.ltb_spec dot 0); [lia|].
    replace (dot - dot + (Py.len name + Py.len s)) with (dot + Py.len s)
      by lia.
    destruct (Z.leb_spec 0 (dot + Py.len s)); [|lia].
    destruct (Z.leb_spec 0 (dot + Py.len s)); [reflexivity|lia]. }
  unfold Py.splitext, Py.rfind. rewrite Rsep, Rdot.
  destruct (Z.ltb_spec sep (dot + Py.len s)); [|lia].
  assert (Py.chars (name +:+ s +:+ ext)
          = Py.chars name ++ Py.chars s ++ Py.chars ext) as Hchars
    by (now rewrite !chars_app).
  assert (length (Py.chars name) = Z.to_nat dot) as Hlname
    by (unfold Py.len in Hlen; lia).
  assert (length (Py.chars s) = Z.to_nat (Py.len s)) as Hls
    by (unfold Py.len; lia).
  assert (forallb (fun c => Ascii.eqb c ".")
            (Py.chars (Py.slice (name +:+ s +:+ ext) (sep + 1)
                                (dot + Py.len s))) = false) as ->.
  { unfold Py.slice. rewrite chars_str, Hchars.
    rewrite drop_app_le by lia.
    apply forallb_take_app_false; [exact Hdots|].
    rewrite length_drop. lia. }
  f_equal.
  - unfold Py.slice. rewrite Hchars.
    change (Z.to_nat 0) with 0%nat. rewrite drop_0.
    rewrite app_assoc, Z.sub_0_r.
    rewrite take_app_length' by (rewrite length_app; lia).
    now rewrite str_app, !str_chars.
  - unfold Py.slice_from. rewrite Hchars, app_assoc.
    rewrite drop_app_length' by (rewrite length_app; lia).
    apply str_chars.
Qed.

Lemma splitext_insert (p s : string) :
  snd (Py.splitext p) <> "" ->
  Py.rfind "/" s = -1 ->
  Py.splitext (fst (Py.splitext p) +:+ s +:+ snd (Py.splitext p))
  = (fst (Py.splitext p) +:+ s, snd (Py.splitext p)).
Proof.
  intros Hext Hs.
  pose proof (splitext_app p) as Hp.
  unfold Py.splitext in *.
  destruct (Z.ltb_spec (Py.rfind "/" p) (Py.rfind "." p)) as [Hlt|];
    [|now destruct Hext].
  destruct (forallb _ _) eqn:Hdots; [now destruct Hext|].
  simpl in *.
  assert (0 <= Py.rfind "." p < Py.len p) as Hrange.
  { unfold Py.rfind in *.
    destruct (rfind_from_range "/" p 0 ltac:(lia)) as [E|E],
             (rfind_from_range "." p 0 ltac:(lia)) as [F|F]; lia. }
  assert (-1 <= Py.rfind "/" p) as Hsep.
  { unfold Py.rfind.
    destruct (rfind_from_range "/" p 0 ltac:(lia)) as [E|E]; lia. }
  apply (splitext_insert_aux _ _ s (Py.rfind "/" p) (Py.rfind "." p)).
  - now rewrite Hp.
  - now rewrite Hp.
  - exact Hlt.
  - unfold Py.slice, Py.len. rewrite chars_str, Z.sub_0_r.
    change (Z.to_nat 0) with 0%nat. rewrite drop_0.
    rewrite length_take. unfold Py.len in Hrange. lia.
  - unfold Py.slice in *. rewrite chars_str in *. rewrite Z.sub_0_r.
    change (Z.to_nat 0) with 0%nat. rewrite drop_0.
    rewrite take_drop_commute in Hdots.
    replace (Z.to_nat (Py.rfind "/" p + 1)
             + Z.to_nat (Py.rfind "." p - (Py.rfind "/" p + 1)))%nat
      with (Z.to_nat (Py.rfind "." p)) in Hdots by lia.
    exact Hdots.
  - exact Hs.
Qed.

Lemma rfind_from_none (c : ascii) (s : string) (i : Z) :
  0 <= i -> (Py.rfind_from c s i = -1 <-> Py.lacks c s = true).
Proof.
  unfold Py.lacks. revert i. induction s as [|a s IH]; intros i Hi; simpl;
    [tauto|].
  specialize (IH (i + 1) ltac:(lia)).
  destruct (rfind_from_range c s (i + 1) ltac:(lia)) as [E|E].
  - rewrite E in *. simpl. destruct (Ascii.eqb a c); simpl.
    + split; [lia|discriminate].
    + tauto.
  - destruct (Z.leb_spec 0 (Py.rfind_from c s (i + 1))); [|lia].
    split; [lia|]. intros Hl. apply andb_true_iff in Hl as [_ Hl].
    apply IH in Hl. lia.
Qed.

Lemma rfind_none (c : ascii) (s : string) :
  Py.rfind c s = -1 <-> Py.lacks c s = true.
Proof. apply rfind_from_none. lia. Qed.

Lemma lacks_app (c : ascii) (a b : string) :
  Py.lacks c (a +:+ b) = Py.lacks c a && Py.lacks c b.
Proof. unfold Py.lacks. now rewrite chars_app, forallb_app. Qed.

Lemma lacks_cons (c a : ascii) (s : string) :
  Py.lacks c (String a s) = negb (Ascii.eqb a c) && Py.lacks c s.
Proof. reflexivity. Qed.

Lemma str_of_int_lacks_slash (n : Z) : Py.lacks "/" (Py.str_of_int n) = true.
Proof.
  assert (forall d, Py.lacks "/" (NilEmpty.string_of_uint d) = true) as Hu.
  { induction d; [reflexivity|..];
      cbn [NilEmpty.string_of_uint]; rewrite lacks_cons, IHd; reflexivity. }
  assert (forall d, Py.lacks "/" (NilZero.string_of_uint d) = true) as Hz
    by (intros []; try reflexivity; apply Hu).
  unfold Py.str_of_int. destruct (Z.to_int n);
    cbn [NilZero.string_of_int]; [apply Hz|].
  rewrite lacks_cons, Hz. reflexivity.
Qed.

Lemma render_from_cons (skip : nat) (c : ascii) (fmt text : string) :
  VersionDetector.render_from skip (String c fmt) text =
  match skip with
  | S k => VersionDetector.render_from k fmt text
  | O =>
      if Py.startswith (String c fmt) "{number}"
      then text +:+ VersionDetector.render_from 7 fmt text
      else String c (VersionDetector.render_from 0 fmt text)
  end.
Proof. reflexivity. Qed.

Lemma render_from_lacks (c : ascii) (fmt text : string) (skip : nat) :
  Py.lacks c fmt = true -> Py.lacks c text = true ->
  Py.lacks c (VersionDetector.render_from skip fmt text) = true.
Proof.
  intros Hf Ht. revert skip.
  induction fmt as [|a fmt IH]; intros skip; [reflexivity|].
  rewrite lacks_cons in Hf. apply andb_true_iff in Hf as [Ha Hf].
  specialize (IH Hf). rewrite render_from_cons.
  destruct skip; [|apply IH].
  destruct (Py.startswith (String a fmt) "{number}").
  - rewrite lacks_app, Ht. apply IH.
  - rewrite lacks_cons, Ha. apply IH.
Qed.

(** ** The version detector *)

Section VersionDetectorProperties.

Import VersionDetector.

Variable ratio : string -> string -> Q.
Variable config : Config.

Lemma highest_version_from (filename : string) (matches : list string)
      (start : Z) :
  0 <= start ->
  0 <= fold_left
         (fun highest m =>
            let version := _extract_version_number config m in
            if highest <? version then version else highest)
         matches start.
Proof.
  revert start. induction matches as [|m matches IH]; intros start Hs.
  - exact Hs.
  - simpl. apply IH. destruct (Z.ltb_spec start (_extract_version_number config m)); lia.
Qed.

Lemma get_highest_version_nonneg (filename : string) (matches : list string) :
  0 <= _get_highest_version config filename matches.
Proof. apply (highest_version_from filename). lia. Qed.

Lemma add_version_suffix_shape (filename : string) (version : Z) :
  _add_version_suffix config filename version =
  fst (Py.splitext filename)
    +:+ render_from 0 (format config) (Py.str_of_int version)
    +:+ snd (Py.splitext filename).
Proof.
  unfold _add_version_suffix. now destruct (Py.splitext filename).
Qed.

Lemma detect_version_no_matches (filename : string)
      (existing_files : list string) :
  _find_matches ratio config filename existing_files = [] ->
  detect_version ratio config filename existing_files = (filename, 1).
Proof.
  intros H. unfold detect_version. rewrite H.
  now destruct (enabled config).
Qed.

Lemma detect_version_cases (filename : string)
      (existing_files : list string) :
  detect_version ratio config filename existing_files = (filename, 1)
  \/ exists highest,
      0 <= highest
      /\ detect_version ratio config filename existing_files =
         (_add_version_suffix config filename (highest + 1), highest + 1).
Proof.
  unfold detect_version.
  destruct (enabled config); simpl; [|now left].
  destruct (_find_matches ratio config filename existing_files)
    as [|m matches]; [now left|].
  right. eexists. split; [|reflexivity].
  apply get_highest_version_nonneg.
Qed.

Lemma detect_version_at_least_1 (filename : string)
      (existing_files : list string) :
  1 <= (detect_version ratio config filename existing_files).2.
Proof.
  destruct (detect_version_cases filename existing_files)
    as [->|(highest & Hh & ->)]; simpl; lia.
Qed.

End VersionDetectorProperties.

(** The call either raises the wrapped library error or returns what
    [detect_version] computes. *)
Lemma detect_version_call_cases (library_error : option string)
      (ratio : string -> string -> Q) (config : VersionDetector.Config)
      (filename : string) (existing_files : list string) :
  (exists msg,
      library_error = Some msg
      /\ VersionDetector.enabled config = true
      /\ VersionDetector.detect_version_call library_error ratio config
           filename existing_files
         = Raise (VersionDetectionError
                    ("Error detecting version for " +:+ filename +:+ ": "
                       +:+ msg)))
  \/ ((library_error = None \/ VersionDetector.enabled config = false)
      /\ VersionDetector.detect_version_call library_error ratio config
           filename existing_files
         = Ok (VersionDetector.detect_version ratio config filename
                 existing_files)).
Proof.
  unfold VersionDetector.detect_version_call,
    VersionDetector.detect_version.
  destruct (VersionDetector.enabled config); simpl.
  - destruct library_error as [msg|]; [left; eauto|right; auto].
  - right. auto.
Qed.

Lemma detect_version_call_at_least_1 (library_error : option string)
      (ratio : string -> string -> Q) (config : VersionDetector.Config)
      (filename : string) (existing_files : list string)
      (versioned_filename : string) (version_number : Z) :
  VersionDetector.detect_version_call library_error ratio config filename
    existing_files = Ok (versioned_filename, version_number) ->
  1 <= version_number.
Proof.
  intros H.
  destruct (detect_version_call_cases library_error ratio config filename
              existing_files) as [(msg & _ & _ & E)|(_ & E)];
    rewrite E in H; [discriminate|].
  injection H as H.
  pose proof (detect_version_at_least_1 ratio config filename
                existing_files) as Hv.
  rewrite H in Hv. exact Hv.
Qed.

(** C9. Whatever the candidate and the listing, the version number the
    resolver returns is at least 1, and the file name it returns is either
    the candidate itself or the candidate with the rendered version suffix
    put between its stem and its extension ([os.path.splitext]); in both
    cases the name still ends with the candidate's extension. When the
    candidate has an extension and the suffix format contains no slash,
    [os.path.splitext] finds that same extension in the name returned. *)
Theorem detect_version_keeps_extension
        (ratio : string -> string -> Q) (config : VersionDetector.Config)
        (filename : string) (existing_files : list string) :
  let result :=
    VersionDetector.detect_version ratio config filename existing_files in
  let name := fst (Py.splitext filename) in
  let ext := snd (Py.splitext filename) in
  1 <= snd result
  /\ (fst result = filename
      \/ fst result =
         name +:+ VersionDetector.render_from 0
                    (VersionDetector.format config)
                    (Py.str_of_int (snd result))
              +:+ ext)
  /\ Py.endswith (fst result) ext = true
  /\ (ext <> "" ->
      Py.rfind "/" (VersionDetector.format config) = -1 ->
      snd (Py.splitext (fst result)) = ext).
Proof.
  intros result name ext. subst result name ext.
  destruct (detect_version_cases ratio config filename existing_files)
    as [->|(highest & Hh & ->)]; simpl.
  - split; [lia|]. split; [now left|]. split; [|reflexivity].
    rewrite <- (splitext_app filename) at 1. apply endswith_app.
  - split; [lia|]. rewrite add_version_suffix_shape.
    split; [now right|]. split.
    + rewrite <- append_assoc. apply endswith_app.
    + intros Hext Hfmt. rewrite splitext_insert; [reflexivity|exact Hext|].
      apply rfind_none. apply render_from_lacks.
      * now apply rfind_none.
      * apply str_of_int_lacks_slash.
Qed.

Lemma detect_version_keeps_extension_witness :
  snd (Py.splitext "Movie (2020).mkv") <> ""
  /\ Py.rfind "/" (VersionDetector.format VersionDetector.default_config)
     = -1
  /\ snd (Py.splitext
            (fst (VersionDetector.detect_version (fun _ _ => 0%Q)
                    VersionDetector.default_config "Movie (2020).mkv"
                    ["Movie (2020).mkv"])))
     = ".mkv".
Proof.
  assert (snd (Py.splitext "Movie (2020).mkv") <> "") as Hext
    by (vm_compute; discriminate).
  assert (Py.rfind "/" (VersionDetector.format
                          VersionDetector.default_config) = -1) as Hfmt
    by reflexivity.
  split; [exact Hext|]. split; [exact Hfmt|].
  apply (proj2 (proj2 (proj2 (detect_version_keeps_extension
                                (fun _ _ => 0%Q)
                                VersionDetector.default_config
                                "Movie (2020).mkv" ["Movie (2020).mkv"])))
               Hext Hfmt).
Defined.

(** C6. With the similarity check enabled at threshold 0.9 and the listing
    ["Movie (2020).mkv"], the candidate "Movie (2020).mkv" becomes
    ("Movie (2020).v2.mkv", 2); with an empty listing, or one in which
    nothing matches, the candidate comes back unchanged with version 1. *)
Theorem detect_version_examples (ratio : string -> string -> Q) :
  let config :=
    {| VersionDetector.enabled := true;
       VersionDetector.format := ".v{number}";
       VersionDetector.check_similar := true;
       VersionDetector.similarity_threshold := 9 # 10 |} in
  VersionDetector.detect_version ratio config
    "Movie (2020).mkv" ["Movie (2020).mkv"] = ("Movie (2020).v2.mkv", 2)
  /\ (forall filename,
        VersionDetector.detect_version ratio config filename [] =
        (filename, 1))
  /\ (forall filename existing_files,
        VersionDetector._find_matches ratio config filename existing_files
        = [] ->
        VersionDetector.detect_version ratio config filename existing_files
        = (filename, 1)).
Proof.
  intros config. split; [vm_compute; reflexivity|]. split.
  - intros filename. now apply detect_version_no_matches.
  - intros filename existing_files. apply detect_version_no_matches.
Qed.

Lemma detect_version_examples_witness :
  VersionDetector._find_matches (fun _ _ => 0%Q)
    VersionDetector.default_config "Movie (2020).mkv" ["Other (1999).mkv"]
  = []
  /\ VersionDetector.detect_version (fun _ _ => 0%Q)
       VersionDetector.default_config "Movie (2020).mkv" ["Other (1999).mkv"]
     = ("Movie (2020).mkv", 1).
Proof.
  split; [vm_compute; reflexivity|].
  apply (detect_version_examples (fun _ _ => 0%Q)).
  vm_compute; reflexivity.
Defined.

(** C5. The round trip fails on the code: for the file name
    "Movie.v3.final.mkv" (base name "Movie.v3.final") and version 2 the
    suffixed name is "Movie.v3.final.v2.mkv", from which
    [_extract_version_number] reads 3, the first text that looks like a
    suffix, and not 2, the suffix before the extension. The same happens
    when the suffix is added to the base name itself. In [detect_version]
    the misread number makes the resolver hand out a name that is already
    taken. *)
Theorem extract_version_reads_first_occurrence :
  let config := VersionDetector.default_config in
  VersionDetector._get_base_name config "Movie.v3.final.mkv"
  = "Movie.v3.final"
  /\ VersionDetector._add_version_suffix config "Movie.v3.final.mkv" 2
     = "Movie.v3.final.v2.mkv"
  /\ VersionDetector._extract_version_number config
       (VersionDetector._add_version_suffix config "Movie.v3.final.mkv" 2)
     = 3
  /\ VersionDetector._extract_version_number config
       (VersionDetector._add_version_suffix config "Movie.v3.final" 2)
     = 3
  /\ forall ratio,
      VersionDetector.detect_version ratio config "Movie.v3.final.mkv"
        ["Movie.v3.final.mkv"; "Movie.v3.final.v4.mkv"]
      = ("Movie.v3.final.v4.mkv", 4).
Proof.
  cbv zeta. repeat split; try intros ratio; vm_compute; reflexivity.
Qed.

(** On a name without such text the round trip holds. *)
Example extract_version_round_trip_plain :
  VersionDetector._extract_version_number VersionDetector.default_config
    (VersionDetector._add_version_suffix VersionDetector.default_config
       "Movie (2020).mkv" 12)
  = 12.
Proof. vm_compute. reflexivity. Qed.

(** ** The validator *)

Section FileValidatorProperties.

Import FileValidator.

Lemma star_pattern_matches (filename : string) (patterns : list string) :
  In "*" patterns -> _matches_exclude_loop filename patterns = true.
Proof.
  induction patterns as [|pattern rest IH]; intros Hin; [destruct Hin|].
  simpl. destruct Hin as [->|Hin].
  - change (Py.slice_from "*" 1) with "".
    now rewrite endswith_empty.
  - destruct (_ && _); [reflexivity|].
    destruct (_ && _); [reflexivity|].
    destruct (Str.eqb pattern filename); [reflexivity|].
    now apply IH.
Qed.

Variable config : Config.
Variable world : nat -> string -> file_state.



End FileValidatorProperties.

(** C10. When the exclusion list contains the pattern "*", the matcher
    accepts every file name, and so validation fails, without an error,
    for every path, whatever its extension, size or stability. *)
Theorem exclude_star_rejects_everything
        (config : FileValidator.Config) (world : nat -> string -> file_state)
        (file_path : string) :
  In "*" (FileValidator.exclude_patterns config) ->
  FileValidator._matches_exclude_pattern config file_path = true
  /\ FileValidator.validate_file config world file_path = Ok false.
Proof.
  intros Hin.
  assert (FileValidator._matches_exclude_pattern config file_path = true)
    as Hm by (now apply star_pattern_matches).
  split; [exact Hm|].
  unfold FileValidator.validate_file. rewrite Hm.
  destruct (os_path_exists _); [|reflexivity].
  destruct (os_path_isfile _); reflexivity.
Qed.

Lemma exclude_star_rejects_everything_witness :
  FileValidator.validate_file
    {| FileValidator.min_file_size_mb := 500;
       FileValidator.stable_time_seconds := 30;
       FileValidator.supported_extensions := [".mkv"];
       FileValidator.exclude_patterns := ["*.part"; "*"] |}
    (fun _ _ => Regular 1000000000) "/downloads/Movie (2020).mkv"
  = Ok false.
Proof.
  apply (exclude_star_rejects_everything
           {| FileValidator.min_file_size_mb := 500;
              FileValidator.stable_time_seconds := 30;
              FileValidator.supported_extensions := [".mkv"];
              FileValidator.exclude_patterns := ["*.part"; "*"] |}).
  simpl. right. left. reflexivity.
Defined.

(** C7. The claim fails on the code. [validate_file] reads the size of the
    file with [os.path.getsize] outside the guard that [_is_file_stable]
    puts around its own two readings: whenever the checks before it have
    passed and the file is gone at that reading, the [FileNotFoundError]
    reaches the last handler, which raises [FileValidationError] to the
    caller instead of returning "not valid". So it is for the default
    configuration and a supported file of one gigabyte that is there for
    the existence check and the file-type check and has disappeared when
    its size is read. *)
Theorem validate_file_raises_on_vanished_file :
  (forall config world file_path,
      FileValidator.first_checks config world file_path = true ->
      world 2%nat file_path = Absent ->
      exists msg,
        FileValidator.validate_file config world file_path
        = Raise (FileValidationError ("Failed to validate file: " +:+ msg)))
  /\ FileValidator.first_checks FileValidator.default_config
       Scenario.vanishing_world "/downloads/Movie (2020).mkv" = true
  /\ Scenario.vanishing_world 2 "/downloads/Movie (2020).mkv" = Absent
  /\ FileValidator.validate_file FileValidator.default_config
       Scenario.vanishing_world "/downloads/Movie (2020).mkv"
     = Raise (FileValidationError
                "Failed to validate file: [Errno 2] No such file or directory: '/downloads/Movie (2020).mkv'").
Proof.
  split; [|repeat split; vm_compute; reflexivity].
  intros config world file_path Hfirst Hgone.
  unfold FileValidator.first_checks in Hfirst.
  apply andb_true_iff in Hfirst as [Hfirst Hvideo].
  apply andb_true_iff in Hfirst as [Hfirst Hexcl].
  apply andb_true_iff in Hfirst as [Hexists Hfile].
  apply negb_true_iff in Hexcl.
  unfold FileValidator.validate_file.
  rewrite Hexists, Hfile, Hexcl, Hvideo, Hgone. simpl. eauto.
Qed.

(** ** The transfer engine *)

Lemma append_tmp_ne (s : string) : s +:+ ".tmp" <> s.
Proof.
  induction s as [|a s IH]; [discriminate|].
  change (String a s +:+ ".tmp") with (String a (s +:+ ".tmp")).
  intros H. injection H as H. now apply IH.
Qed.

Section FileCopierProperties.

Import FileCopier.

Variable config : Config.
Variable env : Env.
Variables source_path temp_path dest_path : string.
Hypothesis temp_ne_dest : temp_path <> dest_path.

Implicit Type files : gmap string Z.

(** One pass through the inner [try]: either the temp file was
    published, or an exception left every other path as it was. *)
Lemma try_copy_cases (faults : attempt_env) files :
  exists files1 r events,
    try_copy faults files source_path temp_path dest_path
    = (files1, r, events)
    /\ ((r = Ok dest_path /\ events = [Verify true]
         /\ files1 !! temp_path = None)
        \/ (exists e,
              r = Raise e
              /\ (events = []
                  \/ (events = [Verify false]
                      /\ e = FileCopyError "File verification failed")
                  \/ events = [Verify true])
              /\ forall k, k <> temp_path -> files1 !! k = files !! k)).
Proof.
  unfold try_copy, _stream_copy.
  destruct (files !! source_path) as [size|] eqn:Hsrc;
    [|do 3 eexists; split; [reflexivity|right; eauto 10]].
  destruct (stream faults) as [|written|written].
  - do 3 eexists; split; [reflexivity|right; eauto 10].
  - do 3 eexists; split; [reflexivity|right].
    eexists; split; [reflexivity|]. split; [now left|].
    intros k Hk. now rewrite lookup_insert_ne.
  - destruct (negb _).
    + do 3 eexists; split; [reflexivity|right].
      eexists; split; [reflexivity|]. split; [right; left; now split|].
      intros k Hk. now rewrite lookup_insert_ne.
    + unfold os_rename. rewrite lookup_insert_eq.
      destruct (rename_error faults).
      * do 3 eexists; split; [reflexivity|right].
        eexists; split; [reflexivity|]. split; [now right; right|].
        intros k Hk. now rewrite lookup_insert_ne.
      * do 3 eexists; split; [reflexivity|left].
        split; [reflexivity|]. split; [reflexivity|].
        rewrite lookup_insert_ne by congruence.
        apply lookup_delete_eq.
Qed.

Lemma clean_up_temp (faults : attempt_env) files :
  remove_fails faults = false ->
  clean_up faults files temp_path !! temp_path = None.
Proof.
  intros Hrm. unfold clean_up.
  destruct (files !! temp_path) eqn:E; [|exact E].
  rewrite Hrm. apply lookup_delete_eq.
Qed.

Lemma clean_up_other (faults : attempt_env) files (k : string) :
  k <> temp_path -> clean_up faults files temp_path !! k = files !! k.
Proof.
  intros Hk. unfold clean_up.
  destruct (files !! temp_path); [|reflexivity].
  destruct (remove_fails faults); [reflexivity|].
  now rewrite lookup_delete_ne.
Qed.

Lemma retry_loop_cons (attempt : Z) (rest : list Z) files :
  retry_loop env (attempt :: rest) files source_path temp_path dest_path =
  let faults := attempt_faults env attempt in
  match try_copy faults files source_path temp_path dest_path with
  | (files1, Ok path, events) =>
      (files1, Ok path, Attempt attempt files :: events)
  | (files1, Raise e, events) =>
      let files2 := clean_up faults files1 temp_path in
      if attempt =? max_retries - 1
      then (files2, Raise e, Attempt attempt files :: events)
      else
        let '(files3, r, trace) :=
          retry_loop env rest files2 source_path temp_path dest_path in
        (files3, r,
         Attempt attempt files :: events ++ Sleep (2 ^ attempt) :: trace)
  end.
Proof. reflexivity. Qed.

(** When removals do not fail, the loop leaves no temp file behind. *)
Lemma retry_loop_no_temp (attempts : list Z) files :
  (forall n, remove_fails (attempt_faults env n) = false) ->
  files !! temp_path = None \/ attempts <> [] ->
  (retry_loop env attempts files source_path temp_path dest_path).1.1
    !! temp_path = None.
Proof.
  intros Hrm. revert files.
  induction attempts as [|attempt rest IH]; intros files Hpre.
  - destruct Hpre as [H|H]; [exact H|congruence].
  - rewrite retry_loop_cons. cbv zeta.
    destruct (try_copy_cases (attempt_faults env attempt) files)
      as (files1 & r & events & -> & [(-> & _ & Htmp)|(e & -> & _ & _)]).
    + exact Htmp.
    + destruct (attempt =? max_retries - 1).
      * simpl. now apply clean_up_temp.
      * specialize (IH (clean_up (attempt_faults env attempt) files1
                                 temp_path)).
        destruct (retry_loop env rest _ _ _ _) as [[files3 r3] trace3].
        simpl in *. apply IH. left. now apply clean_up_temp.
Qed.

(** When no verification passes, nothing but the temp file changes and
    the loop ends with an exception. *)
Lemma retry_loop_unverified (attempts : list Z) files :
  let out :=
    retry_loop env attempts files source_path temp_path dest_path in
  Forall (fun b => b = false) (verifications_of out.2) ->
  (forall k, k <> temp_path -> out.1.1 !! k = files !! k)
  /\ exists e, out.1.2 = Raise e.
Proof.
  revert files. induction attempts as [|attempt rest IH]; intros files.
  - simpl. intros _. split; [reflexivity|eauto].
  - cbv zeta. rewrite retry_loop_cons. cbv zeta.
    destruct (try_copy_cases (attempt_faults env attempt) files)
      as (files1 & r & events & ->
          & [(-> & -> & Htmp)|(e & -> & Hev & Hsame)]).
    + simpl. intros H. inversion H; discriminate.
    + destruct (attempt =? max_retries - 1).
      * simpl. intros _. split; [|eauto].
        intros k Hk. rewrite clean_up_other by exact Hk. now apply Hsame.
      * specialize (IH (clean_up (attempt_faults env attempt) files1
                                 temp_path)).
        destruct (retry_loop env rest _ _ _ _) as [[files3 r3] trace3].
        simpl in *. intros H.
        assert (Forall (fun b => b = false) (verifications_of trace3))
          as H3.
        { unfold verifications_of in *.
          rewrite omap_app in H. apply Forall_app in H as [_ H].
          exact H. }
        destruct (IH H3) as [IHsame IHr]. split; [|exact IHr].
        intros k Hk. rewrite IHsame by exact Hk.
        rewrite clean_up_other by exact Hk. now apply Hsame.
Qed.

Local Ltac next_attempt n f r ev e Hev Hsame :=
  rewrite retry_loop_cons; cbv zeta;
  match goal with
  | |- context [try_copy ?faults ?files _ _ _] =>
      destruct (try_copy_cases faults files)
        as (f & r & ev & -> & [(-> & -> & ?)|(e & -> & Hev & Hsame)])
  end.

(** Three failed verifications end the loop with the verification
    error. *)
Lemma retry_loop_three_failures files :
  let out :=
    retry_loop env [0; 1; 2] files source_path temp_path dest_path in
  verifications_of out.2 = [false; false; false] ->
  out.1.2 = Raise (FileCopyError "File verification failed").
Proof.
  cbv zeta.
  next_attempt 0 f1 r1 ev1 e1 Hev1 Hs1; [discriminate|].
  change (0 =? max_retries - 1) with false. cbv iota.
  next_attempt 1 f2 r2 ev2 e2 Hev2 Hs2;
    [destruct Hev1 as [->|[[-> _]| ->]]; discriminate|].
  change (1 =? max_retries - 1) with false. cbv iota.
  next_attempt 2 f3 r3 ev3 e3 Hev3 Hs3;
    [destruct Hev1 as [->|[[-> _]| ->]], Hev2 as [->|[[-> _]| ->]];
     discriminate|].
  change (2 =? max_retries - 1) with true. cbv iota.
  destruct Hev1 as [->|[[-> _]| ->]], Hev2 as [->|[[-> _]| ->]],
           Hev3 as [->|[[-> ->]| ->]];
    simpl; intros H; try discriminate H; reflexivity.
Qed.

(** The attempts are numbered from 0, at most three are made, and the
    engine sleeps [2 ^ n] seconds after failed attempt [n] only when
    another attempt follows. A retry finds no temp file unless the
    removal before it failed. *)
Lemma retry_loop_schedule files :
  let trace :=
    (retry_loop env [0; 1; 2] files source_path temp_path dest_path).2 in
  (attempts_of trace = [0] /\ sleeps_of trace = []
   \/ attempts_of trace = [0; 1] /\ sleeps_of trace = [1]
   \/ attempts_of trace = [0; 1; 2] /\ sleeps_of trace = [1; 2])
  /\ (forall n snapshot,
        In (Attempt n snapshot) trace -> 0 < n ->
        remove_fails (attempt_faults env (n - 1)) = false ->
        snapshot !! temp_path = None).
Proof.
  cbv zeta.
  next_attempt 0 f1 r1 ev1 e1 Hev1 Hs1.
  { split; [now left|]. simpl.
    intros n snap [Hin|[Hin|[]]]; [|discriminate].
    injection Hin as <- <-. lia. }
  change (0 =? max_retries - 1) with false. cbv iota.
  next_attempt 1 f2 r2 ev2 e2 Hev2 Hs2.
  { destruct Hev1 as [->|[[-> _]| ->]]; simpl;
      (split; [right; now left|]);
      intros n snap Hin Hn Hrm;
      repeat (destruct Hin as [Hin|Hin]; try discriminate Hin);
      try (injection Hin as <- <-); try lia; try (destruct Hin);
      now apply clean_up_temp. }
  change (1 =? max_retries - 1) with false. cbv iota.
  next_attempt 2 f3 r3 ev3 e3 Hev3 Hs3.
  { destruct Hev1 as [->|[[-> _]| ->]], Hev2 as [->|[[-> _]| ->]]; simpl;
      (split; [right; now right|]);
      intros n snap Hin Hn Hrm;
      repeat (destruct Hin as [Hin|Hin]; try discriminate Hin);
      try (injection Hin as <- <-); try lia; try (destruct Hin);
      now apply clean_up_temp. }
  change (2 =? max_retries - 1) with true. cbv iota.
  destruct Hev1 as [->|[[-> _]| ->]], Hev2 as [->|[[-> _]| ->]],
           Hev3 as [->|[[-> _]| ->]]; simpl;
    (split; [right; now right|]);
    intros n snap Hin Hn Hrm;
    repeat (destruct Hin as [Hin|Hin]; try discriminate Hin);
    try (injection Hin as <- <-); try lia; try (destruct Hin);
    now apply clean_up_temp.
Qed.

End FileCopierProperties.

(** C1, as stated, fails in three ways. When the removal of the temp
    file fails, the failure is passed over and the temp file stays behind;
    when the final name was taken before the call, it is still there after
    three failed verifications; and a temp file left by an earlier run
    stays when the call fails before its retry loop. *)
Lemma copy_file_can_leave_files :
  (let out :=
     FileCopier.copy_file Scenario.share (Scenario.short_copies true)
       Scenario.download "/dl/a.mkv" "A.mkv" in
   out.1.1 !! "/mnt/share/Movies/A.mkv.tmp" = Some 5
   /\ out.1.2 = Raise (FileCopyError
                         "Error copying file /dl/a.mkv: File verification failed"))
  /\ (let out :=
        FileCopier.copy_file Scenario.share (Scenario.short_copies false)
          Scenario.download_and_old_copy "/dl/a.mkv" "A.mkv" in
      FileCopier.verifications_of out.2 = [false; false; false]
      /\ out.1.1 !! "/mnt/share/Movies/A.mkv" = Some 7)
  /\ (let out :=
        FileCopier.copy_file Scenario.share (Scenario.short_copies false)
          Scenario.stale_temp "/dl/a.mkv" "A.mkv" in
      out.1.1 !! "/mnt/share/Movies/A.mkv.tmp" = Some 3
      /\ out.1.2 = Raise (FileCopyError
                            "Error copying file /dl/a.mkv: [Errno 2] No such file or directory: '/dl/a.mkv'")).
Proof. vm_compute. repeat split; reflexivity. Qed.

(** C1, amended. Provided no removal of the temp file fails: after
    [copy_file] returns or raises, no temp file is left whenever the retry
    loop was entered or none was there before the call; and if verification
    fails on each of the 3 attempts, the operation raises [FileCopyError],
    no temp file is left, and the final name is there afterwards only as it
    was before the call. *)
Theorem copy_file_leaves_no_temp_file
        (config : FileCopier.Config) (env : FileCopier.Env)
        (files : gmap string Z) (source_path filename : string) :
  let out := FileCopier.copy_file config env files source_path filename in
  let temp_path := FileCopier.temp_path_of config filename in
  let dest_path := FileCopier.dest_path_of config filename in
  (forall n,
     FileCopier.remove_fails (FileCopier.attempt_faults env n) = false) ->
  (files !! temp_path = None \/ FileCopier.attempts_of out.2 <> [] ->
   out.1.1 !! temp_path = None)
  /\ (FileCopier.verifications_of out.2 = [false; false; false] ->
      out.1.1 !! temp_path = None
      /\ out.1.1 !! dest_path = files !! dest_path
      /\ out.1.2 =
         Raise (FileCopyError
                  ("Error copying file " +:+ source_path
                     +:+ ": File verification failed"))).
Proof.
  intros out temp_path dest_path Hrm. subst out.
  assert (temp_path <> dest_path) as Hne by apply append_tmp_ne.
  unfold FileCopier.copy_file.
  destruct (_ && _);
    [split; [intros [H|H]; [exact H|now destruct H]|discriminate]|].
  destruct (FileCopier.mkdir_error env) as [mkdir_error|];
    [split; [intros [H|H]; [exact H|now destruct H]|discriminate]|].
  destruct (files !! source_path) as [source_size|];
    [|split; [intros [H|H]; [exact H|now destruct H]|discriminate]].
  change (FileCopier.range FileCopier.max_retries) with [0; 1; 2].
  fold temp_path dest_path.
  pose proof (retry_loop_no_temp env source_path temp_path dest_path Hne
                [0; 1; 2] files Hrm) as Htmp.
  pose proof (retry_loop_unverified env source_path temp_path dest_path Hne
                [0; 1; 2] files) as Hsame.
  pose proof (retry_loop_three_failures env source_path temp_path dest_path
                Hne files) as Hmsg.
  cbv zeta in Hsame, Hmsg.
  destruct (FileCopier.retry_loop env [0; 1; 2] files source_path temp_path
              dest_path) as [[files' r] trace].
  simpl in Htmp, Hsame, Hmsg.
  assert (files' !! temp_path = None) as Hgone
    by (apply Htmp; right; discriminate).
  destruct r as [path|e]; simpl.
  - split; [intros _; exact Hgone|]. intros Hv.
    specialize (Hmsg Hv). discriminate.
  - split; [intros _; exact Hgone|]. intros Hv.
    split; [exact Hgone|]. split.
    + apply Hsame; [|congruence]. rewrite Hv. repeat constructor.
    + specialize (Hmsg Hv). injection Hmsg as ->. reflexivity.
Qed.

Lemma copy_file_leaves_no_temp_file_witness :
  let out :=
    FileCopier.copy_file Scenario.share (Scenario.short_copies false)
      Scenario.download "/dl/a.mkv" "A.mkv" in
  FileCopier.verifications_of out.2 = [false; false; false]
  /\ out.1.1 !! "/mnt/share/Movies/A.mkv.tmp" = None
  /\ out.1.1 !! "/mnt/share/Movies/A.mkv" = None
  /\ out.1.2 =
     Raise (FileCopyError
              "Error copying file /dl/a.mkv: File verification failed").
Proof.
  split; [vm_compute; reflexivity|].
  apply (copy_file_leaves_no_temp_file Scenario.share
           (Scenario.short_copies false) Scenario.download
           "/dl/a.mkv" "A.mkv").
  - intros n. reflexivity.
  - vm_compute. reflexivity.
Defined.

(** C8, as stated, fails: when all three attempts fail the engine has
    slept 1 and 2 seconds and never 4, since the third failure is raised at
    once. And when the removal of the temp file fails, the failure is
    passed over and the retry starts with the temp file still there. *)
Lemma copy_file_never_sleeps_four_seconds :
  (let out :=
     FileCopier.copy_file Scenario.share (Scenario.short_copies false)
       Scenario.download "/dl/a.mkv" "A.mkv" in
   FileCopier.attempts_of out.2 = [0; 1; 2]
   /\ FileCopier.sleeps_of out.2 = [1; 2]
   /\ FileCopier.sleeps_of out.2 <> [1; 2; 4])
  /\ (let out :=
        FileCopier.copy_file Scenario.share (Scenario.short_copies true)
          Scenario.download "/dl/a.mkv" "A.mkv" in
      exists snapshot,
        In (FileCopier.Attempt 1 snapshot) out.2
        /\ snapshot !! "/mnt/share/Movies/A.mkv.tmp" = Some 5).
Proof.
  split.
  - vm_compute. repeat split; [reflexivity..|discriminate].
  - cbv zeta.
    exists (<[ "/mnt/share/Movies/A.mkv.tmp" := 5 ]> Scenario.download).
    split; [|reflexivity].
    vm_compute. do 3 right. left. reflexivity.
Qed.

(** C8, amended. [copy_file] makes at most 3 attempts, numbered from 0, and
    stops at the first that succeeds. After a failed first attempt it
    sleeps 1 second and after a failed second attempt 2 seconds; after a
    failed third attempt it raises without sleeping. Every retry starts
    without a temp file, unless the removal after the attempt before it
    failed. *)
Theorem copy_file_bounded_retries
        (config : FileCopier.Config) (env : FileCopier.Env)
        (files : gmap string Z) (source_path filename : string) :
  let trace :=
    (FileCopier.copy_file config env files source_path filename).2 in
  (FileCopier.attempts_of trace = [] /\ FileCopier.sleeps_of trace = []
   \/ FileCopier.attempts_of trace = [0]
      /\ FileCopier.sleeps_of trace = []
   \/ FileCopier.attempts_of trace = [0; 1]
      /\ FileCopier.sleeps_of trace = [1]
   \/ FileCopier.attempts_of trace = [0; 1; 2]
      /\ FileCopier.sleeps_of trace = [1; 2])
  /\ (forall n snapshot,
        In (FileCopier.Attempt n snapshot) trace -> 0 < n ->
        FileCopier.remove_fails (FileCopier.attempt_faults env (n - 1))
        = false ->
        snapshot !! FileCopier.temp_path_of config filename = None).
Proof.
  cbv zeta.
  assert (FileCopier.temp_path_of config filename
          <> FileCopier.dest_path_of config filename) as Hne
    by apply append_tmp_ne.
  unfold FileCopier.copy_file.
  destruct (_ && _); [split; [now left|intros n s []]|].
  destruct (FileCopier.mkdir_error env) as [mkdir_error|];
    [split; [now left|intros n s []]|].
  destruct (files !! source_path) as [source_size|];
    [|split; [now left|intros n s []]].
  change (FileCopier.range FileCopier.max_retries) with [0; 1; 2].
  pose proof (retry_loop_schedule env source_path _ _ Hne files) as H.
  cbv zeta in H.
  destruct (FileCopier.retry_loop env [0; 1; 2] files source_path _ _)
    as [[files' r] trace].
  simpl in H. destruct H as [Hsched Hsnap].
  destruct r; simpl; (split; [right; exact Hsched|exact Hsnap]).
Qed.

Lemma copy_file_bounded_retries_witness :
  let trace :=
    (FileCopier.copy_file Scenario.share (Scenario.short_copies false)
       Scenario.download "/dl/a.mkv" "A.mkv").2 in
  In (FileCopier.Attempt 2 Scenario.download) trace
  /\ Scenario.download !! "/mnt/share/Movies/A.mkv.tmp" = None.
Proof.
  assert (In (FileCopier.Attempt 2 Scenario.download)
             (FileCopier.copy_file Scenario.share
                (Scenario.short_copies false) Scenario.download
                "/dl/a.mkv" "A.mkv").2) as Hin.
  { vm_compute. do 6 right. left. reflexivity. }
  split; [exact Hin|].
  apply (proj2 (copy_file_bounded_retries Scenario.share
                  (Scenario.short_copies false) Scenario.download
                  "/dl/a.mkv" "A.mkv") 2 Scenario.download Hin).
  - lia.
  - reflexivity.
Defined.

(** ** The record store *)

Lemma status_eqb_pending (s : Status.t) :
  Status.eqb s Status.pending = true <-> s = Status.pending.
Proof. destruct s; split; intros H; try reflexivity; discriminate. Qed.

Lemma find_none_filter {A : Type} (p : A -> bool) (l : list A) :
  List.find p l = None -> List.filter p l = [].
Proof.
  induction l as [|x l IH]; simpl; [reflexivity|].
  destruct (p x); [discriminate|exact IH].
Qed.

Lemma find_app_none {A : Type} (p : A -> bool) (l k : list A) :
  List.find p l = None -> List.find p (l ++ k) = List.find p k.
Proof.
  induction l as [|x l IH]; simpl; [reflexivity|].
  destruct (p x); [discriminate|exact IH].
Qed.

Lemma filter_unique_path (path : string) (l : list PendingMovie.t) :
  NoDup (map PendingMovie.original_path l) ->
  (length (List.filter
             (fun m => Str.eqb (PendingMovie.original_path m) path) l)
   <= 1)%nat.
Proof.
  induction l as [|x l IH]; simpl; intros Hnd; [lia|].
  apply NoDup_cons in Hnd as [Hnotin Hnd].
  destruct (Str.eqb (PendingMovie.original_path x) path) eqn:E;
    [|now apply IH].
  apply Str.eqb_eq in E. subst path.
  assert (List.filter
            (fun m => Str.eqb (PendingMovie.original_path m)
                              (PendingMovie.original_path x)) l = [])
    as ->; [|simpl; lia].
  clear IH Hnd. induction l as [|y l IH]; simpl; [reflexivity|].
  destruct (Str.eqb (PendingMovie.original_path y)
                    (PendingMovie.original_path x)) eqn:E.
  - apply Str.eqb_eq in E. exfalso. apply Hnotin.
    apply list_elem_of_In. simpl. left. exact E.
  - apply IH. intros H. apply Hnotin.
    apply list_elem_of_In. simpl. right. now apply list_elem_of_In.
Qed.

Section StoreProperties.

Variable st : Store.t.
Variable movie_id : Z.

Lemma pending_by_id_update (f : PendingMovie.t -> PendingMovie.t) :
  (forall m, PendingMovie.id (f m) = PendingMovie.id m) ->
  Store.pending_by_id (Store.update_pending st movie_id f) movie_id
  = f <$> Store.pending_by_id st movie_id.
Proof.
  intros Hid. unfold Store.pending_by_id, Store.update_pending. simpl.
  induction (Store.pending_movies st) as [|m l IH]; simpl; [reflexivity|].
  destruct (PendingMovie.id m =? movie_id) eqn:E; simpl.
  - now rewrite Hid, E.
  - rewrite E. exact IH.
Qed.

Lemma pending_by_id_delete :
  Store.pending_by_id (Store.delete_pending st movie_id) movie_id = None.
Proof.
  unfold Store.pending_by_id, Store.delete_pending. simpl.
  induction (Store.pending_movies st) as [|m l IH]; simpl; [reflexivity|].
  destruct (PendingMovie.id m =? movie_id) eqn:E; simpl; [exact IH|].
  rewrite E. exact IH.
Qed.

End StoreProperties.

(** ** The ingestion step *)

(** The constructor refuses the keywords of [process_file]. *)
Lemma constructor_refuses :
  PendingMovie.check_keywords FileProcessor.constructor_keywords
  = Raise (TypeError
             "'file_metadata' is an invalid keyword argument for PendingMovie").
Proof. reflexivity. Qed.

Lemma process_file_store (now : Z) (st : Store.t)
      (info : FileProcessor.file_info) :
  (FileProcessor.process_file now st info).1 = st.
Proof.
  unfold FileProcessor.process_file. rewrite constructor_refuses.
  now destruct (Store.pending_by_path st (FileProcessor.path info)).
Qed.

Lemma process_file_tracked (now : Z) (st : Store.t)
      (info : FileProcessor.file_info) :
  Store.pending_by_path st (FileProcessor.path info) <> None ->
  FileProcessor.process_file now st info = (st, Ok None).
Proof.
  unfold FileProcessor.process_file.
  now destruct (Store.pending_by_path st (FileProcessor.path info)).
Qed.

Lemma process_file_untracked (now : Z) (st : Store.t)
      (info : FileProcessor.file_info) :
  Store.pending_by_path st (FileProcessor.path info) = None ->
  FileProcessor.process_file now st info
  = (st,
     Raise (DatabaseError
              "Failed to add file to database: 'file_metadata' is an invalid keyword argument for PendingMovie")).
Proof.
  intros E. unfold FileProcessor.process_file.
  now rewrite E, constructor_refuses.
Qed.

(** C4. The claim fails on the code. [process_file] calls the constructor
    of [PendingMovie] with the keyword [file_metadata], while the class
    names the column [metadata]: the constructor raises [TypeError], which
    is no [IntegrityError], and the last handler raises [DatabaseError].
    So for every file whose path is not tracked the call raises and stores
    nothing, and processing such a file twice gives two errors and no
    pending record, where the claim wants one record and [None] from the
    second call. Only for a path that is tracked already, by a row that
    came into the table some other way, is the answer [None]. *)
Theorem process_file_raises_on_new_path :
  (forall now st info,
      (FileProcessor.process_file now st info).1 = st)
  /\ (forall now st info,
         Store.pending_by_path st (FileProcessor.path info) = None ->
         (FileProcessor.process_file now st info).2
         = Raise (DatabaseError
                    "Failed to add file to database: 'file_metadata' is an invalid keyword argument for PendingMovie"))
  /\ (forall now st info,
         Store.pending_by_path st (FileProcessor.path info) <> None ->
         (FileProcessor.process_file now st info).2 = Ok None)
  /\ (let first :=
        FileProcessor.process_file 5 Store.empty Scenario.a_file in
      let second :=
        FileProcessor.process_file 6 first.1 Scenario.a_file in
      first.2
      = Raise (DatabaseError
                 "Failed to add file to database: 'file_metadata' is an invalid keyword argument for PendingMovie")
      /\ second.2 = first.2
      /\ Store.tracking second.1 "/dl/a.mkv" = []).
Proof.
  split; [apply process_file_store|]. split.
  { intros now st info E. now rewrite process_file_untracked. }
  split.
  { intros now st info E. now rewrite process_file_tracked. }
  cbv zeta. repeat split; vm_compute; reflexivity.
Qed.

(** ** The orchestrator *)

Section MovieManagerProperties.

Import MovieManager.

Variable config : Config.

Lemma approve_begin_blocked (st : Store.t) (movie_id : Z) :
  blocked st movie_id ->
  exists o, approve_begin st movie_id = (st, inl o)
            /\ guard_failure movie_id o.
Proof.
  unfold approve_begin.
  intros [->|(m & -> & Hs)].
  - eexists. split; [reflexivity|now left].
  - destruct (Status.eqb (PendingMovie.status m) Status.pending) eqn:E.
    + apply status_eqb_pending in E. contradiction.
    + simpl. eexists. split; [reflexivity|]. right. eauto.
Qed.

Lemma approve_begin_cases (st : Store.t) (movie_id : Z) :
  blocked st movie_id
  \/ exists m,
      Store.pending_by_id st movie_id = Some m
      /\ PendingMovie.status m = Status.pending
      /\ approve_begin st movie_id
         = (Store.update_pending st movie_id
              (PendingMovie.with_status Status.processing),
            inr (PendingMovie.with_status Status.processing m)).
Proof.
  unfold approve_begin, blocked.
  destruct (Store.pending_by_id st movie_id) as [m|] eqn:E;
    [|left; left; reflexivity].
  destruct (Status.eqb (PendingMovie.status m) Status.pending) eqn:Es.
  - apply status_eqb_pending in Es. right. exists m.
    split; [reflexivity|]. split; [exact Es|reflexivity].
  - left. right. eexists. split; [reflexivity|].
    intros H. apply status_eqb_pending in H. congruence.
Qed.

(** Once the status is [processing], no approval can start. *)
Lemma processing_blocks (st : Store.t) (movie_id : Z) (m : PendingMovie.t) :
  Store.pending_by_id st movie_id = Some m ->
  blocked (Store.update_pending st movie_id
             (PendingMovie.with_status Status.processing)) movie_id.
Proof.
  intros E. right. rewrite pending_by_id_update by reflexivity.
  rewrite E. simpl. eexists. split; [reflexivity|]. discriminate.
Qed.

Lemma mark_failed_blocks (st : Store.t) (movie_id : Z) (e : exn) :
  blocked (mark_failed st movie_id e).1 movie_id
  /\ success (mark_failed st movie_id e).2 = false
  /\ Store.processed_movies (mark_failed st movie_id e).1
     = Store.processed_movies st.
Proof.
  assert (blocked
            (Store.update_pending st movie_id
               (fun m => PendingMovie.with_error (exn_str e)
                           (PendingMovie.with_status Status.failed m)))
            movie_id) as Hb.
  { unfold blocked. rewrite pending_by_id_update by reflexivity.
    destruct (Store.pending_by_id st movie_id) as [m|]; simpl;
      [|now left].
    right. eexists. split; [reflexivity|]. discriminate. }
  unfold mark_failed. destruct e; simpl; auto.
Qed.

Lemma mark_failed_cases (st : Store.t) (movie_id : Z) (e : exn) :
  (mark_failed st movie_id e).1
  = Store.update_pending st movie_id (failed_with (exn_str e))
  /\ ((mark_failed st movie_id e).2 = Failure (exn_str e)
      \/ (mark_failed st movie_id e).2
         = Failure ("Unexpected error: " +:+ exn_str e)).
Proof. destruct e; simpl; auto. Qed.

Lemma mark_failed_unexpected (st : Store.t) (movie_id : Z) (e : exn) :
  (exists msg, e = VersionDetectionError msg)
  \/ (exists msg, e = OverflowError msg) ->
  mark_failed st movie_id e
  = (Store.update_pending st movie_id (failed_with (exn_str e)),
     Failure ("Unexpected error: " +:+ exn_str e)).
Proof.
  intros [[msg ->]|[msg ->]]; reflexivity.
Qed.

Lemma bind_integer_cases (n : Z) :
  (Store.fits_integer n = true /\ Store.bind_integer n = Ok n)
  \/ (Store.fits_integer n = false
      /\ Store.bind_integer n
         = Raise (OverflowError
                    "Python int too large to convert to SQLite INTEGER")).
Proof.
  unfold Store.bind_integer. destruct (Store.fits_integer n); auto.
Qed.

Lemma approve_finish_outcome (env : Env) (st : Store.t)
      (files : gmap string Z) (movie m : PendingMovie.t) (movie_id : Z)
      (delete_source : bool) :
  Store.pending_by_id st movie_id = Some m ->
  let out := approve_finish config env st files movie movie_id
               delete_source in
  let source := PendingMovie.original_path movie in
  let succeeds :=
    exists new_filename output fn v fp,
      MovieRenamer.rename_movie (mnamer config) (run env)
        (_parse_mnamer_output env) files source
      = Ok (Some new_filename, output)
      /\ VersionDetector.detect_version_call (detection_error env)
           (ratio env) (version_detection config) new_filename
           (_list_directory (listdir_fails env) files (target_dir config))
         = Ok (fn, v)
      /\ (FileCopier.copy_file (network_share config) (copier env) files
            source fn).1.2 = Ok fp
      /\ v < 2 ^ 63 in
  (succeeds
   /\ success out.1.2 = true
   /\ Store.pending_by_id out.1.1.1 movie_id = None
   /\ out.2 = 1%nat)
  \/ (~ succeeds
      /\ success out.1.2 = false
      /\ exists msg,
          out.1.1.1 = Store.update_pending st movie_id (failed_with msg)).
Proof.
  intros E. cbv zeta. unfold approve_finish.
  assert (forall e (n : nat) (fs : gmap string Z),
             let out :=
               (let '(st', o) := mark_failed st movie_id e in
                (st', fs, o, n)) in
             success out.1.2 = false
             /\ exists msg,
                 out.1.1.1
                 = Store.update_pending st movie_id (failed_with msg))
    as Hfail.
  { intros e n fs. cbv zeta.
    pose proof (mark_failed_cases st movie_id e) as [Hst _].
    pose proof (mark_failed_blocks st movie_id e) as (_ & Hs & _).
    destruct (mark_failed st movie_id e) as [st' o]. cbn [fst snd] in *.
    split; [exact Hs|]. eauto. }
  destruct (MovieRenamer.rename_movie _ _ _ _ _)
    as [[[new_filename|] output]|e] eqn:Hren.
  2:{ right. split; [|apply Hfail].
      intros (nf & o & fn & v & fp & Hr & _). discriminate. }
  2:{ right. split; [|apply Hfail].
      intros (nf & o & fn & v & fp & Hr & _). discriminate. }
  destruct (VersionDetector.detect_version_call _ _ _ _ _)
    as [[versioned_filename version_number]|e] eqn:Hdet.
  2:{ right. split; [|apply Hfail].
      intros (nf & o & fn & v & fp & [= <- <-] & Hd & _). congruence. }
  pose proof (detect_version_call_at_least_1 _ _ _ _ _ _ _ Hdet) as Hv.
  destruct (FileCopier.copy_file _ _ _ _ _)
    as [[files1 [final_path|e]] trace] eqn:Hcopy.
  2:{ right. split; [|apply Hfail].
      intros (nf & o & fn & v & fp & [= <- <-] & Hd & Hc & _).
      rewrite Hdet in Hd. injection Hd as <- <-.
      rewrite Hcopy in Hc. discriminate. }
  unfold record_approval. rewrite E.
  destruct (bind_integer_cases version_number) as [[Hfit ->]|[Hfit ->]].
  - left. split.
    { exists new_filename, output, versioned_filename, version_number,
        final_path.
      split; [reflexivity|]. split; [exact Hdet|].
      split; [now rewrite Hcopy|].
      unfold Store.fits_integer in Hfit. lia. }
    cbn [fst snd]. split; [reflexivity|].
    split; [apply pending_by_id_delete|reflexivity].
  - right. split; [|apply Hfail].
    intros (nf & o & fn & v & fp & [= <- <-] & Hd & _ & Hlt).
    rewrite Hdet in Hd. injection Hd as <- <-.
    unfold Store.fits_integer in Hfit. lia.
Qed.

(** The external part of an approval makes one transfer at most, leaves
    the record unable to start another approval, and adds to the history
    at most one record, an approved one that is well formed. *)
Lemma approve_finish_spec (env : Env) (st : Store.t)
      (files : gmap string Z) (movie : PendingMovie.t) (movie_id : Z)
      (delete_source : bool) :
  let out := approve_finish config env st files movie movie_id
               delete_source in
  (out.2 <= 1)%nat
  /\ blocked out.1.1.1 movie_id
  /\ exists created,
      Store.processed_movies out.1.1.1
      = Store.processed_movies st ++ created
      /\ Forall (fun r => ProcessedMovie.action r = Action.approved
                          /\ terminal_ok r) created.
Proof.
  cbv zeta. unfold approve_finish.
  assert (forall e n (fs : gmap string Z),
             let out :=
               (let '(st', o) := mark_failed st movie_id e in
                (st', fs, o, n)) in
             (n <= 1)%nat ->
             (out.2 <= 1)%nat
             /\ blocked out.1.1.1 movie_id
             /\ exists created,
                 Store.processed_movies out.1.1.1
                 = Store.processed_movies st ++ created
                 /\ Forall (fun r => ProcessedMovie.action r
                                     = Action.approved
                                     /\ terminal_ok r) created) as Hfail.
  { intros e n fs. cbv zeta. intros Hn.
    pose proof (mark_failed_blocks st movie_id e) as (Hb & _ & Hp).
    destruct (mark_failed st movie_id e) as [st' o]. simpl in *.
    split; [lia|]. split; [exact Hb|].
    exists []. split; [now rewrite app_nil_r|constructor]. }
  destruct (MovieRenamer.rename_movie _ _ _ _ _)
    as [[[new_filename|] output]|e];
    [|apply Hfail; lia|apply Hfail; lia].
  destruct (detect_version_call_cases (detection_error env) (ratio env)
              (version_detection config) new_filename
              (_list_directory (listdir_fails env) files
                 (target_dir config)))
    as [(msg & _ & _ & ->)|(_ & ->)]; [apply Hfail; lia|].
  pose proof (detect_version_at_least_1 (ratio env)
                (version_detection config) new_filename
                (_list_directory (listdir_fails env) files
                   (target_dir config))) as Hv.
  destruct (VersionDetector.detect_version _ _ _ _)
    as [versioned_filename version_number].
  simpl in Hv.
  destruct (FileCopier.copy_file _ _ _ _ _)
    as [[files1 [final_path|e]] trace]; [|apply Hfail; lia].
  unfold record_approval.
  destruct (Store.pending_by_id st movie_id) as [pending_movie|] eqn:E.
  - destruct (Store.bind_integer version_number) as [v|e];
      [|apply Hfail; lia].
    simpl. split; [lia|].
    split; [left; apply pending_by_id_delete|].
    eexists. split; [reflexivity|].
    constructor; [|constructor]. split; [reflexivity|].
    unfold terminal_ok. simpl. repeat split; eauto.
  - simpl. split; [lia|].
    split; [now left|]. exists []. split; [now rewrite app_nil_r|].
    constructor.
Qed.

Lemma approve_movie_blocked (env : Env) (st : Store.t)
      (files : gmap string Z) (movie_id : Z) (delete_source : bool) :
  blocked st movie_id ->
  exists o,
    approve_movie config env st files movie_id delete_source
    = (st, files, o, 0%nat)
    /\ guard_failure movie_id o.
Proof.
  intros Hb. unfold approve_movie.
  destruct (approve_begin_blocked st movie_id Hb) as (o & -> & Hg).
  eauto.
Qed.

Lemma approve_movie_spec (env : Env) (st : Store.t)
      (files : gmap string Z) (movie_id : Z) (delete_source : bool) :
  let out := approve_movie config env st files movie_id delete_source in
  (out.2 <= 1)%nat
  /\ blocked out.1.1.1 movie_id
  /\ exists created,
      Store.processed_movies out.1.1.1
      = Store.processed_movies st ++ created
      /\ Forall (fun r => ProcessedMovie.action r = Action.approved
                          /\ terminal_ok r) created.
Proof.
  cbv zeta.
  destruct (approve_begin_cases st movie_id) as [Hb|(m & E & Hs & Hbegin)].
  - destruct (approve_movie_blocked env st files movie_id delete_source Hb)
      as (o & -> & _). simpl.
    split; [lia|]. split; [exact Hb|].
    exists []. split; [now rewrite app_nil_r|constructor].
  - unfold approve_movie. rewrite Hbegin.
    apply (approve_finish_spec env
             (Store.update_pending st movie_id
                (PendingMovie.with_status Status.processing))).
Qed.

End MovieManagerProperties.

Lemma guard_failure_unsuccessful (movie_id : Z) (o : MovieManager.outcome) :
  MovieManager.guard_failure movie_id o -> MovieManager.success o = false.
Proof. intros [->|(s & _ & ->)]; reflexivity. Qed.

Lemma reject_movie_spec (env : MovieManager.Env)
      (st : Store.t) (files : gmap string Z) (movie_id : Z)
      (delete_source : bool) :
  exists created,
    Store.processed_movies
      (MovieManager.reject_movie env st files movie_id delete_source).1.1
    = Store.processed_movies st ++ created
    /\ Forall (fun r => ProcessedMovie.action r = Action.rejected
                        /\ MovieManager.terminal_ok r) created.
Proof.
  unfold MovieManager.reject_movie.
  destruct (Store.pending_by_id st movie_id) as [movie|]; simpl.
  - eexists. split; [reflexivity|].
    constructor; [|constructor]. split; [reflexivity|].
    unfold MovieManager.terminal_ok. simpl. now split.
  - exists []. split; [now rewrite app_nil_r|constructor].
Qed.

(** C2. Every record that [approve_movie] adds to the history is an
    approved one with a final path, a final file name and a version number
    of at least 1; every record that [reject_movie] adds is a rejected one
    whose final path and final file name are both null. Neither changes
    the records already there. *)
Theorem terminal_records_well_formed
        (config : MovieManager.Config) (env : MovieManager.Env)
        (st : Store.t) (files : gmap string Z) (movie_id : Z)
        (delete_source : bool) :
  (exists created,
     Store.processed_movies
       (MovieManager.approve_movie config env st files movie_id
          delete_source).1.1.1
     = Store.processed_movies st ++ created
     /\ Forall (fun r => ProcessedMovie.action r = Action.approved
                         /\ MovieManager.terminal_ok r) created)
  /\ (exists created,
        Store.processed_movies
          (MovieManager.reject_movie env st files movie_id
             delete_source).1.1
        = Store.processed_movies st ++ created
        /\ Forall (fun r => ProcessedMovie.action r = Action.rejected
                            /\ MovieManager.terminal_ok r) created).
Proof.
  split.
  - apply approve_movie_spec.
  - apply reject_movie_spec.
Qed.

(** C3, as stated, fails: when the renamer times out, two approvals of a
    pending record give no success at all, the first failing on the
    renamer and the second on the guard. And when the first approval
    succeeds, the second one, run after it, is answered "not found",
    the record being deleted, and not "invalid state". *)
Lemma double_approval_without_success :
  (let out :=
     MovieManager.approve_twice Scenario.manager_config
       (Scenario.manager_env true) (Scenario.manager_env true)
       Scenario.one_pending Scenario.download 1 false false in
   out.1.1.2 = MovieManager.Failure "mnamer timed out for file: /dl/a.mkv"
   /\ out.1.2 = MovieManager.Failure "Movie is not pending (status: failed)"
   /\ out.2 = 0%nat)
  /\ (let out :=
        MovieManager.approve_twice Scenario.manager_config
          (Scenario.manager_env false) (Scenario.manager_env false)
          Scenario.one_pending Scenario.download 1 false false in
      MovieManager.success out.1.1.2 = true
      /\ out.1.2 = MovieManager.Failure "Movie with ID 1 not found").
Proof. vm_compute. repeat split; reflexivity. Qed.

(** C3, amended. An id outside the 64-bit range of the key column makes
    the call raise [OverflowError], no structured result being returned
    and nothing being changed. For an id inside that range: if the record
    is missing or not pending, [approve_movie] returns the unsuccessful
    "not found" or "not pending" result, makes no transfer and changes
    neither the store nor the files. Of two approvals of the same id the
    second always gets such a result and changes nothing, so that there is
    at most one success and at most one transfer; this holds when the
    second runs after the first, and when its guard runs while the first
    is in [processing], where the answer is "not pending (status:
    processing)". For a pending record the first approval succeeds exactly
    when the renamer gives a name, the version check does not raise, the
    transfer succeeds and the version number is below 2^63; the second,
    run after it, is then answered "not found", after one transfer, and
    otherwise "not pending (status: failed)". *)
Theorem approve_guard_and_double_approval
        (config : MovieManager.Config) (env1 env2 : MovieManager.Env)
        (st : Store.t) (files : gmap string Z) (movie_id : Z)
        (delete_source1 delete_source2 : bool) :
  ((movie_id < - 2 ^ 63 \/ 2 ^ 63 <= movie_id) ->
   forall env st' files' delete_source,
     MovieManager.approve_movie_call config env st' files' movie_id
       delete_source
     = (st', files',
        Raise (OverflowError
                 "Python int too large to convert to SQLite INTEGER")))
  /\ (- 2 ^ 63 <= movie_id < 2 ^ 63 ->
      (forall env st' files' delete_source,
          MovieManager.approve_movie_call config env st' files' movie_id
            delete_source
          = (let '(st'', files'', o, n) :=
               MovieManager.approve_movie config env st' files' movie_id
                 delete_source in
             (st'', files'', Ok (o, n))))
      /\ (Store.pending_by_id st movie_id = None ->
          MovieManager.approve_movie_call config env1 st files movie_id
            delete_source1
          = (st, files,
             Ok (MovieManager.Failure (MovieManager.not_found movie_id),
                 0%nat)))
      /\ (forall movie,
             Store.pending_by_id st movie_id = Some movie ->
             PendingMovie.status movie <> Status.pending ->
             MovieManager.approve_movie_call config env1 st files movie_id
               delete_source1
             = (st, files,
                Ok (MovieManager.Failure
                      (MovieManager.not_pending
                         (PendingMovie.status movie)),
                    0%nat)))
      /\ (let first :=
            MovieManager.approve_movie config env1 st files movie_id
              delete_source1 in
          let both :=
            MovieManager.approve_twice config env1 env2 st files movie_id
              delete_source1 delete_source2 in
          both.1.1.2 = first.1.2
          /\ MovieManager.guard_failure movie_id both.1.2
          /\ MovieManager.success both.1.2 = false
          /\ both.1.1.1.1 = first.1.1.1
          /\ both.1.1.1.2 = first.1.1.2
          /\ both.2 = first.2
          /\ (both.2 <= 1)%nat)
      /\ (let first :=
            MovieManager.approve_movie config env1 st files movie_id
              delete_source1 in
          let both :=
            MovieManager.approve_twice_overlapping config env1 env2 st
              files movie_id delete_source1 delete_source2 in
          MovieManager.guard_failure movie_id both.1.2
          /\ MovieManager.success both.1.2 = false
          /\ (both.2 <= 1)%nat
          /\ (~ MovieManager.blocked st movie_id ->
              both
              = (first.1.1.1, first.1.1.2, first.1.2,
                 MovieManager.Failure
                   (MovieManager.not_pending Status.processing),
                 first.2)))
      /\ (forall movie,
             Store.pending_by_id st movie_id = Some movie ->
             PendingMovie.status movie = Status.pending ->
             let first :=
               MovieManager.approve_movie config env1 st files movie_id
                 delete_source1 in
             let both :=
               MovieManager.approve_twice config env1 env2 st files
                 movie_id delete_source1 delete_source2 in
             let source := PendingMovie.original_path movie in
             (MovieManager.success first.1.2 = true
              <-> exists new_filename output fn v fp,
                  MovieRenamer.rename_movie (MovieManager.mnamer config)
                    (MovieManager.run env1)
                    (MovieManager._parse_mnamer_output env1) files source
                  = Ok (Some new_filename, output)
                  /\ VersionDetector.detect_version_call
                       (MovieManager.detection_error env1)
                       (MovieManager.ratio env1)
                       (MovieManager.version_detection config)
                       new_filename
                       (MovieManager._list_directory
                          (MovieManager.listdir_fails env1) files
                          (MovieManager.target_dir config))
                     = Ok (fn, v)
                  /\ (FileCopier.copy_file
                        (MovieManager.network_share config)
                        (MovieManager.copier env1) files source fn).1.2
                     = Ok fp
                  /\ v < 2 ^ 63)
             /\ (MovieManager.success first.1.2 = true ->
                 both.1.2
                 = MovieManager.Failure (MovieManager.not_found movie_id)
                 /\ both.2 = 1%nat)
             /\ (MovieManager.success first.1.2 = false ->
                 both.1.2
                 = MovieManager.Failure
                     (MovieManager.not_pending Status.failed)))).
Proof.
  split.
  { intros Hout env st' files' delete_source.
    unfold MovieManager.approve_movie_call, Store.bind_integer.
    replace (Store.fits_integer movie_id) with false; [reflexivity|].
    unfold Store.fits_integer. lia. }
  intros Hin.
  assert (forall env st' files' delete_source,
             MovieManager.approve_movie_call config env st' files' movie_id
               delete_source
             = (let '(st'', files'', o, n) :=
                  MovieManager.approve_movie config env st' files' movie_id
                    delete_source in
                (st'', files'', Ok (o, n)))) as Hcall.
  { intros env st' files' delete_source.
    unfold MovieManager.approve_movie_call, Store.bind_integer.
    replace (Store.fits_integer movie_id) with true; [reflexivity|].
    unfold Store.fits_integer. lia. }
  split; [exact Hcall|]. split; [|split; [|split; [|split]]].
  - intros E. rewrite Hcall.
    unfold MovieManager.approve_movie, MovieManager.approve_begin.
    now rewrite E.
  - intros movie E Hs. rewrite Hcall.
    unfold MovieManager.approve_movie, MovieManager.approve_begin.
    rewrite E.
    destruct (Status.eqb (PendingMovie.status movie) Status.pending) eqn:Es;
      [|reflexivity].
    apply status_eqb_pending in Es. contradiction.
  - cbv zeta. unfold MovieManager.approve_twice.
    pose proof (approve_movie_spec config env1 st files movie_id
                  delete_source1) as (Hn & Hb & _).
    destruct (MovieManager.approve_movie config env1 st files movie_id
                delete_source1) as [[[st1 files1] o1] n1].
    simpl in Hn, Hb.
    destruct (approve_movie_blocked config env2 st1 files1 movie_id
                delete_source2 Hb) as (o2 & -> & Hg).
    simpl. split; [reflexivity|]. split; [exact Hg|].
    split; [now apply (guard_failure_unsuccessful movie_id)|].
    split; [reflexivity|]. split; [reflexivity|]. split; lia.
  - cbv zeta. unfold MovieManager.approve_twice_overlapping.
    destruct (approve_begin_cases st movie_id) as [Hb|(m & E & Hs & Hbegin)].
    + destruct (approve_begin_blocked st movie_id Hb) as (o1 & -> & _).
      destruct (approve_movie_blocked config env2 st files movie_id
                  delete_source2 Hb) as (o2 & -> & Hg).
      simpl. split; [exact Hg|].
      split; [now apply (guard_failure_unsuccessful movie_id)|].
      split; [lia|]. intros Hnb. contradiction.
    + unfold MovieManager.approve_movie. rewrite Hbegin.
      assert (MovieManager.approve_begin
                (Store.update_pending st movie_id
                   (PendingMovie.with_status Status.processing)) movie_id
              = (Store.update_pending st movie_id
                   (PendingMovie.with_status Status.processing),
                 inl (MovieManager.Failure
                        (MovieManager.not_pending Status.processing))))
        as ->.
      { unfold MovieManager.approve_begin.
        rewrite pending_by_id_update by reflexivity. rewrite E.
        reflexivity. }
      pose proof (approve_finish_spec config env1
                    (Store.update_pending st movie_id
                       (PendingMovie.with_status Status.processing))
                    files (PendingMovie.with_status Status.processing m)
                    movie_id delete_source1) as (Hn & _ & _).
      destruct (MovieManager.approve_finish _ _ _ _ _ _ _)
        as [[[st3 files3] o1] n1].
      simpl in *. split; [right; eexists; split; [|reflexivity]; discriminate|].
      split; [reflexivity|]. split; [exact Hn|]. reflexivity.
  - intros movie E Hs. cbv zeta.
    destruct (approve_begin_cases st movie_id)
      as [Hb|(m & E' & _ & Hbegin)].
    { exfalso. destruct Hb as [Hb|(m & Hm & Hne)]; congruence. }
    rewrite E in E'. injection E' as <-.
    set (st1 := Store.update_pending st movie_id
                  (PendingMovie.with_status Status.processing)) in *.
    assert (Store.pending_by_id st1 movie_id
            = Some (PendingMovie.with_status Status.processing movie))
      as E1.
    { unfold st1. rewrite pending_by_id_update by reflexivity.
      now rewrite E. }
    pose proof (approve_finish_outcome config env1 st1 files
                  (PendingMovie.with_status Status.processing movie)
                  (PendingMovie.with_status Status.processing movie)
                  movie_id delete_source1 E1) as Hout.
    cbv zeta in Hout.
    change (PendingMovie.original_path
              (PendingMovie.with_status Status.processing movie))
      with (PendingMovie.original_path movie) in Hout.
    assert (MovieManager.approve_movie config env1 st files movie_id
              delete_source1
            = MovieManager.approve_finish config env1 st1 files
                (PendingMovie.with_status Status.processing movie)
                movie_id delete_source1) as Hfirst.
    { unfold MovieManager.approve_movie. now rewrite Hbegin. }
    unfold MovieManager.approve_twice. rewrite Hfirst.
    destruct (MovieManager.approve_finish config env1 st1 files _ movie_id
                delete_source1) as [[[st2 files2] o1] n1].
    cbn [fst snd] in Hout.
    destruct Hout as [(Hsucc & Ho & Hgone & Hn)|(Hnot & Ho & msg & Hst)].
    + unfold MovieManager.approve_movie, MovieManager.approve_begin.
      rewrite Hgone. cbn [fst snd]. split; [now split|].
      split; [|congruence]. intros _. split; [reflexivity|lia].
    + unfold MovieManager.approve_movie, MovieManager.approve_begin.
      rewrite Hst, pending_by_id_update, E1 by reflexivity.
      cbn [fst snd]. split; [|split; [congruence|reflexivity]].
      split; [congruence|]. intros H. contradiction.
Qed.

Lemma approve_guard_and_double_approval_witness :
  let both :=
    MovieManager.approve_twice Scenario.manager_config
      (Scenario.manager_env false) (Scenario.manager_env false)
      Scenario.one_pending Scenario.download 1 false false in
  MovieManager.success both.1.1.2 = true
  /\ both.1.2 = MovieManager.Failure "Movie with ID 1 not found"
  /\ both.2 = 1%nat
  /\ MovieManager.approve_movie_call Scenario.manager_config
       (Scenario.manager_env false) Scenario.one_pending Scenario.download
       2 false
     = (Scenario.one_pending, Scenario.download,
        Ok (MovieManager.Failure "Movie with ID 2 not found", 0%nat))
  /\ MovieManager.approve_movie_call Scenario.manager_config
       (Scenario.manager_env false) Scenario.one_pending Scenario.download
       (2 ^ 63) false
     = (Scenario.one_pending, Scenario.download,
        Raise (OverflowError
                 "Python int too large to convert to SQLite INTEGER")).
Proof.
  pose proof (approve_guard_and_double_approval Scenario.manager_config
                (Scenario.manager_env false) (Scenario.manager_env false)
                Scenario.one_pending Scenario.download 1 false false)
    as (_ & Hone).
  pose proof (approve_guard_and_double_approval Scenario.manager_config
                (Scenario.manager_env false) (Scenario.manager_env false)
                Scenario.one_pending Scenario.download 2 false false)
    as (_ & Htwo).
  pose proof (approve_guard_and_double_approval Scenario.manager_config
                (Scenario.manager_env false) (Scenario.manager_env false)
                Scenario.one_pending Scenario.download (2 ^ 63) false false)
    as (Hbig & _).
  destruct (Hone ltac:(lia)) as (_ & _ & _ & Hsame & _ & Hpending).
  destruct (Htwo ltac:(lia)) as (_ & Hmissing & _).
  cbv zeta in *.
  destruct Hsame as (Hfirst & _).
  destruct (Hpending _ eq_refl eq_refl) as (_ & Hsecond & _).
  assert (MovieManager.success
            (MovieManager.approve_movie Scenario.manager_config
               (Scenario.manager_env false) Scenario.one_pending
               Scenario.download 1 false).1.2 = true) as Hok
    by (vm_compute; reflexivity).
  destruct (Hsecond Hok) as [Hnf Hn].
  split; [rewrite Hfirst; exact Hok|]. split; [exact Hnf|].
  split; [exact Hn|]. split; [apply Hmissing; reflexivity|].
  apply Hbig. right. lia.
Defined.

(** * Further properties *)

(** ** The transfer engine: what a transfer changes *)

Section FileCopierTransfers.

Import FileCopier.

Variable env : Env.
Variables source_path temp_path dest_path : string.
Hypothesis temp_ne_dest : temp_path <> dest_path.

Implicit Type files : gmap string Z.

(** One pass through the inner [try], with what it does to the files. *)
Lemma try_copy_effect (faults : attempt_env) files :
  let out := try_copy faults files source_path temp_path dest_path in
  match out.1.2 with
  | Ok path =>
      path = dest_path
      /\ out.1.1 !! temp_path = None
      /\ (source_path <> temp_path ->
          out.1.1 !! dest_path = files !! source_path)
      /\ forall k, k <> temp_path -> k <> dest_path ->
                   out.1.1 !! k = files !! k
  | Raise _ => forall k, k <> temp_path -> out.1.1 !! k = files !! k
  end.
Proof.
  cbv zeta. unfold try_copy, _stream_copy.
  destruct (files !! source_path) as [size|] eqn:Hsrc; [|simpl; auto].
  destruct (stream faults) as [error|written error|written]; simpl.
  - auto.
  - intros k Hk. now rewrite lookup_insert_ne.
  - destruct (_verify_copy _ _ _) eqn:Hv; simpl.
    + unfold os_rename. rewrite lookup_insert_eq.
      destruct (rename_error faults); simpl.
      * intros k Hk. now rewrite lookup_insert_ne.
      * split; [reflexivity|]. split.
        { rewrite lookup_insert_ne by congruence. apply lookup_delete_eq. }
        split.
        { intros Hne. rewrite lookup_insert_eq.
          unfold _verify_copy in Hv.
          rewrite lookup_insert_ne, Hsrc, lookup_insert_eq in Hv
            by congruence.
          apply Z.eqb_eq in Hv. now subst. }
        intros k Hk Hd.
        rewrite lookup_insert_ne, lookup_delete_ne, lookup_insert_ne
          by congruence.
        reflexivity.
    + intros k Hk. now rewrite lookup_insert_ne.
Qed.

(** The retry loop: a success publishes the source's size under the final
    name and leaves no temp file; a failure changes nothing but the temp
    file. *)
Lemma retry_loop_effect (attempts : list Z) files :
  let out :=
    retry_loop env attempts files source_path temp_path dest_path in
  match out.1.2 with
  | Ok path =>
      path = dest_path
      /\ out.1.1 !! temp_path = None
      /\ (source_path <> temp_path ->
          out.1.1 !! dest_path = files !! source_path)
      /\ forall k, k <> temp_path -> k <> dest_path ->
                   out.1.1 !! k = files !! k
  | Raise _ => forall k, k <> temp_path -> out.1.1 !! k = files !! k
  end.
Proof.
  revert files. induction attempts as [|attempt rest IH]; intros files.
  - simpl. auto.
  - cbv zeta. rewrite retry_loop_cons. cbv zeta.
    pose proof (try_copy_effect (attempt_faults env attempt) files) as Ht.
    cbv zeta in Ht.
    destruct (try_copy (attempt_faults env attempt) files source_path
                temp_path dest_path) as [[files1 [path|e]] events];
      simpl in Ht; [exact Ht|].
    destruct (attempt =? max_retries - 1).
    + simpl. intros k Hk. rewrite clean_up_other by exact Hk.
      now apply Ht.
    + specialize (IH (clean_up (attempt_faults env attempt) files1
                               temp_path)).
      cbv zeta in IH.
      destruct (retry_loop env rest _ _ _ _) as [[files3 r3] trace3].
      simpl in *. destruct r3 as [path|e3].
      * destruct IH as (Hp & Htmp & Hsz & Hfr).
        split; [exact Hp|]. split; [exact Htmp|]. split.
        { intros Hne. rewrite (Hsz Hne).
          rewrite clean_up_other by exact Hne. now apply Ht. }
        intros k Hk Hd. rewrite (Hfr k Hk Hd).
        rewrite clean_up_other by exact Hk. now apply Ht.
      * intros k Hk. rewrite (IH k Hk).
        rewrite clean_up_other by exact Hk. now apply Ht.
Qed.

(** An attempt on which nothing goes wrong succeeds. *)
Lemma try_copy_clean (faults : attempt_env) files (size : Z) :
  files !! source_path = Some size ->
  source_path <> temp_path ->
  stream faults = Completes size ->
  rename_error faults = None ->
  (try_copy faults files source_path temp_path dest_path).1.2
  = Ok dest_path.
Proof.
  intros Hsrc Hne Hs Hr. unfold try_copy, _stream_copy.
  rewrite Hsrc, Hs. unfold _verify_copy, os_rename.
  rewrite lookup_insert_ne, Hsrc, !lookup_insert_eq by congruence.
  now rewrite Z.eqb_refl, Hr.
Qed.

(** One good attempt among the three is enough. *)
Lemma retry_loop_recovers files (size good : Z) :
  files !! source_path = Some size ->
  source_path <> temp_path ->
  0 <= good <= 2 ->
  stream (attempt_faults env good) = Completes size ->
  rename_error (attempt_faults env good) = None ->
  (retry_loop env [0; 1; 2] files source_path temp_path dest_path).1.2
  = Ok dest_path.
Proof.
  intros Hsrc Hne Hgood Hs Hr.
  assert (forall attempt rest fs,
             fs !! source_path = Some size ->
             (attempt = good
              \/ (attempt <> max_retries - 1
                  /\ forall fs',
                      fs' !! source_path = Some size ->
                      (retry_loop env rest fs' source_path temp_path
                                  dest_path).1.2 = Ok dest_path)) ->
             (retry_loop env (attempt :: rest) fs source_path temp_path
                         dest_path).1.2 = Ok dest_path) as Hstep.
  { intros attempt rest fs Hfs Hcase. rewrite retry_loop_cons. cbv zeta.
    pose proof (try_copy_effect (attempt_faults env attempt) fs) as Ht.
    cbv zeta in Ht.
    destruct (try_copy (attempt_faults env attempt) fs source_path
                temp_path dest_path) as [[fs1 [path|e]] events] eqn:E;
      simpl in Ht.
    - simpl. destruct Ht as [-> _]. reflexivity.
    - destruct Hcase as [->|[Hlast Hrest]].
      + pose proof (try_copy_clean (attempt_faults env good) fs size
                      Hfs Hne Hs Hr) as Hc.
        rewrite E in Hc. discriminate.
      + destruct (Z.eqb_spec attempt (max_retries - 1)); [contradiction|].
        specialize (Hrest (clean_up (attempt_faults env attempt) fs1
                                    temp_path)).
        destruct (retry_loop env rest _ _ _ _) as [[fs3 r3] trace3].
        simpl in *. apply Hrest.
        rewrite clean_up_other by exact Hne. now rewrite Ht. }
  assert (good = 0 \/ good = 1 \/ good = 2) as [->|[->| ->]] by lia.
  - apply Hstep; [exact Hsrc|now left].
  - apply Hstep; [exact Hsrc|right]. split; [discriminate|].
    intros fs1 H1. apply Hstep; [exact H1|now left].
  - apply Hstep; [exact Hsrc|right]. split; [discriminate|].
    intros fs1 H1. apply Hstep; [exact H1|right]. split; [discriminate|].
    intros fs2 H2. apply Hstep; [exact H2|now left].
Qed.

End FileCopierTransfers.

(** X1. When [copy_file] returns, it returns the final path; the file
    under that path has the size the source had, no temp file is left, and
    no other path has changed. *)
Theorem copy_file_publishes_source_size
        (config : FileCopier.Config) (env : FileCopier.Env)
        (files : gmap string Z) (source_path filename path : string) :
  let out := FileCopier.copy_file config env files source_path filename in
  let temp_path := FileCopier.temp_path_of config filename in
  let dest_path := FileCopier.dest_path_of config filename in
  out.1.2 = Ok path ->
  path = dest_path
  /\ out.1.1 !! temp_path = None
  /\ (source_path <> temp_path ->
      out.1.1 !! dest_path = files !! source_path)
  /\ (forall k, k <> temp_path -> k <> dest_path ->
                out.1.1 !! k = files !! k).
Proof.
  intros out temp_path dest_path. subst out.
  assert (temp_path <> dest_path) as Hne by apply append_tmp_ne.
  unfold FileCopier.copy_file.
  destruct (_ && _); [discriminate|].
  destruct (FileCopier.mkdir_error env); [discriminate|].
  destruct (files !! source_path) as [source_size|] eqn:Hsrc;
    [|discriminate].
  fold temp_path dest_path.
  pose proof (retry_loop_effect env source_path temp_path dest_path Hne
                (FileCopier.range FileCopier.max_retries) files) as H.
  cbv zeta in H. rewrite Hsrc in H.
  destruct (FileCopier.retry_loop env _ files source_path temp_path
              dest_path) as [[files' [p|e]] trace]; simpl in *;
    [|discriminate].
  intros [= <-]. exact H.
Qed.

Lemma copy_file_publishes_source_size_witness :
  let out :=
    FileCopier.copy_file Scenario.share (Scenario.faultless 10)
      Scenario.download "/dl/a.mkv" "A.mkv" in
  out.1.2 = Ok "/mnt/share/Movies/A.mkv"
  /\ out.1.1 !! "/mnt/share/Movies/A.mkv" = Some 10.
Proof.
  assert ((FileCopier.copy_file Scenario.share (Scenario.faultless 10)
             Scenario.download "/dl/a.mkv" "A.mkv").1.2
          = Ok "/mnt/share/Movies/A.mkv") as Hok
    by (vm_compute; reflexivity).
  split; [exact Hok|].
  destruct (copy_file_publishes_source_size Scenario.share
              (Scenario.faultless 10) Scenario.download
              "/dl/a.mkv" "A.mkv" _ Hok) as (_ & _ & Hsize & _).
  cbv zeta in Hsize.
  change (FileCopier.dest_path_of Scenario.share "A.mkv")
    with "/mnt/share/Movies/A.mkv" in Hsize.
  rewrite Hsize; [reflexivity|]. vm_compute. discriminate.
Defined.

(** X2. When [copy_file] raises, no path but the temp file has changed:
    the final name is neither created nor altered by a failed transfer.
    The exception is [NetworkShareError] exactly when the mount check is on
    and the share is not accessible, and then no attempt is made and
    nothing at all changes. *)
Theorem copy_file_failure_changes_only_temp
        (config : FileCopier.Config) (env : FileCopier.Env)
        (files : gmap string Z) (source_path filename : string) (e : exn) :
  let out := FileCopier.copy_file config env files source_path filename in
  let temp_path := FileCopier.temp_path_of config filename in
  out.1.2 = Raise e ->
  (forall k, k <> temp_path -> out.1.1 !! k = files !! k)
  /\ ((exists msg, e = NetworkShareError msg)
      <-> FileCopier.verify_mount config
          && negb (FileCopier.mount_accessible env) = true)
  /\ (FileCopier.verify_mount config
      && negb (FileCopier.mount_accessible env) = true ->
      out.1.1 = files /\ out.2 = []).
Proof.
  intros out temp_path. subst out.
  assert (temp_path <> FileCopier.dest_path_of config filename) as Hne
    by apply append_tmp_ne.
  unfold FileCopier.copy_file.
  destruct (_ && _); cbn [fst snd].
  { intros [= <-]. split; [reflexivity|]. split; [|now split].
    split; [reflexivity|eauto]. }
  destruct (FileCopier.mkdir_error env); cbn [fst snd].
  { intros [= <-]. split; [reflexivity|]. split; [|discriminate].
    split; [intros [msg H]; discriminate|discriminate]. }
  destruct (files !! source_path) as [source_size|]; cbn [fst snd].
  2:{ intros [= <-]. split; [reflexivity|]. split; [|discriminate].
      split; [intros [msg H]; discriminate|discriminate]. }
  fold temp_path.
  pose proof (retry_loop_effect env source_path temp_path _ Hne
                (FileCopier.range FileCopier.max_retries) files) as H.
  cbv zeta in H.
  destruct (FileCopier.retry_loop env _ files source_path temp_path _)
    as [[files' [p|e']] trace]; cbn [fst snd] in *; [intros [=]|].
  intros [= <-]. split; [exact H|]. split; [|discriminate].
  split; [intros [msg Hm]; discriminate|discriminate].
Qed.

Lemma copy_file_failure_changes_only_temp_witness :
  let out :=
    FileCopier.copy_file Scenario.share Scenario.share_down
      Scenario.download "/dl/a.mkv" "A.mkv" in
  out.1.2 = Raise (NetworkShareError
                     "Network share not accessible: /mnt/share")
  /\ out.1.1 = Scenario.download /\ out.2 = [].
Proof.
  assert ((FileCopier.copy_file Scenario.share Scenario.share_down
             Scenario.download "/dl/a.mkv" "A.mkv").1.2
          = Raise (NetworkShareError
                     "Network share not accessible: /mnt/share")) as Hr
    by (vm_compute; reflexivity).
  split; [exact Hr|].
  apply (proj2 (proj2 (copy_file_failure_changes_only_temp Scenario.share
                         Scenario.share_down Scenario.download
                         "/dl/a.mkv" "A.mkv" _ Hr))).
  reflexivity.
Defined.

(** X3. If the share is reachable, the source is there, and on one of the
    three attempts the stream copies the whole source and the rename
    succeeds, then [copy_file] returns the final path, whatever goes wrong
    on the attempts before it. *)
Theorem copy_file_one_good_attempt_suffices
        (config : FileCopier.Config) (env : FileCopier.Env)
        (files : gmap string Z) (source_path filename : string)
        (size good : Z) :
  FileCopier.verify_mount config
  && negb (FileCopier.mount_accessible env) = false ->
  FileCopier.mkdir_error env = None ->
  files !! source_path = Some size ->
  source_path <> FileCopier.temp_path_of config filename ->
  0 <= good <= 2 ->
  FileCopier.stream (FileCopier.attempt_faults env good)
  = FileCopier.Completes size ->
  FileCopier.rename_error (FileCopier.attempt_faults env good) = None ->
  (FileCopier.copy_file config env files source_path filename).1.2
  = Ok (FileCopier.dest_path_of config filename).
Proof.
  intros Hmount Hmk Hsrc Hne Hgood Hs Hr.
  assert (FileCopier.temp_path_of config filename
          <> FileCopier.dest_path_of config filename) as Htd
    by apply append_tmp_ne.
  unfold FileCopier.copy_file. rewrite Hmount, Hmk, Hsrc.
  change (FileCopier.range FileCopier.max_retries) with [0; 1; 2].
  pose proof (retry_loop_recovers env source_path _ _ Htd files size good
                Hsrc Hne Hgood Hs Hr) as H.
  destruct (FileCopier.retry_loop env [0; 1; 2] files source_path _ _)
    as [[files' r] trace].
  simpl in *. now rewrite H.
Qed.

Lemma copy_file_one_good_attempt_suffices_witness :
  let out :=
    FileCopier.copy_file Scenario.share (Scenario.third_time_lucky 10)
      Scenario.download "/dl/a.mkv" "A.mkv" in
  FileCopier.attempts_of out.2 = [0; 1; 2]
  /\ out.1.2 = Ok "/mnt/share/Movies/A.mkv".
Proof.
  split; [vm_compute; reflexivity|].
  apply (copy_file_one_good_attempt_suffices Scenario.share
           (Scenario.third_time_lucky 10) Scenario.download
           "/dl/a.mkv" "A.mkv" 10 2).
  - reflexivity.
  - reflexivity.
  - reflexivity.
  - vm_compute. discriminate.
  - lia.
  - reflexivity.
  - reflexivity.
Defined.

(** ** The version detector: matches and the version handed out *)

Lemma str_of_int_nonempty (n : Z) : Py.str_of_int n <> "".
Proof.
  unfold Py.str_of_int. destruct (Z.to_int n) as [d|d];
    cbn [NilZero.string_of_int]; [|discriminate].
  destruct d; discriminate.
Qed.

Lemma render_from_nonempty (fmt text : string) :
  fmt <> "" -> text <> "" -> VersionDetector.render_from 0 fmt text <> "".
Proof.
  intros Hf Ht. destruct fmt as [|c fmt]; [contradiction|].
  rewrite render_from_cons.
  destruct (Py.startswith _ _); [|discriminate].
  destruct text; [contradiction|discriminate].
Qed.

Lemma len_zero (s : string) : Py.len s = 0 -> s = "".
Proof. destruct s; [reflexivity|]. rewrite len_cons. pose proof (len_nonneg s). lia. Qed.

Section VersionDetectorMatches.

Import VersionDetector.

Variable ratio : string -> string -> Q.
Variable config : Config.

Lemma find_matches_loop_sound (base_name m : string)
      (existing_files : list string) :
  In m (_find_matches_loop ratio config base_name existing_files) ->
  In m existing_files.
Proof.
  induction existing_files as [|e rest IH]; simpl; [tauto|].
  destruct (Str.eqb _ _); [simpl; tauto|].
  destruct (_ && _); simpl; tauto.
Qed.

Lemma find_matches_loop_exact (base_name e : string)
      (existing_files : list string) :
  In e existing_files ->
  Py.lower (_get_base_name config e) = Py.lower base_name ->
  In e (_find_matches_loop ratio config base_name existing_files).
Proof.
  intros Hin Heq.
  induction existing_files as [|x rest IH]; [destruct Hin|].
  simpl. destruct Hin as [->|Hin].
  - rewrite Heq, str_eqb_refl. now left.
  - destruct (Str.eqb _ _); [right; now apply IH|].
    destruct (_ && _); [right|]; now apply IH.
Qed.

Lemma highest_version_bounds (filename m : string) (matches : list string) :
  In m matches ->
  _extract_version_number config m
  <= _get_highest_version config filename matches.
Proof.
  unfold _get_highest_version.
  assert (forall l acc,
             acc <= fold_left
                      (fun highest x =>
                         let version := _extract_version_number config x in
                         if highest <? version then version else highest)
                      l acc) as Hacc.
  { induction l as [|x l IH]; intros acc; simpl; [lia|].
    etransitivity; [|apply IH].
    destruct (Z.ltb_spec acc (_extract_version_number config x)); lia. }
  generalize 0. induction matches as [|x l IH]; intros acc Hin;
    [destruct Hin|].
  simpl. destruct Hin as [->|Hin]; [|now apply IH].
  etransitivity; [|apply Hacc].
  destruct (Z.ltb_spec acc (_extract_version_number config m)); lia.
Qed.

End VersionDetectorMatches.

(** X4. With detection enabled, the version number [detect_version] hands
    out is greater than the version number it reads from every file it
    matched, and every file it matches is one of the listing. *)
Theorem detect_version_exceeds_matches
        (ratio : string -> string -> Q) (config : VersionDetector.Config)
        (filename m : string) (existing_files : list string) :
  VersionDetector.enabled config = true ->
  In m (VersionDetector._find_matches ratio config filename
          existing_files) ->
  In m existing_files
  /\ VersionDetector._extract_version_number config m
     < snd (VersionDetector.detect_version ratio config filename
              existing_files).
Proof.
  intros Hen Hin. split.
  - unfold VersionDetector._find_matches in Hin.
    now apply find_matches_loop_sound in Hin.
  - unfold VersionDetector.detect_version. rewrite Hen. simpl.
    pose proof (highest_version_bounds config filename m _ Hin) as Hb.
    destruct (VersionDetector._find_matches ratio config filename
                existing_files); [destruct Hin|].
    simpl. lia.
Qed.

Lemma detect_version_exceeds_matches_witness :
  In "Movie (2020).v7.mkv"
     (VersionDetector._find_matches (fun _ _ => 0%Q)
        VersionDetector.default_config "Movie (2020).mkv"
        ["Other.mkv"; "Movie (2020).v7.mkv"])
  /\ VersionDetector._extract_version_number
       VersionDetector.default_config "Movie (2020).v7.mkv"
     < snd (VersionDetector.detect_version (fun _ _ => 0%Q)
              VersionDetector.default_config "Movie (2020).mkv"
              ["Other.mkv"; "Movie (2020).v7.mkv"]).
Proof.
  assert (In "Movie (2020).v7.mkv"
             (VersionDetector._find_matches (fun _ _ => 0%Q)
                VersionDetector.default_config "Movie (2020).mkv"
                ["Other.mkv"; "Movie (2020).v7.mkv"])) as Hin
    by (vm_compute; left; reflexivity).
  split; [exact Hin|].
  apply (detect_version_exceeds_matches (fun _ _ => 0%Q)
           VersionDetector.default_config "Movie (2020).mkv"
           "Movie (2020).v7.mkv" ["Other.mkv"; "Movie (2020).v7.mkv"]
           eq_refl Hin).
Defined.

(** X5. A file of the listing whose base name equals the candidate's, up
    to case, is always matched, whatever the similarity settings; in
    particular the candidate's own name is. So, with detection enabled and
    a non-empty suffix format, a candidate whose name is already in the
    listing never comes back under that same name. *)
Theorem detect_version_avoids_taken_name
        (ratio : string -> string -> Q) (config : VersionDetector.Config)
        (filename : string) (existing_files : list string) :
  (forall e,
     In e existing_files ->
     Py.lower (VersionDetector._get_base_name config e)
     = Py.lower (VersionDetector._get_base_name config filename) ->
     In e (VersionDetector._find_matches ratio config filename
             existing_files))
  /\ (VersionDetector.enabled config = true ->
      VersionDetector.format config <> "" ->
      In filename existing_files ->
      fst (VersionDetector.detect_version ratio config filename
             existing_files) <> filename).
Proof.
  split.
  - intros e Hin Heq. now apply find_matches_loop_exact.
  - intros Hen Hfmt Hin.
    assert (In filename
               (VersionDetector._find_matches ratio config filename
                  existing_files)) as Hm
      by (now apply find_matches_loop_exact).
    unfold VersionDetector.detect_version. rewrite Hen. simpl.
    destruct (VersionDetector._find_matches ratio config filename
                existing_files) as [|x l]; [destruct Hm|].
    simpl. rewrite add_version_suffix_shape.
    intros Heq.
    pose proof (splitext_app filename) as Hsplit.
    apply (f_equal Py.len) in Heq. rewrite <- Hsplit in Heq at 4.
    rewrite !len_app in Heq.
    apply (render_from_nonempty (VersionDetector.format config)
             (Py.str_of_int
                (VersionDetector._get_highest_version config filename
                   (x :: l) + 1))); [exact Hfmt|apply str_of_int_nonempty|].
    apply len_zero. lia.
Qed.

Lemma detect_version_avoids_taken_name_witness :
  In "Movie (2020).mkv" ["Movie (2020).mkv"]
  /\ fst (VersionDetector.detect_version (fun _ _ => 0%Q)
            VersionDetector.default_config "Movie (2020).mkv"
            ["Movie (2020).mkv"]) <> "Movie (2020).mkv".
Proof.
  assert (In "Movie (2020).mkv" ["Movie (2020).mkv"]) as Hin
    by (left; reflexivity).
  split; [exact Hin|].
  apply (proj2 (detect_version_avoids_taken_name (fun _ _ => 0%Q)
                  VersionDetector.default_config "Movie (2020).mkv"
                  ["Movie (2020).mkv"]) eq_refl); [discriminate|exact Hin].
Defined.

(** ** The record store: constraints kept *)

Lemma next_id_fresh (ids : list Z) :
  1 <= Store.next_id ids /\ forall i, In i ids -> i < Store.next_id ids.
Proof.
  unfold Store.next_id. induction ids as [|x ids [IH1 IH2]]; simpl.
  - split; [lia|intros i []].
  - split; [lia|]. intros i [->|Hin]; [lia|].
    specialize (IH2 i Hin). lia.
Qed.

Lemma NoDup_map_filter {A B : Type} (g : A -> B) (p : A -> bool)
      (l : list A) :
  NoDup (map g l) -> NoDup (map g (List.filter p l)).
Proof.
  induction l as [|x l IH]; simpl; intros Hnd; [constructor|].
  apply NoDup_cons in Hnd as [Hnotin Hnd].
  destruct (p x); simpl; [|now apply IH].
  apply NoDup_cons. split; [|now apply IH].
  intros Hin. apply Hnotin.
  apply list_elem_of_In in Hin. apply list_elem_of_In.
  apply List.in_map_iff in Hin as (y & Hy & Hin).
  apply List.in_map_iff. exists y. split; [exact Hy|].
  now apply List.filter_In in Hin as [Hin _].
Qed.

Section StoreConstraints.

Variable st : Store.t.
Hypothesis Hwf : Store.well_formed st.

Lemma update_pending_well_formed (movie_id : Z)
      (f : PendingMovie.t -> PendingMovie.t) :
  (forall m, PendingMovie.id (f m) = PendingMovie.id m) ->
  (forall m, PendingMovie.original_path (f m)
             = PendingMovie.original_path m) ->
  Store.well_formed (Store.update_pending st movie_id f).
Proof.
  intros Hid Hpath. destruct Hwf as (Hids & Hpaths & Hpos & Hhist).
  unfold Store.well_formed, Store.unique_ids, Store.unique_paths in *.
  simpl.
  assert (forall g : PendingMovie.t -> Z,
             (forall m, g (f m) = g m) ->
             map g (map (fun m => if PendingMovie.id m =? movie_id
                                  then f m else m)
                        (Store.pending_movies st))
             = map g (Store.pending_movies st)) as HZ.
  { intros g Hg. rewrite List.map_map. apply List.map_ext.
    intros m. destruct (_ =? _); [apply Hg|reflexivity]. }
  assert (map PendingMovie.original_path
              (map (fun m => if PendingMovie.id m =? movie_id
                             then f m else m)
                   (Store.pending_movies st))
          = map PendingMovie.original_path (Store.pending_movies st))
    as HS.
  { rewrite List.map_map. apply List.map_ext.
    intros m. destruct (_ =? _); [apply Hpath|reflexivity]. }
  rewrite (HZ PendingMovie.id Hid), HS.
  split; [exact Hids|]. split; [exact Hpaths|]. split; [|exact Hhist].
  apply Forall_forall. intros m Hin. apply list_elem_of_In in Hin.
  apply List.in_map_iff in Hin as (m0 & <- & Hin).
  rewrite Forall_forall in Hpos.
  apply list_elem_of_In in Hin. specialize (Hpos m0 Hin).
  destruct (_ =? _); [now rewrite Hid|exact Hpos].
Qed.

Lemma delete_pending_well_formed (movie_id : Z) :
  Store.well_formed (Store.delete_pending st movie_id).
Proof.
  destruct Hwf as (Hids & Hpaths & Hpos & Hhist).
  unfold Store.well_formed, Store.unique_ids, Store.unique_paths in *.
  simpl. split; [now apply NoDup_map_filter|].
  split; [now apply NoDup_map_filter|]. split; [|exact Hhist].
  apply Forall_forall. intros m Hin. apply list_elem_of_In in Hin.
  apply List.filter_In in Hin as [Hin _].
  rewrite Forall_forall in Hpos. apply Hpos. now apply list_elem_of_In.
Qed.

Lemma add_processed_well_formed (row : ProcessedMovie.t) :
  Store.well_formed (Store.add_processed st row).
Proof.
  destruct Hwf as (Hids & Hpaths & Hpos & Hhist & Hhpos).
  pose proof (next_id_fresh
                (map ProcessedMovie.id (Store.processed_movies st)))
    as [Hge Hfresh].
  unfold Store.well_formed, Store.unique_ids, Store.unique_paths,
    Store.unique_history_ids in *.
  simpl. rewrite map_app. simpl.
  split; [exact Hids|]. split; [exact Hpaths|]. split; [exact Hpos|].
  split.
  - apply NoDup_app. split; [exact Hhist|].
    split; [|repeat constructor; intros H; apply list_elem_of_In in H;
             destruct H].
    intros x Hx Hin. apply list_elem_of_In in Hx.
    apply list_elem_of_In in Hin. destruct Hin as [<-|[]].
    specialize (Hfresh _ Hx). lia.
  - apply Forall_app. split; [exact Hhpos|].
    repeat constructor. exact Hge.
Qed.

Lemma add_pending_well_formed (row : PendingMovie.t) (st' : Store.t)
      (row' : PendingMovie.t) :
  Store.add_pending st row = Ok (st', row') ->
  Store.well_formed st'
  /\ 1 <= PendingMovie.id row'
  /\ (forall m, In m (Store.pending_movies st) ->
                PendingMovie.id m < PendingMovie.id row').
Proof.
  unfold Store.add_pending.
  destruct (Store.pending_by_path st _) eqn:E; [discriminate|].
  intros [= <- <-]. destruct Hwf as (Hids & Hpaths & Hpos & Hhist).
  pose proof (next_id_fresh (map PendingMovie.id (Store.pending_movies st)))
    as [Hge Hfresh].
  unfold Store.well_formed, Store.unique_ids, Store.unique_paths in *.
  simpl. rewrite !map_app. simpl.
  split; [|split; [exact Hge|]].
  - split; [|split; [|split; [|exact Hhist]]].
    + apply NoDup_app. split; [exact Hids|].
      split; [|repeat constructor; intros H; apply list_elem_of_In in H;
               destruct H].
      intros x Hx Hin. apply list_elem_of_In in Hx.
      apply list_elem_of_In in Hin. destruct Hin as [<-|[]].
      specialize (Hfresh _ Hx). lia.
    + apply NoDup_app. split; [exact Hpaths|].
      split; [|repeat constructor; intros H; apply list_elem_of_In in H;
               destruct H].
      intros x Hx Hin. apply list_elem_of_In in Hx.
      apply list_elem_of_In in Hin. destruct Hin as [<-|[]].
      apply List.in_map_iff in Hx as (m & Hm & Hin).
      unfold Store.pending_by_path in E.
      pose proof (List.find_none _ _ E m Hin) as Hf. simpl in Hf.
      rewrite Hm, str_eqb_refl in Hf. discriminate.
    + apply Forall_app. split; [exact Hpos|].
      repeat constructor. exact Hge.
  - intros m Hin. apply Hfresh. now apply List.in_map.
Qed.

End StoreConstraints.

(** ** The orchestrator: what a transition changes *)

(** [copy_file] as the orchestrator sees it. *)
Lemma copy_file_effect (config : FileCopier.Config) (env : FileCopier.Env)
      (files : gmap string Z) (source_path filename : string) :
  let out := FileCopier.copy_file config env files source_path filename in
  let temp_path := FileCopier.temp_path_of config filename in
  let dest_path := FileCopier.dest_path_of config filename in
  match out.1.2 with
  | Ok path =>
      path = dest_path
      /\ is_Some (files !! source_path)
      /\ out.1.1 !! temp_path = None
      /\ (source_path <> temp_path ->
          out.1.1 !! dest_path = files !! source_path)
      /\ (forall k, k <> temp_path -> k <> dest_path ->
                    out.1.1 !! k = files !! k)
  | Raise e =>
      (forall k, k <> temp_path -> out.1.1 !! k = files !! k)
      /\ ((exists msg, e = NetworkShareError msg)
          \/ exists msg, e = FileCopyError msg)
  end.
Proof.
  intros out temp_path dest_path. subst out.
  assert (temp_path <> dest_path) as Hne by apply append_tmp_ne.
  unfold FileCopier.copy_file.
  destruct (_ && _); cbn [fst snd]; [split; eauto|].
  destruct (FileCopier.mkdir_error env); cbn [fst snd]; [split; eauto|].
  destruct (files !! source_path) as [source_size|] eqn:Hsrc;
    cbn [fst snd]; [|split; eauto].
  fold temp_path dest_path.
  pose proof (retry_loop_effect env source_path temp_path dest_path Hne
                (FileCopier.range FileCopier.max_retries) files) as H.
  cbv zeta in H. rewrite Hsrc in H.
  destruct (FileCopier.retry_loop env _ files source_path temp_path
              dest_path) as [[files' [p|e]] trace]; cbn [fst snd] in *.
  - destruct H as (Hp & Ht & Hd & Hk). repeat split; eauto.
  - split; eauto.
Qed.

Lemma rename_movie_raises_mnamer (config : MovieRenamer.Config)
      (run : string -> MovieRenamer.subprocess_outcome)
      (parse : string -> string -> option string)
      (files : gmap string Z) (file_path : string) (e : exn) :
  MovieRenamer.rename_movie config run parse files file_path = Raise e ->
  exists msg, e = MnamerError msg.
Proof.
  unfold MovieRenamer.rename_movie.
  destruct (files !! file_path); [|intros [= <-]; eauto].
  destruct (run file_path); try (intros [= <-]; eauto).
  destruct (_ =? _); [|discriminate].
  destruct (parse _ _); [|discriminate].
  destruct (Str.eqb _ _); discriminate.
Qed.

Lemma rename_movie_needs_file (config : MovieRenamer.Config)
      (run : string -> MovieRenamer.subprocess_outcome)
      (parse : string -> string -> option string)
      (files : gmap string Z) (file_path : string)
      (r : option string * string) :
  MovieRenamer.rename_movie config run parse files file_path = Ok r ->
  is_Some (files !! file_path).
Proof.
  unfold MovieRenamer.rename_movie.
  destruct (files !! file_path); [eauto|discriminate].
Qed.


Lemma endswith_tmp_ne (k s : string) :
  Py.endswith k ".tmp" = false -> k <> s +:+ ".tmp".
Proof.
  intros Hk ->. now rewrite endswith_app in Hk.
Qed.

Section MovieManagerTransitions.

Import MovieManager.

Variable config : Config.

Lemma mark_failed_known (st : Store.t) (movie_id : Z) (e : exn) :
  (exists msg, e = MnamerError msg)
  \/ (exists msg, e = NetworkShareError msg)
  \/ (exists msg, e = FileCopyError msg) ->
  mark_failed st movie_id e
  = (Store.update_pending st movie_id (failed_with (exn_str e)),
     Failure (exn_str e)).
Proof.
  intros [[msg ->]|[[msg ->]|[msg ->]]]; reflexivity.
Qed.

(** A failed approval. The record is marked with the text of the
    exception. Raised by the renamer or the transfer, the exception is
    returned with that same text, and nothing but a temp file has changed.
    Raised by the version check, it is returned behind a prefix, and no
    file has changed. Raised by the insert of the history record, whose
    version number does not fit, it is returned behind the same prefix,
    and the transfer has been made: the final file is on the share. *)
Lemma approve_finish_failure (env : Env) (st : Store.t)
      (files : gmap string Z) (movie : PendingMovie.t) (movie_id : Z)
      (delete_source : bool) (e : string) :
  let out := approve_finish config env st files movie movie_id
               delete_source in
  let source := PendingMovie.original_path movie in
  out.1.2 = Failure e ->
  exists msg,
    out.1.1.1 = Store.update_pending st movie_id (failed_with msg)
    /\ ((e = msg
         /\ (out.2 <= 1)%nat
         /\ forall k, Py.endswith k ".tmp" = false ->
                      out.1.1.2 !! k = files !! k)
        \/ (e = "Unexpected error: " +:+ msg
            /\ out.1.1.2 = files
            /\ out.2 = 0%nat
            /\ exists new_filename library_error,
                detection_error env = Some library_error
                /\ msg = "Error detecting version for " +:+ new_filename
                           +:+ ": " +:+ library_error)
        \/ (e = "Unexpected error: " +:+ msg
            /\ msg = "Python int too large to convert to SQLite INTEGER"
            /\ out.2 = 1%nat
            /\ is_Some (Store.pending_by_id st movie_id)
            /\ exists new_filename output fn v,
                MovieRenamer.rename_movie (mnamer config) (run env)
                  (_parse_mnamer_output env) files source
                = Ok (Some new_filename, output)
                /\ VersionDetector.detect_version (ratio env)
                     (version_detection config) new_filename
                     (_list_directory (listdir_fails env) files
                        (target_dir config)) = (fn, v)
                /\ Store.fits_integer v = false
                /\ is_Some (files !! source)
                /\ out.1.1.2
                   !! FileCopier.temp_path_of (network_share config) fn
                   = None
                /\ (source
                    <> FileCopier.temp_path_of (network_share config) fn ->
                    out.1.1.2
                    !! FileCopier.dest_path_of (network_share config) fn
                    = files !! source)
                /\ forall k,
                    k <> FileCopier.temp_path_of (network_share config) fn ->
                    k <> FileCopier.dest_path_of (network_share config) fn ->
                    out.1.1.2 !! k = files !! k)).
Proof.
  cbv zeta. unfold approve_finish.
  destruct (MovieRenamer.rename_movie _ _ _ _ _)
    as [[[new_filename|] output]|e0] eqn:Hren.
  - destruct (detect_version_call_cases (detection_error env) (ratio env)
                (version_detection config) new_filename
                (_list_directory (listdir_fails env) files
                   (target_dir config)))
      as [(lib & Hlib & _ & ->)|(_ & ->)].
    { rewrite mark_failed_unexpected by eauto. cbn [fst snd exn_str].
      intros [= <-]. eexists. split; [reflexivity|].
      right. left. split; [reflexivity|]. split; [reflexivity|].
      split; [reflexivity|]. eauto. }
    destruct (VersionDetector.detect_version _ _ _ _)
      as [versioned_filename version_number] eqn:Hdet.
    pose proof (copy_file_effect (network_share config) (copier env) files
                  (PendingMovie.original_path movie) versioned_filename)
      as Hc.
    cbv zeta in Hc.
    destruct (FileCopier.copy_file _ _ _ _ _)
      as [[files1 [final_path|e1]] trace]; cbn [fst snd] in *.
    + destruct Hc as (Hp & Hsome & Htmp & Hdest & Hfr).
      unfold record_approval.
      destruct (Store.pending_by_id st movie_id) as [pending_movie|] eqn:E;
        [|discriminate].
      destruct (bind_integer_cases version_number) as [[_ ->]|[Hfit ->]];
        [discriminate|].
      rewrite mark_failed_unexpected by eauto. cbn [fst snd exn_str].
      intros [= <-]. eexists. split; [reflexivity|].
      right. right. split; [reflexivity|]. split; [reflexivity|].
      split; [reflexivity|]. split; [eauto|].
      exists new_filename, output, versioned_filename, version_number.
      repeat split; auto.
    + destruct Hc as [Hfr He1].
      rewrite mark_failed_known by tauto. cbn [fst snd].
      intros [= <-]. eexists. split; [reflexivity|].
      left. split; [reflexivity|]. split; [lia|].
      intros k Hk. apply Hfr. now apply endswith_tmp_ne.
  - rewrite mark_failed_known by eauto. cbn [fst snd].
    intros [= <-]. eexists. split; [reflexivity|].
    left. split; [reflexivity|]. split; [lia|]. reflexivity.
  - apply rename_movie_raises_mnamer in Hren.
    rewrite mark_failed_known by tauto. cbn [fst snd].
    intros [= <-]. eexists. split; [reflexivity|].
    left. split; [reflexivity|]. split; [lia|]. reflexivity.
Qed.

(** A successful approval. *)
Lemma approve_finish_success (env : Env) (st : Store.t)
      (files : gmap string Z) (movie : PendingMovie.t) (movie_id : Z)
      (delete_source : bool) (orig fn fp : string) (v : Z) :
  let out := approve_finish config env st files movie movie_id
               delete_source in
  let source := PendingMovie.original_path movie in
  let temp := FileCopier.temp_path_of (network_share config) fn in
  out.1.2 = Approved orig fn fp v ->
  orig = PendingMovie.original_filename movie
  /\ fp = FileCopier.dest_path_of (network_share config) fn
  /\ out.2 = 1%nat
  /\ (exists new_filename output,
         MovieRenamer.rename_movie (mnamer config) (run env)
           (_parse_mnamer_output env) files source
         = Ok (Some new_filename, output)
         /\ VersionDetector.detect_version (ratio env)
              (version_detection config) new_filename
              (_list_directory (listdir_fails env) files
                 (target_dir config)) = (fn, v)
         /\ out.1.1.1
            = match Store.pending_by_id st movie_id with
              | Some pending_movie =>
                  Store.delete_pending
                    (Store.add_processed st
                       (approved_row env pending_movie fn fp v output))
                    movie_id
              | None => st
              end)
  /\ is_Some (files !! source)
  /\ out.1.1.2 !! temp = None
  /\ (source <> temp -> delete_source = false \/ source <> fp ->
      out.1.1.2 !! fp = files !! source)
  /\ (forall k, k <> temp -> k <> fp -> k <> source ->
                out.1.1.2 !! k = files !! k)
  /\ (source <> temp -> delete_source = false ->
      out.1.1.2 !! source = files !! source)
  /\ (delete_source = true -> source_remove_fails env = false ->
      out.1.1.2 !! source = None).
Proof.
  cbv zeta. unfold approve_finish.
  destruct (MovieRenamer.rename_movie _ _ _ _ _)
    as [[[new_filename|] output]|e0] eqn:Hren.
  2:{ destruct (mark_failed st movie_id _) as [st' o] eqn:Hm.
      pose proof (mark_failed_blocks st movie_id
                    (MnamerError "mnamer failed to generate new filename"))
        as (_ & Hs & _).
      rewrite Hm in Hs. cbn [fst snd] in *. intros ->. discriminate. }
  2:{ destruct (mark_failed st movie_id e0) as [st' o] eqn:Hm.
      pose proof (mark_failed_blocks st movie_id e0) as (_ & Hs & _).
      rewrite Hm in Hs. cbn [fst snd] in *. intros ->. discriminate. }
  destruct (detect_version_call_cases (detection_error env) (ratio env)
              (version_detection config) new_filename
              (_list_directory (listdir_fails env) files
                 (target_dir config)))
    as [(lib & _ & _ & ->)|(_ & ->)].
  { destruct (mark_failed st movie_id _) as [st' o] eqn:Hm.
    pose proof (mark_failed_blocks st movie_id
                  (VersionDetectionError
                     ("Error detecting version for " +:+ new_filename
                        +:+ ": " +:+ lib))) as (_ & Hs & _).
    rewrite Hm in Hs. cbn [fst snd] in *. intros ->. discriminate. }
  destruct (VersionDetector.detect_version _ _ _ _)
    as [versioned_filename version_number] eqn:Hdet.
  pose proof (copy_file_effect (network_share config) (copier env) files
                (PendingMovie.original_path movie) versioned_filename)
    as Hc.
  cbv zeta in Hc.
  destruct (FileCopier.copy_file _ _ _ _ _)
    as [[files1 [final_path|e1]] trace]; cbn [fst snd] in *.
  2:{ destruct (mark_failed st movie_id e1) as [st' o] eqn:Hm.
      pose proof (mark_failed_blocks st movie_id e1) as (_ & Hs & _).
      rewrite Hm in Hs. cbn [fst snd] in *. intros ->. discriminate. }
  destruct Hc as (Hp & Hsome & Htmp & Hdest & Hfr).
  destruct (record_approval env st movie_id versioned_filename final_path
              version_number output) as [st1|e1] eqn:Hrec.
  2:{ destruct (mark_failed st movie_id e1) as [st' o] eqn:Hm.
      pose proof (mark_failed_blocks st movie_id e1) as (_ & Hs & _).
      rewrite Hm in Hs. cbn [fst snd] in *. intros ->. discriminate. }
  cbn [fst snd].
  intros [= <- <- <- <-].
  assert (st1
          = match Store.pending_by_id st movie_id with
            | Some pending_movie =>
                Store.delete_pending
                  (Store.add_processed st
                     (approved_row env pending_movie versioned_filename
                        final_path version_number output))
                  movie_id
            | None => st
            end) as Hst1.
  { unfold record_approval in Hrec.
    destruct (Store.pending_by_id st movie_id); [|congruence].
    destruct (Store.bind_integer version_number); congruence. }
  clear Hrec.
  set (source := PendingMovie.original_path movie) in *.
  set (temp := FileCopier.temp_path_of (network_share config)
                 versioned_filename) in *.
  split; [reflexivity|]. split; [exact Hp|]. split; [reflexivity|].
  split.
  { exists new_filename, output. split; [reflexivity|].
    split; [exact Hdet|]. exact Hst1. }
  split; [exact Hsome|].
  assert (forall k,
             (if delete_source
              then (FileCopier.delete_source (source_remove_fails env)
                      files1 source).1
              else files1) !! k = files1 !! k
             \/ (k = source /\ delete_source = true
                 /\ source_remove_fails env = false)) as Hdel.
  { intros k. destruct delete_source; [|now left].
    unfold FileCopier.delete_source.
    destruct (files1 !! source); [|now left].
    destruct (source_remove_fails env); [now left|]. cbn [fst].
    destruct (decide (k = source)) as [->|Hk]; [now right|].
    left. now apply lookup_delete_ne. }
  split.
  { destruct delete_source; [|exact Htmp].
    unfold FileCopier.delete_source.
    destruct (files1 !! source) eqn:E; [|exact Htmp].
    destruct (source_remove_fails env); [exact Htmp|]. cbn [fst].
    destruct (decide (temp = source)) as [Heq|Hne].
    - rewrite Heq. apply lookup_delete_eq.
    - rewrite lookup_delete_ne by congruence. exact Htmp. }
  split.
  { intros Hst Hcase. subst final_path.
    destruct (Hdel (FileCopier.dest_path_of (network_share config)
                      versioned_filename)) as [->|(Hk & Hds & _)].
    - now apply Hdest.
    - destruct Hcase as [Hcase|Hcase]; congruence. }
  split.
  { intros k Hk Hd Hs. subst final_path.
    destruct (Hdel k) as [->|(Hks & _)]; [now apply Hfr|contradiction]. }
  split.
  { intros Hst ->. subst final_path.
    destruct (decide (source = FileCopier.dest_path_of
                                 (network_share config) versioned_filename))
      as [Hsd|Hsd].
    - rewrite Hsd at 1. rewrite Hdest by exact Hst. reflexivity.
    - now apply Hfr. }
  intros -> Hrm. unfold FileCopier.delete_source. rewrite Hrm.
  destruct (files1 !! source) eqn:E; cbn [fst]; [|exact E].
  apply lookup_delete_eq.
Qed.

End MovieManagerTransitions.

Lemma update_update_pending (st : Store.t) (movie_id : Z)
      (f g h : PendingMovie.t -> PendingMovie.t) :
  (forall m, PendingMovie.id (f m) = PendingMovie.id m) ->
  (forall m, g (f m) = h m) ->
  Store.update_pending (Store.update_pending st movie_id f) movie_id g
  = Store.update_pending st movie_id h.
Proof.
  intros Hid Hgf. unfold Store.update_pending. simpl. f_equal.
  rewrite List.map_map. apply List.map_ext. intros m.
  destruct (PendingMovie.id m =? movie_id) eqn:E.
  - now rewrite Hid, E.
  - now rewrite E.
Qed.

Lemma delete_update_pending (st : Store.t) (movie_id : Z)
      (f : PendingMovie.t -> PendingMovie.t) :
  (forall m, PendingMovie.id (f m) = PendingMovie.id m) ->
  Store.pending_movies
    (Store.delete_pending (Store.update_pending st movie_id f) movie_id)
  = Store.pending_movies (Store.delete_pending st movie_id).
Proof.
  intros Hid. unfold Store.delete_pending, Store.update_pending. simpl.
  induction (Store.pending_movies st) as [|m l IH]; [reflexivity|].
  simpl. destruct (PendingMovie.id m =? movie_id) eqn:E.
  - rewrite Hid, E. simpl. exact IH.
  - rewrite E. simpl. now rewrite IH.
Qed.

Lemma update_pending_absent (st : Store.t) (movie_id : Z)
      (f : PendingMovie.t -> PendingMovie.t) :
  Store.pending_by_id st movie_id = None ->
  Store.update_pending st movie_id f = st.
Proof.
  intros Hnone. unfold Store.update_pending. destruct st as [pend hist].
  simpl. f_equal. unfold Store.pending_by_id in Hnone. simpl in Hnone.
  induction pend as [|m l IH]; [reflexivity|]. simpl in *.
  destruct (PendingMovie.id m =? movie_id); [discriminate|].
  now rewrite IH.
Qed.

(** X6. A successful approval, on the side of the records: the record was
    pending; one transfer was made; the final path is the final name joined
    to the target directory; the pending row is gone and the other pending
    rows are as they were; the history has gained exactly one row, which
    carries the facts of the pending row, the final name and path, the
    version and the output of the renamer. *)
Theorem approve_success_records
        (config : MovieManager.Config) (env : MovieManager.Env)
        (st st' : Store.t) (files files' : gmap string Z) (movie_id : Z)
        (delete_source : bool) (orig fn fp : string) (v : Z) (n : nat) :
  MovieManager.approve_movie config env st files movie_id delete_source
  = (st', files', MovieManager.Approved orig fn fp v, n) ->
  exists movie output,
    Store.pending_by_id st movie_id = Some movie
    /\ PendingMovie.status movie = Status.pending
    /\ orig = PendingMovie.original_filename movie
    /\ n = 1%nat
    /\ 1 <= v
    /\ fp = FileCopier.dest_path_of (MovieManager.network_share config) fn
    /\ Store.pending_by_id st' movie_id = None
    /\ Store.pending_movies st'
       = Store.pending_movies (Store.delete_pending st movie_id)
    /\ Store.processed_movies st'
       = Store.processed_movies
           (Store.add_processed st
              (MovieManager.approved_row env movie fn fp v output)).
Proof.
  intros Hrun. unfold MovieManager.approve_movie in Hrun.
  destruct (approve_begin_cases st movie_id) as [Hb|(m & E & Hs & Hbegin)].
  { destruct (approve_begin_blocked st movie_id Hb) as (o & Ho & Hg).
    rewrite Ho in Hrun. injection Hrun as _ _ -> _.
    apply guard_failure_unsuccessful in Hg. discriminate. }
  rewrite Hbegin in Hrun.
  set (st1 := Store.update_pending st movie_id
                (PendingMovie.with_status Status.processing)) in *.
  pose proof (approve_finish_success config env st1 files
                (PendingMovie.with_status Status.processing m) movie_id
                delete_source orig fn fp v) as Hfin.
  cbv zeta in Hfin. rewrite Hrun in Hfin. cbn [fst snd] in Hfin.
  destruct (Hfin eq_refl)
    as (Horig & Hfp & Hn & (new_filename & output & Hren & Hdet & Hst) & _).
  exists m, output.
  assert (Store.pending_by_id st1 movie_id
          = Some (PendingMovie.with_status Status.processing m)) as E1.
  { unfold st1. rewrite pending_by_id_update by reflexivity.
    now rewrite E. }
  rewrite E1 in Hst.
  split; [exact E|]. split; [exact Hs|]. split; [exact Horig|].
  split; [exact Hn|]. split.
  { pose proof (detect_version_at_least_1 (MovieManager.ratio env)
                  (MovieManager.version_detection config) new_filename
                  (MovieManager._list_directory
                     (MovieManager.listdir_fails env) files
                     (MovieManager.target_dir config))) as Hv.
    now rewrite Hdet in Hv. }
  split; [exact Hfp|]. subst st'.
  split; [apply pending_by_id_delete|]. split; [|reflexivity].
  apply (delete_update_pending st movie_id). reflexivity.
Qed.

(** X7. A successful approval, on the side of the files: the source was
    there; no temp file is left; the final path holds a file of the size
    of the source; the source is kept when its deletion is not asked for,
    and is gone when it is asked for and the removal does not fail; no
    other path has changed. *)
Theorem approve_success_files
        (config : MovieManager.Config) (env : MovieManager.Env)
        (st st' : Store.t) (files files' : gmap string Z) (movie_id : Z)
        (delete_source : bool) (orig fn fp : string) (v : Z) (n : nat)
        (movie : PendingMovie.t) :
  let source := PendingMovie.original_path movie in
  let temp :=
    FileCopier.temp_path_of (MovieManager.network_share config) fn in
  MovieManager.approve_movie config env st files movie_id delete_source
  = (st', files', MovieManager.Approved orig fn fp v, n) ->
  Store.pending_by_id st movie_id = Some movie ->
  is_Some (files !! source)
  /\ files' !! temp = None
  /\ (source <> temp -> delete_source = false \/ source <> fp ->
      files' !! fp = files !! source)
  /\ (forall k, k <> temp -> k <> fp -> k <> source ->
                files' !! k = files !! k)
  /\ (source <> temp -> delete_source = false ->
      files' !! source = files !! source)
  /\ (delete_source = true ->
      MovieManager.source_remove_fails env = false ->
      files' !! source = None).
Proof.
  intros source temp Hrun E. unfold MovieManager.approve_movie in Hrun.
  destruct (approve_begin_cases st movie_id) as [Hb|(m & E' & Hs & Hbegin)].
  { destruct (approve_begin_blocked st movie_id Hb) as (o & Ho & Hg).
    rewrite Ho in Hrun. injection Hrun as _ _ -> _.
    apply guard_failure_unsuccessful in Hg. discriminate. }
  rewrite E in E'. injection E' as <-.
  rewrite Hbegin in Hrun.
  pose proof (approve_finish_success config env
                (Store.update_pending st movie_id
                   (PendingMovie.with_status Status.processing)) files
                (PendingMovie.with_status Status.processing movie) movie_id
                delete_source orig fn fp v) as Hfin.
  cbv zeta in Hfin. rewrite Hrun in Hfin. cbn [fst snd] in Hfin.
  destruct (Hfin eq_refl) as (_ & _ & _ & _ & Hfiles).
  exact Hfiles.
Qed.

(** X8. A failed approval never changes the history and makes at most
    one transfer. If the record was missing or not pending, nothing has
    changed. If it was pending, it now has the status 'failed' and carries
    as its error message the text of the exception, the other rows being
    untouched, and one of three things has happened. The renamer or the
    transfer raised: the call returns that same text, and no path has
    changed except, possibly, one that ends with ".tmp". The version check
    raised: the call returns the text behind the prefix "Unexpected
    error: ", which the stored message does not have, and no file has
    changed. Or the insert of the history record raised, the version number
    being 2^63 or more: the call returns the text behind the same prefix,
    and the transfer has been made, so that the final file is on the share
    with the size of the source, while the source is not deleted. *)
Theorem approve_failure_effect
        (config : MovieManager.Config) (env : MovieManager.Env)
        (st st' : Store.t) (files files' : gmap string Z) (movie_id : Z)
        (delete_source : bool) (e : string) (n : nat) :
  MovieManager.approve_movie config env st files movie_id delete_source
  = (st', files', MovieManager.Failure e, n) ->
  Store.processed_movies st' = Store.processed_movies st
  /\ (n <= 1)%nat
  /\ (MovieManager.blocked st movie_id ->
      st' = st /\ files' = files /\ n = 0%nat)
  /\ (forall movie,
         Store.pending_by_id st movie_id = Some movie ->
         PendingMovie.status movie = Status.pending ->
         let source := PendingMovie.original_path movie in
         exists msg,
           st' = Store.update_pending st movie_id
                   (MovieManager.failed_with msg)
           /\ Store.pending_by_id st' movie_id
              = Some (MovieManager.failed_with msg movie)
           /\ ((e = msg
                /\ forall k, Py.endswith k ".tmp" = false ->
                             files' !! k = files !! k)
               \/ (e = "Unexpected error: " +:+ msg
                   /\ files' = files
                   /\ n = 0%nat
                   /\ exists new_filename library_error,
                       MovieManager.detection_error env
                       = Some library_error
                       /\ msg = "Error detecting version for "
                                  +:+ new_filename +:+ ": "
                                  +:+ library_error)
               \/ (e = "Unexpected error: " +:+ msg
                   /\ msg
                      = "Python int too large to convert to SQLite INTEGER"
                   /\ n = 1%nat
                   /\ exists fn v,
                       2 ^ 63 <= v
                       /\ is_Some (files !! source)
                       /\ files'
                          !! FileCopier.temp_path_of
                               (MovieManager.network_share config) fn
                          = None
                       /\ (source
                           <> FileCopier.temp_path_of
                                (MovieManager.network_share config) fn ->
                           files'
                           !! FileCopier.dest_path_of
                                (MovieManager.network_share config) fn
                           = files !! source)
                       /\ forall k,
                           k <> FileCopier.temp_path_of
                                  (MovieManager.network_share config) fn ->
                           k <> FileCopier.dest_path_of
                                  (MovieManager.network_share config) fn ->
                           files' !! k = files !! k))).
Proof.
  intros Hrun.
  pose proof (approve_movie_spec config env st files movie_id
                delete_source) as Hspec.
  cbv zeta in Hspec. rewrite Hrun in Hspec. cbn [fst snd] in Hspec.
  destruct Hspec as (Hn & _ & _).
  unfold MovieManager.approve_movie in Hrun.
  destruct (approve_begin_cases st movie_id) as [Hb|(m & E & Hs & Hbegin)].
  { destruct (approve_begin_blocked st movie_id Hb) as (o & Ho & Hg).
    rewrite Ho in Hrun. injection Hrun as <- <- -> <-.
    split; [reflexivity|]. split; [lia|]. split; [auto|].
    intros movie Em Hpend. exfalso.
    destruct Hb as [Hb|(m & Hm & Hne)]; congruence. }
  rewrite Hbegin in Hrun.
  pose proof (approve_finish_failure config env
                (Store.update_pending st movie_id
                   (PendingMovie.with_status Status.processing)) files
                (PendingMovie.with_status Status.processing m) movie_id
                delete_source e) as Hfin.
  cbv zeta in Hfin. rewrite Hrun in Hfin. cbn [fst snd] in Hfin.
  destruct (Hfin eq_refl) as (msg & Hst & Hcases). clear Hfin.
  rewrite (update_update_pending st movie_id _ _
             (MovieManager.failed_with msg)) in Hst
    by reflexivity.
  subst st'. split; [reflexivity|]. split; [exact Hn|]. split.
  { intros [Hb|(m' & Hm' & Hne)]; congruence. }
  intros movie Em _. cbv zeta. rewrite E in Em. injection Em as <-.
  exists msg. split; [reflexivity|]. split.
  { rewrite pending_by_id_update by reflexivity. now rewrite E. }
  destruct Hcases as [(He & _ & Hk)|[(He & Hf & Hn0 & Hd)
                                    |(He & Hm & Hn1 & _ & Hpub)]].
  - left. now split.
  - right. left. auto.
  - right. right. split; [exact He|]. split; [exact Hm|].
    split; [exact Hn1|].
    destruct Hpub as (new_filename & output & fn & v & _ & Hdet & Hfit
                      & Hsrc & Htmp & Hdest & Hk).
    exists fn, v. split; [|auto].
    pose proof (detect_version_at_least_1 (MovieManager.ratio env)
                  (MovieManager.version_detection config) new_filename
                  (MovieManager._list_directory
                     (MovieManager.listdir_fails env) files
                     (MovieManager.target_dir config))) as Hv.
    rewrite Hdet in Hv. cbn [snd] in Hv.
    unfold Store.fits_integer in Hfit. lia.
Qed.

Lemma approve_finish_not_rejected (config : MovieManager.Config)
      (env : MovieManager.Env) (st : Store.t) (files : gmap string Z)
      (movie : PendingMovie.t) (movie_id : Z) (delete_source : bool)
      (name : string) :
  (MovieManager.approve_finish config env st files movie movie_id
     delete_source).1.2 <> MovieManager.Rejected name.
Proof.
  unfold MovieManager.approve_finish.
  assert (forall e (fs : gmap string Z) (n : nat),
             (let '(st', o) := MovieManager.mark_failed st movie_id e in
              (st', fs, o, n)).1.2 <> MovieManager.Rejected name) as Hf.
  { intros e fs n. destruct e; simpl; discriminate. }
  destruct (MovieRenamer.rename_movie _ _ _ _ _)
    as [[[new_filename|] output]|e0]; [|apply Hf|apply Hf].
  destruct (VersionDetector.detect_version_call _ _ _ _ _)
    as [[versioned_filename version_number]|e1]; [|apply Hf].
  destruct (FileCopier.copy_file _ _ _ _ _)
    as [[files1 [final_path|e1]] trace]; [|apply Hf].
  destruct (MovieManager.record_approval _ _ _ _ _ _ _) as [st1|e1];
    [|apply Hf].
  cbn [fst snd]. discriminate.
Qed.

Lemma approve_success_records_witness :
  let out :=
    MovieManager.approve_movie Scenario.manager_config
      (Scenario.manager_env false) Scenario.one_pending Scenario.download
      1 true in
  out.1.2 = MovieManager.Approved "a.mkv" "A (2020).mkv"
              "/mnt/share/Movies/A (2020).mkv" 1
  /\ Store.pending_by_id out.1.1.1 1 = None
  /\ length (Store.processed_movies out.1.1.1) = 1%nat.
Proof.
  set (out := MovieManager.approve_movie Scenario.manager_config
                (Scenario.manager_env false) Scenario.one_pending
                Scenario.download 1 true).
  assert (out = (out.1.1.1, out.1.1.2,
                 MovieManager.Approved "a.mkv" "A (2020).mkv"
                   "/mnt/share/Movies/A (2020).mkv" 1, 1%nat)) as Hrun
    by (vm_compute; reflexivity).
  cbv zeta. split; [now rewrite Hrun|].
  destruct (approve_success_records _ _ _ _ _ _ _ _ _ _ _ _ _ Hrun)
    as (movie & output & _ & _ & _ & _ & _ & _ & Hgone & _ & Hhist).
  split; [exact Hgone|]. rewrite Hhist. reflexivity.
Defined.

Lemma approve_success_files_witness :
  let out :=
    MovieManager.approve_movie Scenario.manager_config
      (Scenario.manager_env false) Scenario.one_pending Scenario.download
      1 true in
  out.1.1.2 !! "/mnt/share/Movies/A (2020).mkv" = Some 10
  /\ out.1.1.2 !! "/dl/a.mkv" = None.
Proof.
  set (out := MovieManager.approve_movie Scenario.manager_config
                (Scenario.manager_env false) Scenario.one_pending
                Scenario.download 1 true).
  assert (out = (out.1.1.1, out.1.1.2,
                 MovieManager.Approved "a.mkv" "A (2020).mkv"
                   "/mnt/share/Movies/A (2020).mkv" 1, 1%nat)) as Hrun
    by (vm_compute; reflexivity).
  assert (Store.pending_by_id Scenario.one_pending 1
          = Some {| PendingMovie.id := 1;
                    PendingMovie.original_path := "/dl/a.mkv";
                    PendingMovie.original_filename := "a.mkv";
                    PendingMovie.file_size := 10;
                    PendingMovie.detected_at := 0;
                    PendingMovie.status := Status.pending;
                    PendingMovie.error_message := None;
                    PendingMovie.metadata := Some (".mkv", 0) |}) as Hrow
    by reflexivity.
  destruct (approve_success_files _ _ _ _ _ _ _ _ _ _ _ _ _ _ Hrun Hrow)
    as (_ & _ & Hfinal & _ & _ & Hgone).
  cbv zeta. split.
  - rewrite Hfinal; [reflexivity|discriminate|right; discriminate].
  - apply Hgone; reflexivity.
Defined.

Lemma approve_failure_effect_witness :
  let out :=
    MovieManager.approve_movie Scenario.manager_config
      (Scenario.manager_env false) Scenario.one_pending
      Scenario.download_and_last_version 1 true in
  out.1.2
  = MovieManager.Failure
      "Unexpected error: Python int too large to convert to SQLite INTEGER"
  /\ out.2 = 1%nat
  /\ Store.processed_movies out.1.1.1 = []
  /\ option_map PendingMovie.status (Store.pending_by_id out.1.1.1 1)
     = Some Status.failed
  /\ option_map PendingMovie.error_message
       (Store.pending_by_id out.1.1.1 1)
     = Some (Some "Python int too large to convert to SQLite INTEGER")
  /\ out.1.1.2 !! "/mnt/share/Movies/A (2020).v9223372036854775808.mkv"
     = Some 10
  /\ out.1.1.2 !! "/dl/a.mkv" = Some 10.
Proof.
  set (out := MovieManager.approve_movie Scenario.manager_config
                (Scenario.manager_env false) Scenario.one_pending
                Scenario.download_and_last_version 1 true).
  assert (out
          = (out.1.1.1, out.1.1.2,
             MovieManager.Failure
               "Unexpected error: Python int too large to convert to SQLite INTEGER",
             1%nat)) as Hrun
    by (vm_compute; reflexivity).
  destruct (approve_failure_effect _ _ _ _ _ _ _ _ _ _ Hrun)
    as (Hhist & _ & _ & _).
  cbv zeta. split; [now rewrite Hrun|]. split; [now rewrite Hrun|].
  split; [exact Hhist|]. vm_compute. repeat split; reflexivity.
Defined.

(** X9. A rejection is not guarded by the status: whatever the status of
    the record, it is answered with success, removes the pending row and
    adds the rejected row to the history; on the file system it can change
    the source path only, and nothing when the deletion is not asked for.
    After it, an approval or a second rejection of the same id is answered
    'not found' and changes nothing. *)
Theorem reject_is_final
        (config : MovieManager.Config) (env env' : MovieManager.Env)
        (st : Store.t) (files : gmap string Z) (movie_id : Z)
        (delete_source delete_source' : bool) (movie : PendingMovie.t) :
  let out :=
    MovieManager.reject_movie env st files movie_id delete_source in
  Store.pending_by_id st movie_id = Some movie ->
  out.2 = MovieManager.Rejected (PendingMovie.original_filename movie)
  /\ out.1.1
     = Store.delete_pending
         (Store.add_processed st (MovieManager.rejected_row env movie))
         movie_id
  /\ (forall k, k <> PendingMovie.original_path movie ->
                out.1.2 !! k = files !! k)
  /\ (delete_source = false -> out.1.2 = files)
  /\ MovieManager.approve_movie config env' out.1.1 out.1.2 movie_id
       delete_source'
     = (out.1.1, out.1.2,
        MovieManager.Failure (MovieManager.not_found movie_id), 0%nat)
  /\ MovieManager.reject_movie env' out.1.1 out.1.2 movie_id delete_source'
     = (out.1.1, out.1.2,
        MovieManager.Failure (MovieManager.not_found movie_id)).
Proof.
  intros out E.
  set (st1 := Store.delete_pending
                (Store.add_processed st
                   (MovieManager.rejected_row env movie)) movie_id).
  set (files1 :=
         if delete_source
         then (FileCopier.delete_source
                 (MovieManager.source_remove_fails env) files
                 (PendingMovie.original_path movie)).1
         else files).
  assert (out = (st1, files1,
                 MovieManager.Rejected
                   (PendingMovie.original_filename movie))) as Hout.
  { unfold out, MovieManager.reject_movie. rewrite E. reflexivity. }
  clearbody out. subst out. cbn [fst snd].
  assert (Store.pending_by_id st1 movie_id = None) as Hgone
    by apply pending_by_id_delete.
  split; [reflexivity|]. split; [reflexivity|]. split.
  { intros k Hk. unfold files1. destruct delete_source; [|reflexivity].
    unfold FileCopier.delete_source.
    destruct (files !! PendingMovie.original_path movie); [|reflexivity].
    destruct (MovieManager.source_remove_fails env); [reflexivity|].
    cbn [fst]. now apply lookup_delete_ne. }
  split; [now intros ->|]. split.
  - unfold MovieManager.approve_movie, MovieManager.approve_begin.
    now rewrite Hgone.
  - unfold MovieManager.reject_movie. now rewrite Hgone.
Qed.

Lemma reject_is_final_witness :
  let out :=
    MovieManager.reject_movie (Scenario.manager_env false)
      Scenario.one_pending Scenario.download 1 true in
  out.2 = MovieManager.Rejected "a.mkv"
  /\ MovieManager.success
       (MovieManager.approve_movie Scenario.manager_config
          (Scenario.manager_env false) out.1.1 out.1.2 1 true).1.2
     = false.
Proof.
  assert (Store.pending_by_id Scenario.one_pending 1
          = Some {| PendingMovie.id := 1;
                    PendingMovie.original_path := "/dl/a.mkv";
                    PendingMovie.original_filename := "a.mkv";
                    PendingMovie.file_size := 10;
                    PendingMovie.detected_at := 0;
                    PendingMovie.status := Status.pending;
                    PendingMovie.error_message := None;
                    PendingMovie.metadata := Some (".mkv", 0) |}) as Hrow
    by reflexivity.
  destruct (reject_is_final Scenario.manager_config
              (Scenario.manager_env false) (Scenario.manager_env false)
              Scenario.one_pending Scenario.download 1 true true _ Hrow)
    as (Ho & _ & _ & _ & Happ & _).
  cbv zeta. split; [exact Ho|]. now rewrite Happ.
Defined.

(** X10. A record that is rejected while its approval is under way, the
    rejection falling between the guard of the approval and its external
    calls: the rejection is answered with success, the pending row is gone
    and the history gains the rejected row and no other. The approval
    still runs the renamer and the transfer: when it reports success, one
    transfer was made and the final path holds a copy of the source, yet
    the history holds no approved record of it. *)
Theorem approval_of_rejected_record_leaves_no_history
        (config : MovieManager.Config) (env env' : MovieManager.Env)
        (st : Store.t) (files : gmap string Z) (movie_id : Z)
        (delete_source : bool) (movie : PendingMovie.t) :
  let out :=
    MovieManager.approve_rejected_meanwhile config env env' st files
      movie_id delete_source in
  let source := PendingMovie.original_path movie in
  Store.pending_by_id st movie_id = Some movie ->
  PendingMovie.status movie = Status.pending ->
  out.1.2 = MovieManager.Rejected (PendingMovie.original_filename movie)
  /\ Store.pending_by_id out.1.1.1.1 movie_id = None
  /\ Store.processed_movies out.1.1.1.1
     = Store.processed_movies
         (Store.add_processed st (MovieManager.rejected_row env' movie))
  /\ (forall orig fn fp v,
         out.1.1.2 = MovieManager.Approved orig fn fp v ->
         out.2 = 1%nat
         /\ fp = FileCopier.dest_path_of
                   (MovieManager.network_share config) fn
         /\ (source
             <> FileCopier.temp_path_of
                  (MovieManager.network_share config) fn ->
             delete_source = false \/ source <> fp ->
             out.1.1.1.2 !! fp = files !! source)).
Proof.
  intros out source E Hs. subst out.
  unfold MovieManager.approve_rejected_meanwhile.
  destruct (approve_begin_cases st movie_id) as [Hb|(m & E' & _ & Hbegin)].
  { exfalso. destruct Hb as [Hb|(m & Hm & Hne)]; congruence. }
  rewrite E in E'. injection E' as <-. rewrite Hbegin.
  set (st1 := Store.update_pending st movie_id
                (PendingMovie.with_status Status.processing)).
  assert (Store.pending_by_id st1 movie_id
          = Some (PendingMovie.with_status Status.processing movie)) as E1.
  { unfold st1. rewrite pending_by_id_update by reflexivity.
    now rewrite E. }
  unfold MovieManager.reject_movie. rewrite E1.
  fold (MovieManager.rejected_row env'
          (PendingMovie.with_status Status.processing movie)).
  change (MovieManager.rejected_row env'
            (PendingMovie.with_status Status.processing movie))
    with (MovieManager.rejected_row env' movie).
  cbn [PendingMovie.original_filename PendingMovie.with_status].
  set (st2 := Store.delete_pending (Store.add_processed st1 _) movie_id).
  assert (Store.pending_by_id st2 movie_id = None) as Hgone
    by apply pending_by_id_delete.
  pose proof (approve_finish_success config env st2 files
                (PendingMovie.with_status Status.processing movie) movie_id
                delete_source) as Hok.
  pose proof (approve_finish_failure config env st2 files
                (PendingMovie.with_status Status.processing movie) movie_id
                delete_source) as Hko.
  pose proof (approve_finish_not_rejected config env st2 files
                (PendingMovie.with_status Status.processing movie) movie_id
                delete_source) as Hnr.
  cbv zeta in Hok, Hko.
  destruct (MovieManager.approve_finish config env st2 files _ movie_id
              delete_source) as [[[st3 files3] oa] n].
  cbn [fst snd] in *.
  assert (st3 = st2) as ->.
  { destruct oa as [orig fn fp v|name|e].
    - destruct (Hok orig fn fp v eq_refl)
        as (_ & _ & _ & (nf & output & _ & _ & Hst) & _).
      now rewrite Hgone in Hst.
    - now destruct (Hnr name).
    - destruct (Hko e eq_refl) as (msg & Hst & _).
      now rewrite update_pending_absent in Hst. }
  split; [reflexivity|]. split; [exact Hgone|]. split; [reflexivity|].
  intros orig fn fp v ->.
  destruct (Hok orig fn fp v eq_refl)
    as (_ & Hfp & Hn & _ & _ & _ & Hfinal & _).
  split; [exact Hn|]. split; [exact Hfp|]. exact Hfinal.
Qed.

Lemma approval_of_rejected_record_leaves_no_history_witness :
  let out :=
    MovieManager.approve_rejected_meanwhile Scenario.manager_config
      (Scenario.manager_env false) (Scenario.manager_env false)
      Scenario.one_pending Scenario.download 1 false in
  MovieManager.success out.1.1.2 = true
  /\ out.1.2 = MovieManager.Rejected "a.mkv"
  /\ map ProcessedMovie.action (Store.processed_movies out.1.1.1.1)
     = [Action.rejected].
Proof.
  assert (Store.pending_by_id Scenario.one_pending 1
          = Some {| PendingMovie.id := 1;
                    PendingMovie.original_path := "/dl/a.mkv";
                    PendingMovie.original_filename := "a.mkv";
                    PendingMovie.file_size := 10;
                    PendingMovie.detected_at := 0;
                    PendingMovie.status := Status.pending;
                    PendingMovie.error_message := None;
                    PendingMovie.metadata := Some (".mkv", 0) |}) as Hrow
    by reflexivity.
  destruct (approval_of_rejected_record_leaves_no_history
              Scenario.manager_config (Scenario.manager_env false)
              (Scenario.manager_env false) Scenario.one_pending
              Scenario.download 1 false _ Hrow eq_refl)
    as (Ho & _ & Hhist & _).
  cbv zeta. split; [vm_compute; reflexivity|]. split; [exact Ho|].
  rewrite Hhist. reflexivity.
Defined.

(** ** The record store: the other writers and the readers *)

Lemma pending_by_id_update_other (st : Store.t) (movie_id other : Z)
      (f : PendingMovie.t -> PendingMovie.t) :
  (forall m, PendingMovie.id (f m) = PendingMovie.id m) ->
  other <> movie_id ->
  Store.pending_by_id (Store.update_pending st movie_id f) other
  = Store.pending_by_id st other.
Proof.
  intros Hid Hne. unfold Store.pending_by_id, Store.update_pending. simpl.
  induction (Store.pending_movies st) as [|m l IH]; [reflexivity|].
  simpl. destruct (PendingMovie.id m =? movie_id) eqn:E.
  - rewrite Hid. apply Z.eqb_eq in E.
    destruct (Z.eqb_spec (PendingMovie.id m) other); [lia|exact IH].
  - destruct (PendingMovie.id m =? other); [reflexivity|exact IH].
Qed.

Lemma of_str_str (s : Status.t) : Status.of_str (Status.str s) = Some s.
Proof. destruct s; reflexivity. Qed.

Lemma of_str_some (text : string) (s : Status.t) :
  Status.of_str text = Some s -> text = Status.str s.
Proof.
  unfold Status.of_str. intros H.
  apply List.find_some in H as [_ H]. apply Str.eqb_eq in H. now symmetry.
Qed.

(** X11. [update_status]. An id outside the 64-bit range of the key
    column cannot be bound into the query: the call raises
    [DatabaseError] and changes nothing. For an id inside that range: an id
    that is not there gives [False] and a status text that the table does
    not admit raises [DatabaseError], both without any change; otherwise
    the row gets the status the text names, its error message is replaced
    only by a message that is not empty (so an error message cannot be
    cleared), every other column, every other row and the history are as
    they were, and the answer is [True]. *)
Theorem update_status_effect
        (st : Store.t) (movie_id : Z) (status : string)
        (error_message : option string) :
  let out := FileProcessor.update_status st movie_id status error_message in
  ((movie_id < - 2 ^ 63 \/ 2 ^ 63 <= movie_id) ->
   out = (st,
          Raise (DatabaseError
                   "Failed to update movie status: Python int too large to convert to SQLite INTEGER")))
  /\ (- 2 ^ 63 <= movie_id < 2 ^ 63 ->
      (Store.pending_by_id st movie_id = None -> out = (st, Ok false))
      /\ (forall movie,
             Store.pending_by_id st movie_id = Some movie ->
             Status.of_str status = None ->
             out.1 = st /\ exists text, out.2 = Raise (DatabaseError text))
      /\ (forall movie s,
             Store.pending_by_id st movie_id = Some movie ->
             Status.of_str status = Some s ->
             out.2 = Ok true
             /\ Store.processed_movies out.1 = Store.processed_movies st
             /\ (forall other, other <> movie_id ->
                    Store.pending_by_id out.1 other
                    = Store.pending_by_id st other)
             /\ exists movie',
                 Store.pending_by_id out.1 movie_id = Some movie'
                 /\ Status.str (PendingMovie.status movie') = status
                 /\ PendingMovie.error_message movie'
                    = match error_message with
                      | Some msg =>
                          if Str.eqb msg ""
                          then PendingMovie.error_message movie
                          else Some msg
                      | None => PendingMovie.error_message movie
                      end
                 /\ PendingMovie.id movie' = PendingMovie.id movie
                 /\ PendingMovie.original_path movie'
                    = PendingMovie.original_path movie
                 /\ PendingMovie.original_filename movie'
                    = PendingMovie.original_filename movie
                 /\ PendingMovie.file_size movie'
                    = PendingMovie.file_size movie
                 /\ PendingMovie.detected_at movie'
                    = PendingMovie.detected_at movie
                 /\ PendingMovie.metadata movie'
                    = PendingMovie.metadata movie)).
Proof.
  cbv zeta. unfold FileProcessor.update_status, Store.bind_integer. split.
  { intros Hout.
    replace (Store.fits_integer movie_id) with false; [reflexivity|].
    unfold Store.fits_integer. lia. }
  intros Hin.
  replace (Store.fits_integer movie_id) with true
    by (unfold Store.fits_integer; lia).
  split; [intros ->; reflexivity|]. split.
  - intros movie -> ->. cbn [fst snd]. split; [reflexivity|eauto].
  - intros movie s Em Hs. rewrite Em, Hs. cbn [fst snd].
    assert (forall m,
               PendingMovie.id
                 (match error_message with
                  | Some msg =>
                      if Str.eqb msg ""
                      then PendingMovie.with_status s m
                      else PendingMovie.with_error msg
                             (PendingMovie.with_status s m)
                  | None => PendingMovie.with_status s m
                  end) = PendingMovie.id m) as Hid.
    { intros m. destruct error_message as [msg|]; [|reflexivity].
      destruct (Str.eqb msg ""); reflexivity. }
    split; [reflexivity|]. split; [reflexivity|]. split.
    { intros other Hne. now apply pending_by_id_update_other. }
    rewrite pending_by_id_update by exact Hid. rewrite Em. simpl.
    eexists. split; [reflexivity|].
    apply of_str_some in Hs. subst status.
    destruct error_message as [msg|];
      [destruct (Str.eqb msg "")|]; simpl; repeat split; reflexivity.
Qed.

Lemma update_status_effect_witness :
  (FileProcessor.update_status Scenario.one_pending 1 "failed"
     (Some "")).2 = Ok true
  /\ (FileProcessor.update_status Scenario.one_pending 1 "done" None).1
     = Scenario.one_pending
  /\ FileProcessor.update_status Scenario.one_pending 2 "failed" None
     = (Scenario.one_pending, Ok false)
  /\ FileProcessor.update_status Scenario.one_pending (2 ^ 63) "failed"
       None
     = (Scenario.one_pending,
        Raise (DatabaseError
                 "Failed to update movie status: Python int too large to convert to SQLite INTEGER")).
Proof.
  pose proof (update_status_effect Scenario.one_pending 1 "failed"
                (Some "")) as (_ & Hok).
  pose proof (update_status_effect Scenario.one_pending 1 "done" None)
    as (_ & Hbad).
  pose proof (update_status_effect Scenario.one_pending 2 "failed" None)
    as (_ & Habsent).
  pose proof (update_status_effect Scenario.one_pending (2 ^ 63) "failed"
                None) as (Hout & _).
  cbv zeta in *.
  destruct (Hok ltac:(lia)) as (_ & _ & Hok').
  destruct (Hbad ltac:(lia)) as (_ & Hbad' & _).
  destruct (Habsent ltac:(lia)) as (Habsent' & _).
  split; [apply (Hok' _ Status.failed eq_refl eq_refl)|].
  split; [apply (Hbad' _ eq_refl eq_refl)|].
  split; [apply Habsent'; reflexivity|].
  apply Hout. right. lia.
Defined.

(** ** The watcher: what an event can do to the store *)

Lemma get_file_info_cases (world : nat -> string -> file_state)
      (mtime : string -> Z) (path : string) :
  (FileValidator.size_at world 5 path = None
   /\ MovieFileHandler.get_file_info world mtime path = None)
  \/ exists size,
      FileValidator.size_at world 5 path = Some size
      /\ MovieFileHandler.get_file_info world mtime path
         = Some {| FileProcessor.path := path;
                   FileProcessor.filename := Py.basename path;
                   FileProcessor.size := size;
                   FileProcessor.extension := Py.path_suffix path;
                   FileProcessor.modified_time := mtime path |}.
Proof.
  unfold FileValidator.size_at, MovieFileHandler.get_file_info.
  destruct (world 5%nat path); eauto.
Qed.

(** What [_process_file] does, by what the validator, [os.stat] and the
    table answer. *)
Lemma handler_cases (config : FileValidator.Config)
      (world : nat -> string -> file_state) (mtime : string -> Z)
      (now : Z) (st : Store.t) (path : string) :
  MovieFileHandler._process_file config world mtime now st path
  = (st,
     match FileValidator.validate_file config world path with
     | Raise e => MovieFileHandler.Errored e
     | Ok false => MovieFileHandler.Invalid
     | Ok true =>
         match FileValidator.size_at world 5 path with
         | None => MovieFileHandler.NoInfo
         | Some _ =>
             match Store.pending_by_path st path with
             | Some _ => MovieFileHandler.AlreadyTracked
             | None =>
                 MovieFileHandler.Errored
                   (DatabaseError
                      "Failed to add file to database: 'file_metadata' is an invalid keyword argument for PendingMovie")
             end
         end
     end).
Proof.
  unfold MovieFileHandler._process_file.
  destruct (FileValidator.validate_file config world path) as [[|]|e];
    try reflexivity.
  destruct (get_file_info_cases world mtime path)
    as [[-> ->]|(size & -> & ->)]; [reflexivity|].
  destruct (Store.pending_by_path st path) as [m|] eqn:E.
  - rewrite process_file_tracked
      by (cbn [FileProcessor.path]; congruence).
    reflexivity.
  - rewrite process_file_untracked by exact E. reflexivity.
Qed.

Lemma handler_store (config : FileValidator.Config)
      (world : nat -> string -> file_state) (mtime : string -> Z)
      (now : Z) (st : Store.t) (path : string) :
  (MovieFileHandler._process_file config world mtime now st path).1 = st.
Proof. now rewrite handler_cases. Qed.

(** X12. A file system event never changes the store: no row is added,
    whatever the event. A directory event is ignored. For a file, the
    handler stops at the first of these: the validator raises, and the
    error is logged; the validator refuses the path; [os.stat] no longer
    finds the file; a row tracks the path already. When none of them
    holds - the path is accepted, still there and not tracked -
    [process_file] is reached and raises [DatabaseError], because of the
    keyword that the record class does not have, and the handler logs
    that error. A modification event is handled as a creation event
    is. *)
Theorem event_never_changes_the_store
        (config : FileValidator.Config)
        (world : nat -> string -> file_state) (mtime : string -> Z)
        (now : Z) (st : Store.t) (ev : MovieFileHandler.event) :
  let out := MovieFileHandler.on_created config world mtime now st ev in
  let path := MovieFileHandler.src_path ev in
  out.1 = st
  /\ (forall row, out.2 <> MovieFileHandler.Added row)
  /\ MovieFileHandler.on_modified config world mtime now st ev = out
  /\ (MovieFileHandler.is_directory ev = true ->
      out.2 = MovieFileHandler.Ignored)
  /\ (MovieFileHandler.is_directory ev = false ->
      (forall e,
          FileValidator.validate_file config world path = Raise e ->
          out.2 = MovieFileHandler.Errored e)
      /\ (FileValidator.validate_file config world path = Ok false ->
          out.2 = MovieFileHandler.Invalid)
      /\ (FileValidator.validate_file config world path = Ok true ->
          (FileValidator.size_at world 5 path = None ->
           out.2 = MovieFileHandler.NoInfo)
          /\ (is_Some (FileValidator.size_at world 5 path) ->
              Store.pending_by_path st path <> None ->
              out.2 = MovieFileHandler.AlreadyTracked)
          /\ (is_Some (FileValidator.size_at world 5 path) ->
              Store.pending_by_path st path = None ->
              out.2
              = MovieFileHandler.Errored
                  (DatabaseError
                     "Failed to add file to database: 'file_metadata' is an invalid keyword argument for PendingMovie")))).
Proof.
  intros out path. subst out.
  unfold MovieFileHandler.on_created, MovieFileHandler.on_modified.
  destruct (MovieFileHandler.is_directory ev) eqn:Hdir.
  { cbn [fst snd]. repeat split; try reflexivity; discriminate. }
  fold path. rewrite handler_cases. cbn [fst snd].
  split; [reflexivity|]. split.
  { intros row.
    destruct (FileValidator.validate_file config world path) as [[|]|e];
      try discriminate.
    destruct (FileValidator.size_at world 5 path); [|discriminate].
    destruct (Store.pending_by_path st path); discriminate. }
  split; [reflexivity|]. split; [discriminate|]. intros _.
  split; [intros e ->; reflexivity|]. split; [intros ->; reflexivity|].
  intros ->. split; [intros ->; reflexivity|]. split.
  - intros [size ->] Htr.
    destruct (Store.pending_by_path st path); [reflexivity|congruence].
  - intros [size ->] ->. reflexivity.
Qed.

(** ** The record store: the constraints are kept, the counts follow *)

Lemma mark_failed_store (st : Store.t) (movie_id : Z) (e : exn) :
  (MovieManager.mark_failed st movie_id e).1
  = Store.update_pending st movie_id
      (MovieManager.failed_with (exn_str e)).
Proof. destruct e; reflexivity. Qed.

(** The store after an approval, by the dictionary returned. *)
Lemma approve_movie_store (config : MovieManager.Config)
      (env : MovieManager.Env) (st : Store.t) (files : gmap string Z)
      (movie_id : Z) (delete_source : bool) :
  let out :=
    MovieManager.approve_movie config env st files movie_id delete_source in
  match out.1.2 with
  | MovieManager.Approved orig fn fp v =>
      exists movie output,
        Store.pending_by_id st movie_id = Some movie
        /\ PendingMovie.status movie = Status.pending
        /\ out.1.1.1
           = Store.delete_pending
               (Store.add_processed
                  (Store.update_pending st movie_id
                     (PendingMovie.with_status Status.processing))
                  (MovieManager.approved_row env movie fn fp v output))
               movie_id
  | MovieManager.Failure e =>
      (MovieManager.blocked st movie_id /\ out.1.1.1 = st)
      \/ exists movie msg,
          Store.pending_by_id st movie_id = Some movie
          /\ PendingMovie.status movie = Status.pending
          /\ out.1.1.1
             = Store.update_pending st movie_id
                 (MovieManager.failed_with msg)
  | MovieManager.Rejected _ => False
  end.
Proof.
  cbv zeta. unfold MovieManager.approve_movie.
  destruct (approve_begin_cases st movie_id) as [Hb|(m & E & Hs & Hbegin)].
  { destruct (approve_begin_blocked st movie_id Hb) as (o & -> & Hg).
    cbn [fst snd]. destruct Hg as [->|(s & _ & ->)]; left; now split. }
  rewrite Hbegin.
  set (st1 := Store.update_pending st movie_id
                (PendingMovie.with_status Status.processing)).
  pose proof (approve_finish_success config env st1 files
                (PendingMovie.with_status Status.processing m) movie_id
                delete_source) as Hok.
  pose proof (approve_finish_failure config env st1 files
                (PendingMovie.with_status Status.processing m) movie_id
                delete_source) as Hko.
  pose proof (approve_finish_not_rejected config env st1 files
                (PendingMovie.with_status Status.processing m) movie_id
                delete_source) as Hnr.
  cbv zeta in Hok, Hko.
  destruct (MovieManager.approve_finish config env st1 files _ movie_id
              delete_source) as [[[st3 files3] oa] n].
  cbn [fst snd] in *. destruct oa as [orig fn fp v|name|e].
  - destruct (Hok orig fn fp v eq_refl)
      as (_ & _ & _ & (nf & output & _ & _ & Hst) & _).
    exists m, output. split; [exact E|]. split; [exact Hs|].
    unfold st1 in Hst at 1.
    rewrite pending_by_id_update, E in Hst by reflexivity. exact Hst.
  - now destruct (Hnr name).
  - right. destruct (Hko e eq_refl) as (msg & Hst & _).
    exists m, msg. split; [exact E|]. split; [exact Hs|].
    rewrite Hst. unfold st1.
    now apply update_update_pending.
Qed.

Lemma one_pending_well_formed : Store.well_formed Scenario.one_pending.
Proof.
  unfold Store.well_formed, Store.unique_ids, Store.unique_paths,
    Store.unique_history_ids. simpl.
  split; [apply NoDup_singleton|]. split; [apply NoDup_singleton|].
  split; [constructor; [simpl; lia|constructor]|]. split; constructor.
Qed.

(** X13. The constraints of the tables hold of the empty store and are
    kept by every operation that writes the store: ingestion, the status
    update, approval, rejection and the handling of a file system event.
    So at all times the keys of each table are distinct and positive, and
    no two pending rows track the same path. *)
Theorem store_constraints_invariant :
  Store.well_formed Store.empty
  /\ forall st : Store.t,
      Store.well_formed st ->
      (forall now info,
          Store.well_formed (FileProcessor.process_file now st info).1)
      /\ (forall movie_id status error_message,
             Store.well_formed
               (FileProcessor.update_status st movie_id status
                  error_message).1)
      /\ (forall config env files movie_id delete_source,
             Store.well_formed
               (MovieManager.approve_movie config env st files movie_id
                  delete_source).1.1.1)
      /\ (forall env files movie_id delete_source,
             Store.well_formed
               (MovieManager.reject_movie env st files movie_id
                  delete_source).1.1)
      /\ (forall config world mtime now ev,
             Store.well_formed
               (MovieFileHandler.on_created config world mtime now st ev).1
             /\ Store.well_formed
                  (MovieFileHandler.on_modified config world mtime now st
                     ev).1).
Proof.
  split.
  { unfold Store.well_formed, Store.unique_ids, Store.unique_paths,
      Store.unique_history_ids. simpl.
    repeat split; constructor. }
  intros st Hwf.
  assert (forall now info,
             Store.well_formed (FileProcessor.process_file now st info).1)
    as Hproc.
  { intros now info. now rewrite process_file_store. }
  assert (forall config world mtime now path,
             Store.well_formed
               (MovieFileHandler._process_file config world mtime now st
                  path).1) as Hhandle.
  { intros config world mtime now path. now rewrite handler_store. }
  split; [exact Hproc|]. split.
  { intros movie_id status error_message.
    unfold FileProcessor.update_status.
    destruct (Store.bind_integer movie_id); [|exact Hwf].
    destruct (Store.pending_by_id st movie_id); [|exact Hwf].
    destruct (Status.of_str status) as [s|]; [|exact Hwf].
    cbn [fst]. apply update_pending_well_formed; [exact Hwf|..];
      intros m; destruct error_message as [msg|];
      try destruct (Str.eqb msg ""); reflexivity. }
  split.
  { intros config env files movie_id delete_source.
    pose proof (approve_movie_store config env st files movie_id
                  delete_source) as H.
    cbv zeta in H.
    destruct (MovieManager.approve_movie config env st files movie_id
                delete_source) as [[[st' files'] o] n].
    cbn [fst snd] in *. destruct o as [orig fn fp v|name|e].
    - destruct H as (movie & output & _ & _ & ->).
      apply delete_pending_well_formed, add_processed_well_formed.
      now apply update_pending_well_formed.
    - destruct H.
    - destruct H as [[_ ->]|(movie & msg & _ & _ & ->)]; [exact Hwf|].
      now apply update_pending_well_formed. }
  split.
  { intros env files movie_id delete_source.
    unfold MovieManager.reject_movie.
    destruct (Store.pending_by_id st movie_id); [|exact Hwf].
    cbn [fst]. now apply delete_pending_well_formed,
                 add_processed_well_formed. }
  intros config world mtime now ev.
  unfold MovieFileHandler.on_created, MovieFileHandler.on_modified.
  destruct (MovieFileHandler.is_directory ev); [now split|].
  split; apply Hhandle.
Qed.

Lemma filter_id_absent (movie_id : Z) (l : list PendingMovie.t) :
  ~ In movie_id (map PendingMovie.id l) ->
  List.filter (fun m => negb (PendingMovie.id m =? movie_id)) l = l
  /\ forall f,
      map (fun m => if PendingMovie.id m =? movie_id then f m else m) l = l.
Proof.
  induction l as [|x l IH]; [now split|]. simpl. intros Hnot.
  destruct (Z.eqb_spec (PendingMovie.id x) movie_id) as [Heq|Hne];
    [tauto|].
  destruct IH as [IH1 IH2]; [tauto|]. simpl. split.
  - now rewrite IH1.
  - intros f. now rewrite IH2.
Qed.

Lemma event_never_changes_the_store_witness :
  MovieFileHandler.on_created FileValidator.default_config
    Scenario.steady_world (fun _ => 0) 7 Store.empty Scenario.created
  = (Store.empty,
     MovieFileHandler.Errored
       (DatabaseError
          "Failed to add file to database: 'file_metadata' is an invalid keyword argument for PendingMovie")).
Proof.
  pose proof (event_never_changes_the_store FileValidator.default_config
                Scenario.steady_world (fun _ => 0) 7 Store.empty
                Scenario.created) as (Hst & _ & _ & _ & Hfile).
  cbv zeta in *.
  destruct (Hfile eq_refl) as (_ & _ & Hvalid).
  destruct (Hvalid ltac:(vm_compute; reflexivity)) as (_ & _ & Hnew).
  specialize (Hnew ltac:(vm_compute; eauto) eq_refl).
  destruct (MovieFileHandler.on_created _ _ _ _ _ _) as [st' h].
  cbn [fst snd] in *. now subst.
Defined.

Lemma store_constraints_invariant_witness :
  Store.well_formed
    (MovieManager.approve_movie Scenario.manager_config
       (Scenario.manager_env false) Scenario.one_pending
       Scenario.download 1 true).1.1.1.
Proof.
  destruct store_constraints_invariant as [_ Hkept].
  destruct (Hkept _ one_pending_well_formed) as (_ & _ & Happ & _).
  apply Happ.
Defined.

Lemma count_pending_delete (movie_id : Z) (m : PendingMovie.t)
      (l : list PendingMovie.t) :
  NoDup (map PendingMovie.id l) ->
  List.find (fun x => PendingMovie.id x =? movie_id) l = Some m ->
  (length (List.filter Store.is_pending
             (List.filter
                (fun x => negb (PendingMovie.id x =? movie_id)%Z) l))
   + (if Store.is_pending m then 1 else 0)
   = length (List.filter Store.is_pending l))%nat.
Proof.
  induction l as [|x l IH]; [discriminate|]. simpl. intros Hnd Hfind.
  apply NoDup_cons in Hnd as [Hnotin Hnd].
  destruct (Z.eqb_spec (PendingMovie.id x) movie_id) as [Heq|Hne]; simpl.
  - injection Hfind as <-.
    destruct (filter_id_absent movie_id l) as [-> _].
    { intros Hin. apply Hnotin. rewrite Heq. now apply list_elem_of_In. }
    destruct (Store.is_pending x); simpl; lia.
  - specialize (IH Hnd Hfind).
    destruct (Store.is_pending x); simpl; lia.
Qed.

Lemma count_pending_update (movie_id : Z) (m : PendingMovie.t)
      (f : PendingMovie.t -> PendingMovie.t) (l : list PendingMovie.t) :
  NoDup (map PendingMovie.id l) ->
  List.find (fun x => PendingMovie.id x =? movie_id) l = Some m ->
  (length (List.filter Store.is_pending
             (map (fun x => if (PendingMovie.id x =? movie_id)%Z
                            then f x else x) l))
   + (if Store.is_pending m then 1 else 0)
   = length (List.filter Store.is_pending l)
     + (if Store.is_pending (f m) then 1 else 0))%nat.
Proof.
  induction l as [|x l IH]; [discriminate|]. simpl. intros Hnd Hfind.
  apply NoDup_cons in Hnd as [Hnotin Hnd].
  destruct (Z.eqb_spec (PendingMovie.id x) movie_id) as [Heq|Hne]; simpl.
  - injection Hfind as <-.
    destruct (filter_id_absent movie_id l) as [_ ->].
    { intros Hin. apply Hnotin. rewrite Heq. now apply list_elem_of_In. }
    destruct (Store.is_pending x), (Store.is_pending (f x)); simpl; lia.
  - specialize (IH Hnd Hfind).
    destruct (Store.is_pending x); simpl; lia.
Qed.

Lemma approved_or_rejected (l : list ProcessedMovie.t) :
  (length (List.filter MovieManager.is_approved l)
   + length (List.filter (fun r => negb (MovieManager.is_approved r)) l)
   = length l)%nat.
Proof.
  induction l as [|r l IH]; [reflexivity|]. simpl.
  destruct (MovieManager.is_approved r); simpl; lia.
Qed.

(** X14. The statistics follow the transitions of a pending record. The
    total of processed movies is the number of rows of the history. A
    rejection moves the record from the pending count to the rejected
    count; a successful approval moves it to the approved count; a failed
    approval takes it out of the pending count and adds it to no other, so
    that a failed movie is counted nowhere. *)
Theorem stats_follow_transitions
        (config : MovieManager.Config) (env : MovieManager.Env)
        (st : Store.t) (files : gmap string Z) (movie_id : Z)
        (delete_source : bool) (movie : PendingMovie.t) :
  let s := MovieManager.get_stats st in
  let approval :=
    MovieManager.approve_movie config env st files movie_id delete_source in
  let a := MovieManager.get_stats approval.1.1.1 in
  let r :=
    MovieManager.get_stats
      (MovieManager.reject_movie env st files movie_id delete_source).1.1 in
  Store.unique_ids st ->
  Store.pending_by_id st movie_id = Some movie ->
  PendingMovie.status movie = Status.pending ->
  MovieManager.stats_total_processed s
  = length (Store.processed_movies st)
  /\ (S (MovieManager.stats_pending r) = MovieManager.stats_pending s
      /\ MovieManager.stats_approved r = MovieManager.stats_approved s
      /\ MovieManager.stats_rejected r
         = S (MovieManager.stats_rejected s))
  /\ S (MovieManager.stats_pending a) = MovieManager.stats_pending s
  /\ MovieManager.stats_rejected a = MovieManager.stats_rejected s
  /\ MovieManager.stats_approved a
     = if MovieManager.success approval.1.2
       then S (MovieManager.stats_approved s)
       else MovieManager.stats_approved s.
Proof.
  intros s approval a r Hnd E Hs. subst s a r approval.
  assert (Store.is_pending movie = true) as Hp.
  { unfold Store.is_pending. now apply status_eqb_pending. }
  unfold MovieManager.get_stats.
  cbn [MovieManager.stats_total_processed MovieManager.stats_pending
       MovieManager.stats_approved MovieManager.stats_rejected].
  fold Store.is_pending.
  split; [apply approved_or_rejected|]. split.
  { unfold MovieManager.reject_movie. rewrite E. cbn [fst snd].
    pose proof (count_pending_delete movie_id movie
                  (Store.pending_movies st) Hnd E) as Hc.
    rewrite Hp in Hc. simpl.
    rewrite !List.filter_app, !length_app. simpl.
    split; [lia|]. split; lia. }
  pose proof (approve_movie_store config env st files movie_id
                delete_source) as H.
  cbv zeta in H.
  destruct (MovieManager.approve_movie config env st files movie_id
              delete_source) as [[[st' files'] o] n].
  cbn [fst snd] in *. destruct o as [orig fn fp v|name|e].
  - destruct H as (m & output & Em & _ & ->).
    pose proof (count_pending_delete movie_id movie
                  (Store.pending_movies st) Hnd E) as Hc.
    rewrite Hp in Hc.
    change (Store.pending_movies
              (Store.delete_pending
                 (Store.add_processed ?s ?row) movie_id))
      with (Store.pending_movies (Store.delete_pending s movie_id)).
    rewrite delete_update_pending by reflexivity.
    simpl. rewrite !List.filter_app, !length_app. simpl.
    split; [lia|]. split; lia.
  - destruct H.
  - destruct H as [[Hb _]|(m & msg & Em & _ & ->)].
    { exfalso. destruct Hb as [Hb|(m & Hm & Hne)]; congruence. }
    pose proof (count_pending_update movie_id movie
                  (MovieManager.failed_with msg)
                  (Store.pending_movies st) Hnd E) as Hc.
    rewrite Hp in Hc. simpl in *.
    split; [lia|]. split; reflexivity.
Qed.

Lemma stats_follow_transitions_witness :
  let failed :=
    (MovieManager.approve_movie Scenario.manager_config
       (Scenario.manager_env true) Scenario.one_pending Scenario.download
       1 true).1.1.1 in
  MovieManager.stats_pending (MovieManager.get_stats Scenario.one_pending)
  = 1%nat
  /\ MovieManager.get_stats failed
     = {| MovieManager.stats_pending := 0;
          MovieManager.stats_approved := 0;
          MovieManager.stats_rejected := 0;
          MovieManager.stats_total_processed := 0 |}.
Proof.
  assert (Store.unique_ids Scenario.one_pending) as Hnd
    by (unfold Store.unique_ids; simpl; apply NoDup_singleton).
  pose proof (stats_follow_transitions Scenario.manager_config
                (Scenario.manager_env true) Scenario.one_pending
                Scenario.download 1 true _ Hnd eq_refl eq_refl)
    as (_ & _ & Hpending & Hrejected & Happroved).
  cbv zeta. split; [reflexivity|].
  destruct (MovieManager.get_stats _) as [p a r t] eqn:Hstats.
  cbn [MovieManager.stats_pending MovieManager.stats_approved
       MovieManager.stats_rejected] in *.
  assert (t = 0%nat) as ->.
  { apply (f_equal MovieManager.stats_total_processed) in Hstats.
    vm_compute in Hstats. now symmetry. }
  injection Hpending as ->. rewrite Hrejected, Happroved. reflexivity.
Defined.

(** ** Paths: base names *)

Lemma endswith_inv (s p : string) :
  Py.endswith s p = true -> exists a, s = a +:+ p.
Proof.
  induction s as [|c s IH]; rewrite endswith_unfold.
  - destruct (Str.eqb_spec "" p) as [<-|]; [|discriminate].
    intros _. now exists "".
  - destruct (Str.eqb_spec (String c s) p) as [<-|_].
    + intros _. now exists "".
    + intros H. destruct (IH H) as [a ->]. now exists (String c a).
Qed.

Lemma slice_from_0 (s : string) : Py.slice_from s 0 = s.
Proof. unfold Py.slice_from. simpl. apply str_chars. Qed.

Lemma slice_from_app (a b : string) (i : Z) :
  0 <= i <= Py.len a ->
  Py.slice_from (a +:+ b) i = Py.slice_from a i +:+ b.
Proof.
  intros Hi. unfold Py.slice_from, Py.len in *.
  rewrite chars_app, drop_app_le by lia.
  now rewrite str_app, str_chars.
Qed.

Lemma slice_from_app_len (a b : string) :
  Py.slice_from (a +:+ b) (Py.len a) = b.
Proof.
  unfold Py.slice_from, Py.len.
  rewrite chars_app, Nat2Z.id, drop_app_length. apply str_chars.
Qed.

Lemma rfind_range (c : ascii) (s : string) :
  -1 <= Py.rfind c s < Py.len s.
Proof.
  unfold Py.rfind.
  destruct (rfind_from_range c s 0 ltac:(lia)) as [->|H];
    [pose proof (len_nonneg s)|]; lia.
Qed.

Lemma rfind_app_lacks (c : ascii) (a b : string) :
  Py.lacks c b = true -> Py.rfind c (a +:+ b) = Py.rfind c a.
Proof.
  intros Hb. unfold Py.rfind. rewrite rfind_from_app by lia.
  pose proof (len_nonneg a).
  apply (rfind_from_none c b (0 + Py.len a)) in Hb; [|lia].
  now rewrite Hb.
Qed.

Lemma basename_app (a b : string) :
  Py.lacks "/" b = true -> Py.basename (a +:+ b) = Py.basename a +:+ b.
Proof.
  intros Hb. unfold Py.basename. rewrite rfind_app_lacks by exact Hb.
  apply slice_from_app. pose proof (rfind_range "/" a). lia.
Qed.

Lemma basename_after_slash (a f : string) :
  Py.lacks "/" f = true -> Py.basename (a +:+ "/" +:+ f) = f.
Proof.
  intros Hf. rewrite <- append_assoc, basename_app by exact Hf.
  replace (Py.basename (a +:+ "/")) with ""; [reflexivity|].
  unfold Py.basename, Py.rfind. rewrite rfind_from_app by lia.
  pose proof (len_nonneg a). simpl Py.rfind_from.
  destruct (Z.leb_spec 0 (0 + Py.len a)); [|lia].
  replace (0 + Py.len a + 1) with (Py.len (a +:+ "/"))
    by (rewrite len_app; reflexivity).
  rewrite <- (append_empty_r (a +:+ "/")) at 1.
  symmetry. apply slice_from_app_len.
Qed.

Lemma basename_plain (f : string) :
  Py.lacks "/" f = true -> Py.basename f = f.
Proof.
  intros Hf. unfold Py.basename.
  apply rfind_none in Hf. rewrite Hf. apply slice_from_0.
Qed.

Lemma lacks_startswith (f : string) :
  Py.lacks "/" f = true -> Py.startswith f "/" = false.
Proof.
  destruct f as [|c f]; [reflexivity|]. rewrite lacks_cons. intros H.
  apply andb_true_iff in H as [H _]. apply negb_true_iff in H.
  cbn [Py.startswith]. now rewrite Ascii.eqb_sym, H.
Qed.

Lemma basename_join (d f : string) :
  Py.lacks "/" f = true -> Py.basename (Py.join d f) = f.
Proof.
  intros Hf. unfold Py.join. rewrite lacks_startswith by exact Hf.
  destruct (Str.eqb_spec d "") as [->|Hd]; simpl.
  - now apply basename_plain.
  - destruct (Py.endswith d "/") eqn:He.
    + apply endswith_inv in He as [a ->]. rewrite append_assoc.
      now apply basename_after_slash.
    + now apply basename_after_slash.
Qed.

Lemma basename_lacks (p : string) : Py.lacks "/" (Py.basename p) = true.
Proof.
  unfold Py.basename.
  pose proof (rfind_range "/" p) as Hr.
  pose proof (slice_split p (Py.rfind "/" p + 1)) as Hsplit.
  set (a := Py.slice p 0 (Py.rfind "/" p + 1)) in *.
  set (b := Py.slice_from p (Py.rfind "/" p + 1)) in *.
  assert (Py.len a = Py.rfind "/" p + 1) as Hlen.
  { unfold a, Py.slice, Py.len in *. rewrite chars_str.
    change (Z.to_nat 0) with 0%nat. rewrite drop_0, length_take. lia. }
  apply (rfind_from_none "/" b (Py.len a)); [apply len_nonneg|].
  destruct (rfind_from_range "/" b (Py.len a) (len_nonneg a)) as [E|E];
    [exact E|exfalso].
  assert (Py.rfind "/" p = Py.rfind_from "/" b (Py.len a)) as Hp.
  { rewrite <- Hsplit at 1. unfold Py.rfind.
    rewrite rfind_from_app by lia. rewrite Z.add_0_l.
    destruct (Z.leb_spec 0 (Py.rfind_from "/" b (Py.len a))); [reflexivity|].
    lia. }
  lia.
Qed.

(** ** The validator: what is accepted *)



Lemma suffix_pattern_matches (filename suffix : string)
      (patterns : list string) :
  In (String "*" suffix) patterns ->
  Py.endswith filename suffix = true ->
  FileValidator._matches_exclude_loop filename patterns = true.
Proof.
  intros Hin Hends.
  induction patterns as [|pattern rest IH]; [destruct Hin|].
  simpl. destruct Hin as [->|Hin].
  - replace (Py.startswith (String "*" suffix) "*") with true
      by (now destruct suffix).
    replace (Py.slice_from (String "*" suffix) 1) with suffix
      by (symmetry; apply str_chars).
    now rewrite Hends.
  - destruct (_ && _); [reflexivity|].
    destruct (_ && _); [reflexivity|].
    destruct (Str.eqb pattern filename); [reflexivity|].
    now apply IH.
Qed.

Lemma excluded_is_invalid (config : FileValidator.Config)
      (world : nat -> string -> file_state) (file_path : string) :
  FileValidator._matches_exclude_pattern config file_path = true ->
  FileValidator.validate_file config world file_path = Ok false.
Proof.
  intros Hex. unfold FileValidator.validate_file. rewrite Hex.
  destruct (negb _); [reflexivity|].
  destruct (negb _); reflexivity.
Qed.

(** X16. The watcher never takes in a temp file of the transfer engine:
    when the exclusion list holds "*.tmp", as the default one does, the
    validator answers 'not valid' for the temp path of every transfer,
    without raising and whatever the state of the file, and an event for
    that path leaves the store as it is. *)
Theorem temp_files_never_ingested
        (config : FileValidator.Config) (copier : FileCopier.Config)
        (world : nat -> string -> file_state) (mtime : string -> Z)
        (now : Z) (st : Store.t) (filename : string)
        (ev : MovieFileHandler.event) :
  In "*.tmp" (FileValidator.exclude_patterns config) ->
  MovieFileHandler.src_path ev = FileCopier.temp_path_of copier filename ->
  FileValidator.validate_file config world (MovieFileHandler.src_path ev)
  = Ok false
  /\ (MovieFileHandler.on_created config world mtime now st ev).1 = st
  /\ (MovieFileHandler.on_modified config world mtime now st ev).1 = st.
Proof.
  intros Hin Hpath.
  assert (FileValidator.validate_file config world
            (MovieFileHandler.src_path ev) = Ok false) as Hval.
  { apply excluded_is_invalid.
    unfold FileValidator._matches_exclude_pattern.
    apply (suffix_pattern_matches _ ".tmp"); [exact Hin|].
    rewrite Hpath. unfold FileCopier.temp_path_of.
    rewrite basename_app by reflexivity. apply endswith_app. }
  split; [exact Hval|].
  unfold MovieFileHandler.on_created, MovieFileHandler.on_modified,
    MovieFileHandler._process_file.
  rewrite Hval. now destruct (MovieFileHandler.is_directory ev).
Qed.

Lemma temp_files_never_ingested_witness :
  (MovieFileHandler.on_created FileValidator.default_config
     Scenario.steady_world (fun _ => 0) 7 Store.empty
     {| MovieFileHandler.is_directory := false;
        MovieFileHandler.src_path := "/mnt/share/Movies/A.mkv.tmp" |}).1
  = Store.empty.
Proof.
  apply (temp_files_never_ingested FileValidator.default_config
           Scenario.share Scenario.steady_world (fun _ => 0) 7 Store.empty
           "A.mkv").
  - simpl. tauto.
  - reflexivity.
Defined.

(** ** The transfer engine: the loop of the stream copy *)

Lemma read_spec (n : Z) (data : list Byte.byte) :
  n <> 0 ->
  let '(chunk, rest) := FileCopier.read n data in
  chunk ++ rest = data
  /\ (chunk = [] -> data = [])
  /\ (data <> [] -> (length rest < length data)%nat).
Proof.
  intros Hn. unfold FileCopier.read. destruct (Z.ltb_spec n 0).
  - rewrite app_nil_r. split; [reflexivity|]. split; [auto|].
    intros Hd. destruct data; [contradiction|simpl; lia].
  - split; [apply take_drop|].
    assert (Z.to_nat n <> 0%nat) as Hk by lia.
    destruct (Z.to_nat n) as [|k]; [contradiction|].
    destruct data as [|b data]; [now split|]. split; [discriminate|].
    intros _. simpl. rewrite length_drop. lia.
Qed.

Lemma stream_loop_completes (fuel : nat) (chunk_size source_size : Z)
      (source dest : list Byte.byte) (bytes_copied : Z) :
  chunk_size <> 0 ->
  source_size <> 0 \/ source = [] ->
  (length source < fuel)%nat ->
  FileCopier.stream_loop fuel chunk_size source_size source dest
    bytes_copied
  = Some (dest ++ source, Ok (bytes_copied + Z.of_nat (length source))).
Proof.
  intros Hchunk. revert source dest bytes_copied.
  induction fuel as [|fuel IH]; intros source dest bytes_copied Hsize Hfuel;
    [lia|].
  simpl. pose proof (read_spec chunk_size source Hchunk) as Hread.
  destruct (FileCopier.read chunk_size source) as [chunk rest].
  destruct Hread as (Hsplit & Hnil & Hless).
  destruct chunk as [|b chunk].
  - rewrite (Hnil eq_refl), app_nil_r. simpl. now rewrite Z.add_0_r.
  - assert (source <> []) as Hne by (rewrite <- Hsplit; discriminate).
    destruct Hsize as [Hsize|Hsize]; [|contradiction].
    destruct (Z.eqb_spec source_size 0); [contradiction|].
    rewrite IH; [|now left|specialize (Hless Hne); lia].
    rewrite <- app_assoc, Hsplit. do 3 f_equal.
    rewrite <- Hsplit, length_app. lia.
Qed.

(** X17. The loop of [_stream_copy], whatever the chunk size other than
    zero: when the size reported for the source is not zero, or the source
    is empty, the loop ends after at most one iteration per byte and one
    more, the destination then holds exactly the bytes of the source and
    the count of bytes copied is their number. When the size was reported
    as zero and the source has bytes when it is read, the computation of
    the progress divides by zero after the first chunk is written: the
    copy fails with [FileCopyError] and the destination holds that chunk
    only. *)
Theorem stream_copy_copies_every_byte
        (fuel : nat) (chunk_size source_size : Z)
        (source : list Byte.byte) :
  chunk_size <> 0 ->
  (length source < fuel)%nat ->
  (source_size <> 0 \/ source = [] ->
   FileCopier._stream_copy_bytes fuel chunk_size source_size source
   = Some (source, Ok (Z.of_nat (length source))))
  /\ (source_size = 0 -> source <> [] ->
      FileCopier._stream_copy_bytes fuel chunk_size source_size source
      = Some ((FileCopier.read chunk_size source).1,
              Raise (FileCopyError "Stream copy failed: division by zero"))).
Proof.
  intros Hchunk Hfuel. unfold FileCopier._stream_copy_bytes. split.
  - intros Hsize.
    now rewrite stream_loop_completes by assumption.
  - intros -> Hne. destruct fuel as [|fuel]; [lia|]. simpl.
    pose proof (read_spec chunk_size source Hchunk) as Hread.
    destruct (FileCopier.read chunk_size source) as [chunk rest].
    destruct Hread as (_ & Hnil & _).
    destruct chunk as [|b chunk]; [now destruct (Hne (Hnil eq_refl))|].
    reflexivity.
Qed.

Lemma stream_copy_copies_every_byte_witness :
  FileCopier._stream_copy_bytes 6 2 5
    [Byte.x61; Byte.x62; Byte.x63; Byte.x64; Byte.x65]
  = Some ([Byte.x61; Byte.x62; Byte.x63; Byte.x64; Byte.x65], Ok 5).
Proof.
  apply (stream_copy_copies_every_byte 6 2 5
           [Byte.x61; Byte.x62; Byte.x63; Byte.x64; Byte.x65]);
    [lia|simpl; lia|left; lia].
Defined.

(** ** The renamer: reading the output of mnamer *)

Lemma split_str_from_nonempty (skip : nat) (sep s : string) :
  Py.split_str_from skip sep s <> [].
Proof.
  revert skip. induction s as [|c s IH]; intros skip; [discriminate|].
  cbn [Py.split_str_from]. destruct skip as [|k]; [|apply IH].
  destruct (Py.startswith (String c s) sep); [discriminate|].
  destruct (Py.split_str_from 0 sep s); discriminate.
Qed.

Lemma contains_empty (sep : string) :
  sep <> "" -> Py.contains "" sep = false.
Proof. destruct sep; [contradiction|reflexivity]. Qed.

Lemma contains_split (sep s : string) :
  sep <> "" ->
  Py.contains s sep = true ->
  (2 <= length (Py.split_str sep s))%nat.
Proof.
  intros Hsep. unfold Py.split_str.
  induction s as [|c s IH].
  - now rewrite contains_empty.
  - cbn [Py.contains Py.split_str_from].
    destruct (Py.startswith (String c s) sep).
    + intros _.
      pose proof (split_str_from_nonempty
                    (pred (length (Py.chars sep))) sep s) as Hne.
      revert Hne.
      destruct (Py.split_str_from (pred (length (Py.chars sep))) sep s);
        [intros Hne; congruence|intros _; simpl; lia].
    + intros H. specialize (IH H).
      destruct (Py.split_str_from 0 sep s); simpl in *; lia.
Qed.

Lemma first_arrow_line_none (lines : list string) :
  MovieRenamer.first_arrow_line lines = None
  <-> forall line, In line lines -> Py.contains line "->" = false.
Proof.
  induction lines as [|line rest IH];
    [split; [intros _ l []|reflexivity]|].
  cbn [MovieRenamer.first_arrow_line].
  destruct (Py.contains line "->") eqn:E.
  - assert ("->" <> "") as Hsep by discriminate.
    pose proof (contains_split "->" line Hsep E) as Hlen.
    apply Nat.leb_le in Hlen. rewrite Hlen. split; [discriminate|].
    intros H. specialize (H line (or_introl eq_refl)). congruence.
  - rewrite IH. split.
    + intros H l [<-|Hin]; [exact E|now apply H].
    + intros H l Hin. apply H. now right.
Qed.

Lemma first_renamed_to_line_none (lines : list string) :
  MovieRenamer.first_renamed_to_line lines = None
  <-> forall line, In line lines ->
                   Py.contains (Py.lower line) "renamed to" = false.
Proof.
  induction lines as [|line rest IH];
    [split; [intros _ l []|reflexivity]|].
  cbn [MovieRenamer.first_renamed_to_line].
  destruct (Py.contains (Py.lower line) "renamed to") eqn:E.
  - assert ("renamed to" <> "") as Hsep by discriminate.
    pose proof (contains_split "renamed to" (Py.lower line) Hsep E)
      as Hlen.
    apply Nat.leb_le in Hlen. rewrite Hlen. split; [discriminate|].
    intros H. specialize (H line (or_introl eq_refl)). congruence.
  - rewrite IH. split.
    + intros H l [<-|Hin]; [exact E|now apply H].
    + intros H l Hin. apply H. now right.
Qed.

Lemma first_arrow_line_some (before after : list string) (line : string) :
  (forall l, In l before -> Py.contains l "->" = false) ->
  Py.contains line "->" = true ->
  MovieRenamer.first_arrow_line (before ++ line :: after)
  = Some (MovieRenamer.new_name_of
            (List.last (Py.split_str "->" line) "")).
Proof.
  intros Hbefore Hline.
  induction before as [|l before IH];
    cbn [app MovieRenamer.first_arrow_line].
  - rewrite Hline. assert ("->" <> "") as Hsep by discriminate.
    pose proof (contains_split "->" line Hsep Hline) as Hlen.
    apply Nat.leb_le in Hlen. now rewrite Hlen.
  - rewrite (Hbefore l (or_introl eq_refl)). apply IH.
    intros l' Hin. apply Hbefore. now right.
Qed.

Lemma first_line_lacks_slash (lines : list string) (name : string) :
  MovieRenamer.first_arrow_line lines = Some name
  \/ MovieRenamer.first_renamed_to_line lines = Some name ->
  Py.lacks "/" name = true.
Proof.
  induction lines as [|line rest IH];
    [intros [H|H]; discriminate|].
  cbn [MovieRenamer.first_arrow_line MovieRenamer.first_renamed_to_line].
  intros [H|H].
  - destruct (Py.contains line "->"); [|now apply IH; left].
    destruct (_ <=? _)%nat; [|now apply IH; left].
    injection H as <-. apply basename_lacks.
  - destruct (Py.contains (Py.lower line) "renamed to");
      [|now apply IH; right].
    destruct (_ <=? _)%nat; [|now apply IH; right].
    injection H as <-. apply basename_lacks.
Qed.

Lemma parse_lacks_slash (output original_path name : string) :
  MovieRenamer._parse_mnamer_output output original_path = Some name ->
  Py.lacks "/" name = true.
Proof.
  unfold MovieRenamer._parse_mnamer_output.
  destruct (MovieRenamer.first_arrow_line _) as [n|] eqn:E.
  - intros [= <-]. apply (first_line_lacks_slash _ _ (or_introl E)).
  - intros H. apply (first_line_lacks_slash _ _ (or_intror H)).
Qed.

(** X18. [_parse_mnamer_output]: the name it returns holds no slash, so it
    is a file name and never a path; it returns nothing exactly when no
    line of the output holds an arrow "->" and no line holds, in any
    casing, the words "renamed to"; and when some line holds an arrow, the
    first such line decides, whatever the lines with "renamed to" before
    it: the name is read from the text after the last arrow of that line,
    stripped of white space and quotes and cut to its base name. *)
Theorem parse_mnamer_output_spec (output original_path : string) :
  let lines := Py.split "010" output in
  let parsed := MovieRenamer._parse_mnamer_output output original_path in
  (forall name, parsed = Some name -> Py.lacks "/" name = true)
  /\ (parsed = None
      <-> forall line, In line lines ->
                       Py.contains line "->" = false
                       /\ Py.contains (Py.lower line) "renamed to" = false)
  /\ (forall before line after,
         lines = before ++ line :: after ->
         (forall l, In l before -> Py.contains l "->" = false) ->
         Py.contains line "->" = true ->
         parsed = Some (MovieRenamer.new_name_of
                          (List.last (Py.split_str "->" line) ""))).
Proof.
  cbv zeta. split; [intros name; apply parse_lacks_slash|]. split.
  - unfold MovieRenamer._parse_mnamer_output.
    destruct (MovieRenamer.first_arrow_line _) as [n|] eqn:E.
    + split; [discriminate|]. intros H.
      assert (MovieRenamer.first_arrow_line (Py.split "010" output) = None)
        as E'; [|congruence].
      apply first_arrow_line_none. intros line Hin. now apply H.
    + rewrite first_renamed_to_line_none.
      rewrite first_arrow_line_none in E. split.
      * intros H line Hin. split; [now apply E|now apply H].
      * intros H line Hin. now apply H.
  - intros before line after Hlines Hbefore Hline.
    unfold MovieRenamer._parse_mnamer_output. rewrite Hlines.
    now rewrite first_arrow_line_some.
Qed.

Lemma parse_mnamer_output_spec_witness :
  MovieRenamer._parse_mnamer_output Scenario.mnamer_report "/dl/a.mkv"
  = Some "A (2020).mkv".
Proof.
  pose proof (parse_mnamer_output_spec Scenario.mnamer_report "/dl/a.mkv")
    as (_ & _ & Harrow).
  cbv zeta in Harrow.
  rewrite (Harrow ["it was renamed to x.mkv"]
             "a.mkv -> '/media/A (2020).mkv'" []); try reflexivity.
  intros l [<-|[]]. reflexivity.
Defined.

(** ** The orchestrator and the renamer: where an approved file lands *)

Lemma rename_movie_some (config : MovieRenamer.Config)
      (run : string -> MovieRenamer.subprocess_outcome)
      (parse : string -> string -> option string)
      (files : gmap string Z) (file_path new_filename output : string) :
  MovieRenamer.rename_movie config run parse files file_path
  = Ok (Some new_filename, output) ->
  parse output file_path = Some new_filename /\ new_filename <> "".
Proof.
  unfold MovieRenamer.rename_movie.
  destruct (files !! file_path); [|discriminate].
  destruct (run file_path) as [| |msg|returncode stdout stderr];
    try discriminate.
  destruct (returncode =? 0); [|discriminate].
  destruct (parse _ _) as [name|] eqn:Hp; [|discriminate].
  destruct (Str.eqb_spec name ""); [discriminate|].
  intros [= <- <-]. now split.
Qed.

Lemma detect_version_lacks_slash (ratio : string -> string -> Q)
      (config : VersionDetector.Config) (filename : string)
      (existing_files : list string) :
  Py.lacks "/" (VersionDetector.format config) = true ->
  Py.lacks "/" filename = true ->
  Py.lacks "/"
    (VersionDetector.detect_version ratio config filename
       existing_files).1 = true.
Proof.
  intros Hfmt Hname.
  destruct (detect_version_cases ratio config filename existing_files)
    as [->|(highest & _ & ->)]; [exact Hname|].
  cbn [fst]. rewrite add_version_suffix_shape.
  rewrite <- (splitext_app filename), lacks_app in Hname.
  apply andb_true_iff in Hname as [Hstem Hext].
  rewrite !lacks_app, Hstem, Hext, andb_true_r. simpl.
  apply render_from_lacks; [exact Hfmt|apply str_of_int_lacks_slash].
Qed.

Lemma append_nonempty (a b c : string) :
  a +:+ c <> "" -> a +:+ b +:+ c <> "".
Proof.
  destruct a; [|discriminate]. destruct b; [trivial|discriminate].
Qed.

Lemma detect_version_nonempty (ratio : string -> string -> Q)
      (config : VersionDetector.Config) (filename : string)
      (existing_files : list string) :
  filename <> "" ->
  (VersionDetector.detect_version ratio config filename
     existing_files).1 <> "".
Proof.
  intros Hname.
  destruct (detect_version_cases ratio config filename existing_files)
    as [->|(highest & _ & ->)]; [exact Hname|].
  cbn [fst]. rewrite add_version_suffix_shape.
  apply append_nonempty. now rewrite splitext_app.
Qed.

(** X19. With the output of mnamer read by [_parse_mnamer_output] and a
    version suffix format without a slash, an approved file lands directly
    in the target directory: the final name is not empty and holds no
    slash, whatever path the renamer printed, and the final path is that
    name joined to the target directory, of which it is the base name. *)
Theorem approved_file_lands_in_target_directory
        (config : MovieManager.Config) (env : MovieManager.Env)
        (st st' : Store.t) (files files' : gmap string Z) (movie_id : Z)
        (delete_source : bool) (orig fn fp : string) (v : Z) (n : nat) :
  MovieManager._parse_mnamer_output env
  = MovieRenamer._parse_mnamer_output ->
  Py.lacks "/"
    (VersionDetector.format (MovieManager.version_detection config))
  = true ->
  MovieManager.approve_movie config env st files movie_id delete_source
  = (st', files', MovieManager.Approved orig fn fp v, n) ->
  fn <> ""
  /\ Py.lacks "/" fn = true
  /\ fp = Py.join (MovieManager.target_dir config) fn
  /\ Py.basename fp = fn.
Proof.
  intros Hparse Hfmt Hrun. unfold MovieManager.approve_movie in Hrun.
  destruct (approve_begin_cases st movie_id) as [Hb|(m & E & Hs & Hbegin)].
  { destruct (approve_begin_blocked st movie_id Hb) as (o & Ho & Hg).
    rewrite Ho in Hrun. injection Hrun as _ _ -> _.
    apply guard_failure_unsuccessful in Hg. discriminate. }
  rewrite Hbegin in Hrun.
  pose proof (approve_finish_success config env
                (Store.update_pending st movie_id
                   (PendingMovie.with_status Status.processing)) files
                (PendingMovie.with_status Status.processing m) movie_id
                delete_source orig fn fp v) as Hfin.
  cbv zeta in Hfin. rewrite Hrun in Hfin. cbn [fst snd] in Hfin.
  destruct (Hfin eq_refl)
    as (_ & Hfp & _ & (new_filename & output & Hren & Hdet & _) & _).
  apply rename_movie_some in Hren as [Hname Hne].
  rewrite Hparse in Hname. apply parse_lacks_slash in Hname.
  assert (Py.lacks "/" fn = true) as Hfn.
  { pose proof (detect_version_lacks_slash (MovieManager.ratio env)
                  (MovieManager.version_detection config) new_filename
                  (MovieManager._list_directory
                     (MovieManager.listdir_fails env) files
                     (MovieManager.target_dir config)) Hfmt Hname) as H.
    now rewrite Hdet in H. }
  split.
  { pose proof (detect_version_nonempty (MovieManager.ratio env)
                  (MovieManager.version_detection config) new_filename
                  (MovieManager._list_directory
                     (MovieManager.listdir_fails env) files
                     (MovieManager.target_dir config)) Hne) as H.
    now rewrite Hdet in H. }
  split; [exact Hfn|]. split; [exact Hfp|].
  rewrite Hfp. now apply basename_join.
Qed.

Lemma approved_file_lands_in_target_directory_witness :
  let out :=
    MovieManager.approve_movie Scenario.manager_config Scenario.mnamer_env
      Scenario.one_pending Scenario.download 1 false in
  out.1.2 = MovieManager.Approved "a.mkv" "A (2020).mkv"
              "/mnt/share/Movies/A (2020).mkv" 1
  /\ Py.basename "/mnt/share/Movies/A (2020).mkv" = "A (2020).mkv".
Proof.
  set (out := MovieManager.approve_movie Scenario.manager_config
                Scenario.mnamer_env Scenario.one_pending
                Scenario.download 1 false).
  assert (out = (out.1.1.1, out.1.1.2,
                 MovieManager.Approved "a.mkv" "A (2020).mkv"
                   "/mnt/share/Movies/A (2020).mkv" 1, 1%nat)) as Hrun
    by (vm_compute; reflexivity).
  cbv zeta. split; [now rewrite Hrun|].
  apply (approved_file_lands_in_target_directory Scenario.manager_config
           Scenario.mnamer_env Scenario.one_pending out.1.1.1
           Scenario.download out.1.1.2 1 false "a.mkv" "A (2020).mkv"
           "/mnt/share/Movies/A (2020).mkv" 1 1 eq_refl eq_refl Hrun).
Defined.

(** ** Stripping characters *)

Lemma str_inj (a b : string) : Py.chars a = Py.chars b -> a = b.
Proof.
  intros H. rewrite <- (str_chars a), <- (str_chars b). now rewrite H.
Qed.

Lemma chars_rev_app (s1 s2 : string) :
  Py.chars (String.rev_app s1 s2) = rev (Py.chars s1) ++ Py.chars s2.
Proof.
  revert s2. induction s1 as [|a s1 IH]; intros s2; [reflexivity|].
  cbn [String.rev_app]. rewrite IH.
  change (Py.chars (String a s1)) with (a :: Py.chars s1).
  change (Py.chars (String a s2)) with (a :: Py.chars s2).
  simpl rev. now rewrite <- app_assoc.
Qed.

Lemma chars_rev (s : string) :
  Py.chars (String.rev s) = rev (Py.chars s).
Proof.
  unfold String.rev. rewrite chars_rev_app. apply app_nil_r.
Qed.

Lemma rev_rev (s : string) : String.rev (String.rev s) = s.
Proof. apply str_inj. now rewrite !chars_rev, rev_involutive. Qed.

Lemma lacks_rev (c : ascii) (s : string) :
  Py.lacks c (String.rev s) = Py.lacks c s.
Proof.
  unfold Py.lacks. rewrite chars_rev.
  induction (Py.chars s) as [|a l IH]; [reflexivity|].
  simpl. rewrite forallb_app, IH. simpl.
  now rewrite andb_true_r, andb_comm.
Qed.

(** The characters [lstrip] passes over, and where it stops *)
Lemma lstrip_chars_spec (set s : string) :
  exists pre,
    s = pre +:+ Py.lstrip_chars set s
    /\ forallb (fun a => existsb (Ascii.eqb a) (Py.chars set))
               (Py.chars pre) = true
    /\ match Py.lstrip_chars set s with
       | EmptyString => True
       | String a _ => existsb (Ascii.eqb a) (Py.chars set) = false
       end.
Proof.
  induction s as [|a s (pre & Hs & Hpre & Hstop)].
  - now exists "".
  - cbn [Py.lstrip_chars].
    destruct (existsb (Ascii.eqb a) (Py.chars set)) eqn:E.
    + exists (String a pre). split.
      { change (String a s
                = String a (pre +:+ Py.lstrip_chars set s)).
        now rewrite <- Hs. }
      split; [|exact Hstop].
      change (Py.chars (String a pre)) with (a :: Py.chars pre).
      simpl. now rewrite E.
    + exists "". split; [reflexivity|]. split; [reflexivity|exact E].
Qed.

Lemma lstrip_spec (s : string) :
  exists pre, s = pre +:+ Py.lstrip s.
Proof.
  induction s as [|a s (pre & Hs)]; [now exists ""|].
  cbn [Py.lstrip]. destruct (Py.isspace a).
  - exists (String a pre).
    change (String a s = String a (pre +:+ Py.lstrip s)).
    now rewrite <- Hs.
  - now exists "".
Qed.

Lemma lacks_suffix (c : ascii) (pre s : string) :
  Py.lacks c (pre +:+ s) = true -> Py.lacks c s = true.
Proof.
  rewrite lacks_app. intros H. now apply andb_true_iff in H as [_ H].
Qed.

Lemma lacks_lstrip_chars (c : ascii) (set s : string) :
  Py.lacks c s = true -> Py.lacks c (Py.lstrip_chars set s) = true.
Proof.
  destruct (lstrip_chars_spec set s) as (pre & Hs & _).
  intros H. rewrite Hs in H. now apply lacks_suffix in H.
Qed.

Lemma lacks_lstrip (c : ascii) (s : string) :
  Py.lacks c s = true -> Py.lacks c (Py.lstrip s) = true.
Proof.
  destruct (lstrip_spec s) as (pre & Hs).
  intros H. rewrite Hs in H. now apply lacks_suffix in H.
Qed.

Lemma lacks_strip_chars (c : ascii) (set s : string) :
  Py.lacks c s = true -> Py.lacks c (Py.strip_chars set s) = true.
Proof.
  intros H. unfold Py.strip_chars, Py.rstrip_chars.
  rewrite lacks_rev. apply lacks_lstrip_chars. rewrite lacks_rev.
  now apply lacks_lstrip_chars.
Qed.

Lemma lacks_strip (c : ascii) (s : string) :
  Py.lacks c s = true -> Py.lacks c (Py.strip s) = true.
Proof.
  intros H. unfold Py.strip.
  rewrite lacks_rev. apply lacks_lstrip. rewrite lacks_rev.
  now apply lacks_lstrip.
Qed.

(** [rstrip] leaves a prefix that does not end with a stripped
    character. *)
Lemma rstrip_chars_spec (set s : string) :
  exists post,
    s = Py.rstrip_chars set s +:+ post
    /\ forall a rest,
        String.rev (Py.rstrip_chars set s) = String a rest ->
        existsb (Ascii.eqb a) (Py.chars set) = false.
Proof.
  unfold Py.rstrip_chars.
  destruct (lstrip_chars_spec set (String.rev s)) as (pre & Hs & _ & Hstop).
  exists (String.rev pre). split.
  - apply str_inj. rewrite chars_app, !chars_rev.
    apply (f_equal Py.chars) in Hs. rewrite chars_rev, chars_app in Hs.
    apply (f_equal (@rev ascii)) in Hs.
    now rewrite rev_involutive, rev_app_distr in Hs.
  - intros a rest Hrev. rewrite rev_rev in Hrev.
    now rewrite Hrev in Hstop.
Qed.

Lemma strip_chars_ends (set s : string) :
  let r := Py.strip_chars set s in
  (forall a rest, r = String a rest ->
                  existsb (Ascii.eqb a) (Py.chars set) = false)
  /\ (forall a rest, String.rev r = String a rest ->
                     existsb (Ascii.eqb a) (Py.chars set) = false).
Proof.
  cbv zeta. unfold Py.strip_chars.
  destruct (lstrip_chars_spec set s) as (pre & _ & _ & Hstop).
  destruct (rstrip_chars_spec set (Py.lstrip_chars set s))
    as (post & Hs & Hlast).
  split; [|exact Hlast].
  intros a rest Hr. rewrite Hr in Hs. rewrite Hs in Hstop. exact Hstop.
Qed.

Lemma lstrip_chars_skip (set : string) (u w : list ascii) :
  forallb (fun a => existsb (Ascii.eqb a) (Py.chars set)) u = true ->
  Py.lstrip_chars set (Py.str (u ++ w)) = Py.lstrip_chars set (Py.str w).
Proof.
  induction u as [|a u IH]; [reflexivity|]. simpl. intros H.
  apply andb_true_iff in H as [Ha Hu].
  change (Py.str (a :: u ++ w)) with (String a (Py.str (u ++ w))).
  cbn [Py.lstrip_chars]. rewrite Ha. now apply IH.
Qed.

Lemma lstrip_chars_stop (set : string) (x : ascii) (w : list ascii) :
  existsb (Ascii.eqb x) (Py.chars set) = false ->
  Py.lstrip_chars set (Py.str (x :: w)) = Py.str (x :: w).
Proof.
  intros H. change (Py.str (x :: w)) with (String x (Py.str w)).
  cbn [Py.lstrip_chars]. now rewrite H.
Qed.

(** [rstrip] drops a tail of stripped characters and stops at the first
    character that is not one. *)
Lemma rstrip_chars_tail (set : string) (a t : list ascii) (x : ascii) :
  existsb (Ascii.eqb x) (Py.chars set) = false ->
  forallb (fun c => existsb (Ascii.eqb c) (Py.chars set)) t = true ->
  Py.rstrip_chars set (Py.str (a ++ x :: t)) = Py.str (a ++ [x]).
Proof.
  intros Hx Ht. unfold Py.rstrip_chars. apply str_inj.
  rewrite chars_rev, chars_str.
  rewrite <- (str_chars (String.rev (Py.str (a ++ x :: t)))).
  rewrite chars_rev, chars_str, rev_app_distr. simpl rev.
  rewrite <- app_assoc. simpl app.
  rewrite lstrip_chars_skip
    by (rewrite forallb_forall in *; intros c Hc; apply Ht;
        now apply in_rev).
  rewrite lstrip_chars_stop by exact Hx.
  rewrite chars_str. simpl rev. now rewrite rev_involutive.
Qed.

Lemma all_or_last (P : ascii -> bool) (l : list ascii) :
  forallb P l = true
  \/ exists a x t, l = a ++ x :: t /\ P x = false /\ forallb P t = true.
Proof.
  induction l as [|c l [IH|(a & x & t & -> & Hx & Ht)]].
  - now left.
  - simpl. destruct (P c) eqn:E; [now left|].
    right. now exists [], c, l.
  - right. now exists (c :: a), x, t.
Qed.

Lemma in_set_slash (a : ascii) :
  existsb (Ascii.eqb a) (Py.chars "/") = Ascii.eqb a "/".
Proof. simpl. apply orb_false_r. Qed.

Lemma slice_app_len (a b : string) :
  Py.slice (a +:+ b) 0 (Py.len a) = a.
Proof.
  unfold Py.slice, Py.len. rewrite Z.sub_0_r, Nat2Z.id.
  change (Z.to_nat 0) with 0%nat. rewrite drop_0, chars_app.
  rewrite take_app_length. apply str_chars.
Qed.

Lemma rfind_slash_end (a : string) : Py.rfind "/" (a +:+ "/") = Py.len a.
Proof.
  unfold Py.rfind. rewrite rfind_from_app by lia.
  pose proof (len_nonneg a). simpl Py.rfind_from.
  destruct (Z.leb_spec 0 (0 + Py.len a)); lia.
Qed.

(** The head that [dirname] returns is empty, or made of slashes, or does
    not end with a slash. *)
Lemma dirname_shape (p : string) :
  forallb (fun c => Ascii.eqb c "/") (Py.chars (Py.dirname p)) = true
  \/ exists a x, Py.dirname p = Py.str (a ++ [x])
                 /\ Ascii.eqb x "/" = false.
Proof.
  unfold Py.dirname.
  set (head := Py.slice p 0 (Py.rfind "/" p + 1)).
  destruct (all_or_last (fun c => Ascii.eqb c "/") (Py.chars head))
    as [Hall|(a & x & t & Hhead & Hx & Ht)].
  - rewrite Hall, andb_false_r. now left.
  - assert (forallb (fun c => Ascii.eqb c "/") (Py.chars head) = false)
      as Hnot.
    { rewrite Hhead, forallb_app. simpl. rewrite Hx. apply andb_false_r. }
    rewrite Hnot.
    destruct (Str.eqb_spec head "") as [Hempty|_].
    { rewrite Hempty in Hhead. destruct a; discriminate. }
    simpl. right. exists a, x. split; [|exact Hx].
    rewrite <- (str_chars head), Hhead.
    apply rstrip_chars_tail; [now rewrite in_set_slash|].
    rewrite forallb_forall in *. intros c Hc.
    rewrite in_set_slash. now apply Ht.
Qed.

Lemma all_slashes_endswith (d : string) :
  d <> "" ->
  forallb (fun c => Ascii.eqb c "/") (Py.chars d) = true ->
  Py.endswith d "/" = true.
Proof.
  induction d as [|c d IH]; [contradiction|]. intros _ H.
  change (Py.chars (String c d)) with (c :: Py.chars d) in H.
  simpl in H. apply andb_true_iff in H as [Hc Hd].
  apply Ascii.eqb_eq in Hc. subst c. rewrite endswith_unfold.
  destruct d as [|c d]; [reflexivity|].
  rewrite IH by (discriminate || exact Hd).
  now destruct (Str.eqb _ _).
Qed.

Lemma endswith_last (a : list ascii) (x : ascii) :
  Ascii.eqb x "/" = false -> Py.endswith (Py.str (a ++ [x])) "/" = false.
Proof.
  intros Hx. destruct (Py.endswith _ _) eqn:E; [|reflexivity].
  apply endswith_inv in E as [b Hb].
  apply (f_equal Py.chars) in Hb. rewrite chars_str, chars_app in Hb.
  apply app_inj_tail in Hb as [_ ->]. discriminate.
Qed.

Lemma dirname_join (d f : string) :
  (forallb (fun c => Ascii.eqb c "/") (Py.chars d) = true
   \/ exists a x, d = Py.str (a ++ [x]) /\ Ascii.eqb x "/" = false) ->
  Py.lacks "/" f = true ->
  Py.dirname (Py.join d f) = d.
Proof.
  intros Hshape Hf. unfold Py.join. rewrite lacks_startswith by exact Hf.
  destruct (Str.eqb_spec d "") as [->|Hd].
  - cbn [orb]. change ("" +:+ f) with f.
    unfold Py.dirname. apply rfind_none in Hf. rewrite Hf.
    reflexivity.
  - cbn [orb]. destruct Hshape as [Hall|(a & x & -> & Hx)].
    + rewrite all_slashes_endswith by assumption.
      destruct (endswith_inv d "/" (all_slashes_endswith d Hd Hall))
        as [d' Hd'].
      assert (Py.rfind "/" d + 1 = Py.len d) as Hr.
      { rewrite Hd', rfind_slash_end, len_app. reflexivity. }
      unfold Py.dirname. rewrite rfind_app_lacks, Hr by exact Hf.
      rewrite slice_app_len. now rewrite Hall, andb_false_r.
    + rewrite endswith_last by exact Hx.
      set (d := Py.str (a ++ [x])) in *.
      unfold Py.dirname.
      rewrite <- append_assoc, rfind_app_lacks by exact Hf.
      rewrite rfind_slash_end.
      replace (Py.len d + 1) with (Py.len (d +:+ "/"))
        by (rewrite len_app; reflexivity).
      rewrite slice_app_len.
      assert (Py.chars (d +:+ "/") = a ++ x :: ["/"%char]) as Hchars.
      { unfold d. rewrite chars_app, chars_str, <- app_assoc.
        reflexivity. }
      assert (forallb (fun c => Ascii.eqb c "/") (Py.chars (d +:+ "/"))
              = false) as ->.
      { rewrite Hchars, forallb_app. simpl. rewrite Hx.
        apply andb_false_r. }
      destruct (Str.eqb_spec (d +:+ "/") "") as [Hempty|_].
      { apply (f_equal Py.chars) in Hempty. rewrite Hchars in Hempty.
        destruct a; discriminate. }
      simpl. rewrite <- (str_chars (d +:+ "/")), Hchars.
      apply rstrip_chars_tail; [now rewrite in_set_slash|reflexivity].
Qed.

(** X20. [get_renamed_path] puts the new name in the directory of the
    original path: for a new name without a slash, the path it builds has
    the new name as its base name and the directory of the original path
    as its directory. *)
Theorem get_renamed_path_round_trip (original_path new_filename : string) :
  Py.lacks "/" new_filename = true ->
  Py.basename (MovieRenamer.get_renamed_path original_path new_filename)
  = new_filename
  /\ Py.dirname (MovieRenamer.get_renamed_path original_path new_filename)
     = Py.dirname original_path.
Proof.
  intros Hf. unfold MovieRenamer.get_renamed_path. split.
  - now apply basename_join.
  - apply dirname_join; [apply dirname_shape|exact Hf].
Qed.

Lemma get_renamed_path_round_trip_witness :
  MovieRenamer.get_renamed_path "/dl/new/a.mkv" "A (2020).mkv"
  = "/dl/new/A (2020).mkv"
  /\ Py.dirname "/dl/new/A (2020).mkv" = Py.dirname "/dl/new/a.mkv".
Proof.
  split; [reflexivity|].
  apply (get_renamed_path_round_trip "/dl/new/a.mkv" "A (2020).mkv").
  reflexivity.
Defined.

(** ** [sanitize_filename] *)

Lemma replace_char_lacks_same (c r : ascii) (s : string) :
  r <> c -> Py.lacks c (Py.replace_char c r s) = true.
Proof.
  intros Hr. induction s as [|a s IH]; [reflexivity|].
  cbn [Py.replace_char]. rewrite lacks_cons, IH, andb_true_r.
  destruct (Ascii.eqb_spec a c) as [->|Hne].
  - now apply negb_true_iff, Ascii.eqb_neq.
  - now apply negb_true_iff, Ascii.eqb_neq.
Qed.

Lemma replace_char_lacks_other (c c' r : ascii) (s : string) :
  r <> c' -> Py.lacks c' s = true ->
  Py.lacks c' (Py.replace_char c r s) = true.
Proof.
  intros Hr. induction s as [|a s IH]; [reflexivity|].
  rewrite lacks_cons. intros H. apply andb_true_iff in H as [Ha Hs].
  cbn [Py.replace_char]. rewrite lacks_cons, IH, andb_true_r by exact Hs.
  destruct (Ascii.eqb a c); [|exact Ha].
  now apply negb_true_iff, Ascii.eqb_neq.
Qed.

Lemma fold_replace_lacks (l : list ascii) (s : string) (c r : ascii) :
  r <> c ->
  In c l \/ Py.lacks c s = true ->
  Py.lacks c
    (fold_left (fun name char => Py.replace_char char r name) l s) = true.
Proof.
  intros Hr. revert s. induction l as [|char l IH]; intros s Hc.
  - destruct Hc as [[]|Hc]. exact Hc.
  - cbn [fold_left]. apply IH.
    destruct Hc as [[->|Hin]|Hs].
    + right. now apply replace_char_lacks_same.
    + now left.
    + right. now apply replace_char_lacks_other.
Qed.

(** X21. The name [sanitize_filename] returns is never empty, is neither
    "." nor "..", holds none of the characters "<", ">", ":", the double
    quote, "/", "\", "|", "?" and "*", and neither starts nor ends with a
    dot: it names no directory and cannot lead out of one. *)
Theorem sanitize_filename_safe (filename : string) :
  let name := Helpers.sanitize_filename filename in
  name <> "" /\ name <> "." /\ name <> ".."
  /\ (forall c, In c (Py.chars Helpers.invalid_chars) ->
                Py.lacks c name = true)
  /\ Py.startswith name "." = false
  /\ Py.endswith name "." = false.
Proof.
  cbv zeta. unfold Helpers.sanitize_filename.
  set (replaced := fold_left _ _ (Py.basename filename)).
  set (stripped := Py.strip_chars "." (Py.strip replaced)).
  assert (forall c, In c (Py.chars Helpers.invalid_chars) ->
                    Py.lacks c stripped = true) as Hlacks.
  { intros c Hc. unfold stripped.
    apply lacks_strip_chars, lacks_strip. unfold replaced.
    apply fold_replace_lacks; [|now left].
    simpl in Hc.
    destruct Hc as [<-|[<-|[<-|[<-|[<-|[<-|[<-|[<-|[<-|[]]]]]]]]]];
      discriminate. }
  pose proof (strip_chars_ends "." (Py.strip replaced)) as [Hfirst Hlast].
  cbv zeta in Hfirst, Hlast. fold stripped in Hfirst, Hlast.
  destruct (Str.eqb_spec stripped "") as [_|Hne];
    [cbn [orb]; repeat split; try discriminate;
     intros c Hc; simpl in Hc;
     destruct Hc as [<-|[<-|[<-|[<-|[<-|[<-|[<-|[<-|[<-|[]]]]]]]]]];
     reflexivity|].
  cbn [orb existsb].
  destruct (Str.eqb_spec stripped ".") as [_|Hdot];
    [cbn [orb]; repeat split; try discriminate;
     intros c Hc; simpl in Hc;
     destruct Hc as [<-|[<-|[<-|[<-|[<-|[<-|[<-|[<-|[<-|[]]]]]]]]]];
     reflexivity|].
  destruct (Str.eqb_spec stripped "..") as [_|Hdots];
    [cbn [orb]; repeat split; try discriminate;
     intros c Hc; simpl in Hc;
     destruct Hc as [<-|[<-|[<-|[<-|[<-|[<-|[<-|[<-|[<-|[]]]]]]]]]];
     reflexivity|].
  destruct (Str.eqb_spec stripped "") as [Hempty|_]; [contradiction|].
  cbn [orb].
  split; [exact Hne|]. split; [exact Hdot|]. split; [exact Hdots|].
  split; [exact Hlacks|]. split.
  - destruct stripped as [|a rest] eqn:E; [reflexivity|].
    specialize (Hfirst a rest eq_refl). simpl in Hfirst.
    rewrite orb_false_r in Hfirst.
    cbn [Py.startswith]. now rewrite Ascii.eqb_sym, Hfirst.
  - destruct (Py.endswith stripped ".") eqn:E; [|reflexivity].
    apply endswith_inv in E as [b Hb].
    assert (String.rev stripped
            = String "." (Py.str (rev (Py.chars b)))) as Hrev.
    { apply str_inj. rewrite chars_rev, Hb, chars_app, rev_app_distr.
      change (Py.chars (String "." (Py.str (rev (Py.chars b)))))
        with ("."%char :: Py.chars (Py.str (rev (Py.chars b)))).
      now rewrite chars_str. }
    specialize (Hlast _ _ Hrev). discriminate.
Qed.

(** ** The API: the two actions *)

Lemma nonpositive_id_absent (st : Store.t) (movie_id : Z) :
  Store.well_formed st -> movie_id <= 0 ->
  Store.pending_by_id st movie_id = None.
Proof.
  intros (_ & _ & Hpos & _) Hid. unfold Store.pending_by_id.
  destruct (List.find _ _) as [m|] eqn:E; [|reflexivity].
  apply List.find_some in E as [Hin Heq]. apply Z.eqb_eq in Heq.
  rewrite Forall_forall in Hpos.
  apply list_elem_of_In in Hin. specialize (Hpos m Hin). lia.
Qed.

(** X22. On a store that respects the constraints of the tables, the
    approve and reject endpoints do to the store and to the files exactly
    what the manager does, and report success exactly when the manager
    does. Their refusal of an id that is not positive hides no record: no
    row has such an id, so the manager would have answered 'not found' and
    changed nothing; the endpoint changes nothing either and only words
    the error differently. *)
Theorem api_actions_follow_the_manager
        (config : MovieManager.Config) (env : MovieManager.Env)
        (st : Store.t) (files : gmap string Z) (movie_id : Z)
        (delete_source : bool) :
  let approved :=
    Api.approve_movie config env st files movie_id delete_source in
  let approval :=
    MovieManager.approve_movie config env st files movie_id delete_source in
  let rejected := Api.reject_movie env st files movie_id delete_source in
  let rejection :=
    MovieManager.reject_movie env st files movie_id delete_source in
  Store.well_formed st ->
  (approved.1 = approval.1.1
   /\ Api.success approved.2 = MovieManager.success approval.1.2)
  /\ (rejected.1 = rejection.1
      /\ Api.success rejected.2 = MovieManager.success rejection.2)
  /\ (movie_id <= 0 ->
      approved = (st, files, Api.refused "Invalid movie ID")
      /\ rejected = (st, files, Api.refused "Invalid movie ID")).
Proof.
  intros approved approval rejected rejection Hwf.
  subst approved approval rejected rejection.
  unfold Api.approve_movie, Api.reject_movie.
  destruct (Z.leb_spec movie_id 0) as [Hid|Hid].
  - pose proof (nonpositive_id_absent st movie_id Hwf Hid) as Hnone.
    unfold MovieManager.approve_movie, MovieManager.approve_begin,
      MovieManager.reject_movie.
    rewrite Hnone. cbn [fst snd]. repeat split; reflexivity.
  - split; [|split; [|lia]].
    + pose proof (approve_movie_store config env st files movie_id
                    delete_source) as H.
      cbv zeta in H.
      destruct (MovieManager.approve_movie config env st files movie_id
                  delete_source) as [[[st' files'] o] n].
      cbn [fst snd] in *. split; [reflexivity|].
      destruct o; [reflexivity|destruct H|reflexivity].
    + destruct (MovieManager.reject_movie env st files movie_id
                  delete_source) as [[st' files'] o].
      cbn [fst snd]. split; [reflexivity|]. now destruct o.
Qed.

Lemma api_actions_follow_the_manager_witness :
  Api.approve_movie Scenario.manager_config (Scenario.manager_env false)
    Scenario.one_pending Scenario.download 0 false
  = (Scenario.one_pending, Scenario.download,
     Api.refused "Invalid movie ID").
Proof.
  assert (Store.well_formed Scenario.one_pending) as Hwf.
  { unfold Store.well_formed, Store.unique_ids, Store.unique_paths,
      Store.unique_history_ids. simpl.
    split; [apply NoDup_singleton|]. split; [apply NoDup_singleton|].
    split; [constructor; [simpl; lia|constructor]|]. split; constructor. }
  apply (api_actions_follow_the_manager Scenario.manager_config
           (Scenario.manager_env false) Scenario.one_pending
           Scenario.download 0 false Hwf).
  lia.
Defined.


Lemma sanitize_filename_safe_witness :
  Py.lacks "/" (Helpers.sanitize_filename "../../etc/pass:wd.") = true
  /\ Py.lacks ":" (Helpers.sanitize_filename "../../etc/pass:wd.") = true.
Proof.
  destruct (sanitize_filename_safe "../../etc/pass:wd.")
    as (_ & _ & _ & Hlacks & _).
  split; apply Hlacks; simpl; tauto.
Defined.
